(** * The conversation manager of goss-up-server

    A shallow embedding of [src/controllers/chat.controller.js]: the request
    handlers that create one-to-one and group chats, maintain the participant
    and admin lists of a group, and answer the two paginated queries.

    The MongoDB collections are lists of documents, a handler is a function
    from the store and its request to an outcome and the store it leaves
    behind.  The store keeps an id as the 24-digit lower-case hexadecimal
    string that [ObjectId.prototype.toString] prints.  Mongoose's array
    methods [indexOf] and [includes] compare an id with a string by that
    printed form; its queries and [push] cast the string first, which
    changes nothing of a string in that form.  Ids are compared as strings
    throughout; a statement about a request id that need not be the id of a
    stored document takes it in that canonical form ([canonicalId]).

    Strings are strings of ASCII characters and numbers are integers or NaN.
    The time stamps Mongoose maintains are not updated (no handler reads
    them except to sort the chat list), so the [updatedAt] of a saved chat
    is the one that was read; [sameButMembersAndStamp] and [sameButStamp]
    compare chats without it. *)

From Stdlib Require Import List String Ascii Bool ZArith Arith Lia Permutation.
Import ListNotations.

Set Implicit Arguments.
Open Scope string_scope.
Open Scope list_scope.

(** ** Identifiers and status codes *)

Definition Id := string.

Definition Id_eq_dec : forall a b : Id, {a = b} + {a <> b} := string_dec.

(** The canonical form of an id: the 24 hexadecimal digits, in lower case,
    that [ObjectId.prototype.toString] prints and the store keeps.

    Mongoose casts the id of a query ([findById], [findOne], [find]) and the
    value of a [push] to an ObjectId before it compares or stores it, while
    [includes] and [indexOf] are handed the string the request carries.  On
    an id in canonical form the cast changes nothing, and the string
    comparison of the embedding is the comparison the handlers perform;
    another spelling of the same ObjectId (upper-case digits, a 12-character
    string) is not in the embedding's reach. *)
Definition isLowerHexDigit (c : ascii) : bool :=
  let n := nat_of_ascii c in
  (Nat.leb 48 n && Nat.leb n 57 || Nat.leb 97 n && Nat.leb n 102)%bool.

Definition canonicalId (id : string) : bool :=
  (Nat.eqb (String.length id) 24
   && forallb isLowerHexDigit (list_ascii_of_string id))%bool.

(** Modelled from the spec: [utils/constants.js] is not part of the sources;
    the spec lists the six status classes the operations return (OK, Created,
    BadRequest, Unauthorized, NotFound, InternalError).  The constructors
    carry the names the controller imports. *)
Inductive StatusCode : Type :=
| OK
| CREATED
| BAD_REQUEST
| UNAUTHORIZED
| NOT_FOUND
| INTERNAL_SERVER_ERROR.

(** ** Documents

    The Mongoose models are imported from [models/], which is not part of
    the sources; each record lists the fields the controller reads or writes. *)

(** Modelled from the spec: [models/user.model.js] is absent; the spec gives
    a user the fields id, name, profilePic and bio, the four the controller
    projects. *)
Module User.
Record t : Type := mk
  { _id : Id;
    name : string;
    profilePic : string;
    bio : string }.
End User.

(** Modelled from the spec: [models/friendship.model.js] is absent; the spec
    has a friendship store the pair smaller id first, with a status of which
    the controller asks for "accepted". *)
Module Friendship.
Record t : Type := mk
  { userOneId : Id;
    userTwoId : Id;
    status : string }.
End Friendship.

(** Modelled from the spec: the message model is absent; the spec lists id,
    chatId, senderId, messageType and content. *)
Module Message.
Record t : Type := mk
  { _id : Id;
    chatId : Id;
    senderId : Id;
    messageType : string;
    content : string }.
End Message.

Inductive ChatType : Type :=
| one_to_one   (* "one-to-one" *)
| group.       (* "group" *)

Definition ChatType_eqb (a b : ChatType) : bool :=
  match a, b with
  | one_to_one, one_to_one => true
  | group, group => true
  | _, _ => false
  end.

(** Modelled from the spec: [models/chat.model.js] is absent; the fields are
    those of the spec's data model.  A chat created without a [chatType] is
    a one-to-one chat: [createOneToOneChat] creates its chats that way and
    looks them up by the type "one-to-one". *)
Module Chat.
Record t : Type := mk
  { _id : Id;
    chatType : ChatType;
    participants : list Id;
    admins : list Id;
    groupName : string;
    groupIcon : option string;
    lastMessageId : option Id;
    updatedAt : nat }.

Definition set_groupName (c : t) (n : string) : t :=
  mk (_id c) (chatType c) (participants c) (admins c) n
     (groupIcon c) (lastMessageId c) (updatedAt c).

Definition set_participants (c : t) (ps : list Id) : t :=
  mk (_id c) (chatType c) ps (admins c) (groupName c)
     (groupIcon c) (lastMessageId c) (updatedAt c).

Definition set_admins (c : t) (adm : list Id) : t :=
  mk (_id c) (chatType c) (participants c) adm (groupName c)
     (groupIcon c) (lastMessageId c) (updatedAt c).

End Chat.

(** The store: one list per collection, in insertion order. *)
Record DB : Type := mkDB
  { users : list User.t;
    friendships : list Friendship.t;
    chats : list Chat.t;
    messages : list Message.t }.

Definition set_chats (db : DB) (cs : list Chat.t) : DB :=
  mkDB (users db) (friendships db) cs (messages db).

(** ** JavaScript arrays of ids *)

Module JsArray.

(** [arr.indexOf(x)]: the first index holding [x], [-1] when there is none. *)
Fixpoint indexOf (arr : list Id) (x : Id) : Z :=
  match arr with
  | [] => (-1)%Z
  | y :: rest =>
      if String.eqb x y then 0%Z
      else let i := indexOf rest x in
           if (i =? -1)%Z then (-1)%Z else (i + 1)%Z
  end.

(** Mongoose defines [includes] of a document array through [indexOf]. *)
Definition includes (arr : list Id) (x : Id) : bool :=
  negb (indexOf arr x =? -1)%Z.

(** [arr.splice(start, deleteCount)], as the array it leaves behind.  A
    negative [start] counts from the end, and both ends are clamped. *)
Definition splice (arr : list Id) (start : Z) (deleteCount : nat) : list Id :=
  let len := Z.of_nat (List.length arr) in
  let from := if (start <? 0)%Z then Z.max (len + start) 0 else Z.min start len in
  firstn (Z.to_nat from) arr ++ skipn (Z.to_nat from + deleteCount) arr.

(** [arr.push(x)].  An array of ObjectIds casts the value it is handed; an
    id in canonical form is stored as it is written. *)
Definition push (arr : list Id) (x : Id) : list Id := arr ++ [x].

(** [arr[0]]; [None] stands for [undefined]. *)
Definition at0 (arr : list Id) : option Id := hd_error arr.

End JsArray.

(** ** JavaScript strings *)

Definition isWhiteSpace (c : ascii) : bool :=
  let n := nat_of_ascii c in
  (Nat.eqb n 32 || (Nat.leb 9 n && Nat.leb n 13))%bool.

Fixpoint trimStart (s : string) : string :=
  match s with
  | EmptyString => EmptyString
  | String c rest => if isWhiteSpace c then trimStart rest else s
  end.

Fixpoint rev_string (s acc : string) : string :=
  match s with
  | EmptyString => acc
  | String c rest => rev_string rest (String c acc)
  end.

(** [s.trim()], on strings of ASCII characters: the white space stripped is
    the space and the characters 9 to 13.  The white space of Unicode beyond
    ASCII (U+00A0, U+FEFF, U+2028 and the like) is not in these strings. *)
Definition trim (s : string) : string :=
  rev_string (trimStart (rev_string (trimStart s) EmptyString)) EmptyString.

(** The guard [!s || s.trim() === ""] the handlers put on a text field; a
    field that is absent from the request is read as the empty string, both
    being falsy. *)
Definition blank (s : string) : bool :=
  (String.eqb s EmptyString || String.eqb (trim s) EmptyString)%bool.

(** The canonical order of a pair of ids.

    Modelled from the spec: [sortUserIds] lives in [utils/utility.js], which
    is not part of the sources.  The spec has it compute "the canonical
    sorted pair (smaller, larger)"; [createGroupChat] writes the same choice
    out with the string comparison [<], which is the order taken here. *)
Definition sortUserIds (a b : Id) : Id * Id :=
  if String.ltb a b then (a, b) else (b, a).

(** ** JavaScript numbers and request values

    Numbers are restricted to integers (doubles that hold an integer exactly)
    and NaN: page numbers, counts and their products with 50.  A page value
    with a fractional part, an infinite one, and the rounding of doubles
    beyond 2^53 are outside the embedding. *)
Inductive JsNumber : Type :=
| NaN
| Num (z : Z).

Definition js_lt (a b : JsNumber) : bool :=
  match a, b with
  | Num x, Num y => (x <? y)%Z
  | _, _ => false
  end.

Definition js_sub (a b : JsNumber) : JsNumber :=
  match a, b with
  | Num x, Num y => Num (x - y)
  | _, _ => NaN
  end.

Definition js_mul (a b : JsNumber) : JsNumber :=
  match a, b with
  | Num x, Num y => Num (x * y)
  | _, _ => NaN
  end.

(** What a request can carry in its [page] field. *)
Inductive JsValue : Type :=
| JsUndefined
| JsNull
| JsBool (b : bool)
| JsNum (n : JsNumber)
| JsString (s : string).

(** ** Regular expressions of [$regex]

    The fragment of PCRE that is interpreted here: a pattern made of ordinary
    characters, the dot, and backslash escapes of punctuation.  Any other
    metacharacter sends the pattern to the engine the handlers are
    parameterised by. *)
Module Regex.

Inductive Atom : Type :=
| Lit (c : ascii)
| AnyChar.

Definition isAlnum (c : ascii) : bool :=
  let n := nat_of_ascii c in
  ((Nat.leb 48 n && Nat.leb n 57)
   || (Nat.leb 65 n && Nat.leb n 90)
   || (Nat.leb 97 n && Nat.leb n 122))%bool.

(** The characters PCRE gives a meaning to outside a character class. *)
Definition isMeta (c : ascii) : bool :=
  existsb (Ascii.eqb c)
    ["\"; "^"; "$"; "."; "|"; "?"; "*"; "+"; "("; ")"; "["; "]"; "{"; "}"]%char.

Fixpoint parse (p : string) : option (list Atom) :=
  match p with
  | EmptyString => Some []
  | String c rest =>
      if Ascii.eqb c "\"%char then
        match rest with
        | EmptyString => None
        | String e rest' =>
            if isAlnum e then None
            else option_map (cons (Lit e)) (parse rest')
        end
      else if Ascii.eqb c "."%char then option_map (cons AnyChar) (parse rest)
      else if isMeta c then None
      else option_map (cons (Lit c)) (parse rest)
  end.

(** ASCII case folding, the effect of the option [i]. *)
Definition toLower (c : ascii) : ascii :=
  let n := nat_of_ascii c in
  if (Nat.leb 65 n && Nat.leb n 90)%bool then ascii_of_nat (n + 32) else c.

Definition atomMatches (ci : bool) (a : Atom) (c : ascii) : bool :=
  match a with
  | Lit l => if ci then Ascii.eqb (toLower l) (toLower c) else Ascii.eqb l c
  | AnyChar => negb (Ascii.eqb c (ascii_of_nat 10))
  end.

(** The pattern matches a prefix of the subject. *)
Fixpoint matchHere (ci : bool) (atoms : list Atom) (s : string) : bool :=
  match atoms with
  | [] => true
  | a :: atoms' =>
      match s with
      | EmptyString => false
      | String c s' => (atomMatches ci a c && matchHere ci atoms' s')%bool
      end
  end.

(** The pattern matches somewhere in the subject: [$regex] is unanchored. *)
Fixpoint search (ci : bool) (atoms : list Atom) (s : string) : bool :=
  (matchHere ci atoms s
   || match s with
      | EmptyString => false
      | String _ s' => search ci atoms s'
      end)%bool.

Definition hasOption (o : ascii) (options : string) : bool :=
  existsb (Ascii.eqb o) (list_ascii_of_string options).

End Regex.

(** Case-insensitive substring containment, the reading the spec gives of
    the search: [needle] occurs in [hay] up to ASCII case. *)
Fixpoint prefixCI (needle hay : string) : bool :=
  match needle with
  | EmptyString => true
  | String n needle' =>
      match hay with
      | EmptyString => false
      | String h hay' =>
          (Ascii.eqb (Regex.toLower n) (Regex.toLower h) && prefixCI needle' hay')%bool
      end
  end.

Fixpoint containsCI (needle hay : string) : bool :=
  (prefixCI needle hay
   || match hay with
      | EmptyString => false
      | String _ hay' => containsCI needle hay'
      end)%bool.

(** ** What a handler answers *)

(** The projection [{ messageType: 1, content: 1 }] of a message ([_id] is
    kept by [$project] unless it is excluded). *)
Module MessageSummary.
Record t : Type := mk
  { _id : Id;
    messageType : string;
    content : string }.
End MessageSummary.

(** The projection of a group chat that [searchGroupChat] returns. *)
Module GroupSummary.
Record t : Type := mk
  { _id : Id;
    chatType : ChatType;
    groupName : string;
    groupIcon : option string }.
End GroupSummary.

(** A chat as [createOneToOneChat] returns it: the document of a new chat,
    or a stored document whose [lastMessageId] the [$lookup] stage has
    overwritten with the array of matching message summaries. *)
Inductive ChatData : Type :=
| NewChat (doc : Chat.t)
| StoredChat (doc : Chat.t) (lastMessageId : list MessageSummary.t).

Definition chatDoc (d : ChatData) : Chat.t :=
  match d with
  | NewChat doc => doc
  | StoredChat doc _ => doc
  end.

(** A chat as [getAllChats] returns it, with the unwound [lastMessage]. *)
Module ChatListItem.
Record t : Type := mk
  { doc : Chat.t;
    lastMessage : option MessageSummary.t }.
End ChatListItem.

Inductive Payload : Type :=
| NoData
| ChatPayload (chatData : ChatData) (participants : list User.t)
| GroupSearchPayload (groupChats : list GroupSummary.t)
                     (totalGroupChats : nat) (hasMore : bool)
| ChatListPayload (chats : list ChatListItem.t) (totalChats : nat)
                  (hasMore : bool) (participants : list User.t).

(** Modelled from the spec: [utils/ApiResponse.js] and [utils/ApiError.js]
    are absent; a response carries the status, a message and the payload, an
    error the status and a message, as the controller constructs them. *)
Record ApiResponse : Type := mkApiResponse
  { res_statusCode : StatusCode;
    res_message : string;
    res_data : Payload }.

Record ApiError : Type := mkApiError
  { err_statusCode : StatusCode;
    err_message : string }.

(** Errors raised by the driver rather than by the handler. *)
Inductive StoreError : Type :=
| CastError          (* the id cannot be cast to an ObjectId *)
| MongoServerError.  (* the server rejects the pipeline *)

(** The three ways a handler ends: [res.status(s).json(body)],
    [next(new ApiError(..))], or a promise rejected by the driver, which is
    left to [asyncHandler] ([utils/asyncHandler.js], absent as well). *)
Inductive Outcome : Type :=
| Json (status : StatusCode) (body : ApiResponse)
| Next (err : ApiError)
| Rejected (e : StoreError).

Definition respond (s : StatusCode) (msg : string) (data : Payload) : Outcome :=
  Json s (mkApiResponse s msg data).

Definition fail (s : StatusCode) (msg : string) : Outcome :=
  Next (mkApiError s msg).

(** The error taxonomy of the spec, read on the status code a failure
    carries: a malformed or missing input is a bad request, a missing user or
    chat is not found, an authorization failure is unauthorized, a failed
    write is an internal error. *)
Inductive ErrorClass : Type :=
| ValidationError
| NotFound
| Forbidden
| Conflict
| InternalError.

Definition errorClass (s : StatusCode) : option ErrorClass :=
  match s with
  | BAD_REQUEST => Some ValidationError
  | NOT_FOUND => Some NotFound
  | UNAUTHORIZED => Some Forbidden
  | INTERNAL_SERVER_ERROR => Some InternalError
  | OK | CREATED => None
  end.

Definition failsWith (cls : ErrorClass) (o : Outcome) : Prop :=
  exists e, o = Next e /\ errorClass (err_statusCode e) = Some cls.

(** What the environment supplies to a request: the authenticated user the
    middleware put in [req.user], and the ObjectId the driver generates for a
    document created while the request is served. *)
Record Req : Type := mkReq
  { user : User.t;
    newId : Id }.

(** ** Sample data *)

Module Sample.

Definition isHex (c : ascii) : bool :=
  let n := nat_of_ascii c in
  ((Nat.leb 48 n && Nat.leb n 57)
   || (Nat.leb 65 n && Nat.leb n 70)
   || (Nat.leb 97 n && Nat.leb n 102))%bool.

(** An id validator: exactly 24 hexadecimal digits. *)
Definition hex24 (s : string) : bool :=
  (Nat.eqb (String.length s) 24
   && forallb isHex (list_ascii_of_string s))%bool.

Fixpoint digits (s : string) (acc : Z) : JsNumber :=
  match s with
  | EmptyString => Num acc
  | String c rest =>
      let n := nat_of_ascii c in
      if (Nat.leb 48 n && Nat.leb n 57)%bool
      then digits rest (10 * acc + Z.of_nat (n - 48))
      else NaN
  end.

(** A string-to-number conversion for unsigned decimal numerals. *)
Definition decimal (s : string) : JsNumber := digits s 0.

(** An engine that rejects every pattern outside the interpreted fragment. *)
Definition noEngine (pattern options : string) : option (string -> bool) := None.

Definition idA : Id := "64b7f0a1c2d3e4f506172801".
Definition idB : Id := "64b7f0a1c2d3e4f506172802".
Definition idC : Id := "64b7f0a1c2d3e4f506172803".
Definition idTeam : Id := "64b7f0a1c2d3e4f5061729aa".
Definition idDuo : Id := "64b7f0a1c2d3e4f5061729bb".
Definition idSolo : Id := "64b7f0a1c2d3e4f5061729cc".
Definition idNew : Id := "64b7f0a1c2d3e4f5061729ff".

Definition alice : User.t := User.mk idA "Alice" "alice.png" "hi".
Definition bob : User.t := User.mk idB "Bob" "bob.png" "yo".
Definition carol : User.t := User.mk idC "Carol" "carol.png" "hey".

(** The group of the spec's scenario: participants [A, B, C], admins [A]. *)
Definition team : Chat.t :=
  Chat.mk idTeam group [idA; idB; idC] [idA] "Team" None None 7.

Definition duo : Chat.t :=
  Chat.mk idDuo one_to_one [idA; idB] [] EmptyString None None 5.

Definition solo : Chat.t :=
  Chat.mk idSolo group [idC] [idC] "Solo" None None 3.

Definition db : DB :=
  mkDB [alice; bob; carol]
       [Friendship.mk idA idB "accepted"; Friendship.mk idA idC "pending"]
       [team; duo; solo]
       [].

(** Bob and Carol are both accepted friends of Alice. *)
Definition dbFriends : DB :=
  mkDB [alice; bob; carol]
       [Friendship.mk idA idB "accepted"; Friendship.mk idA idC "accepted"]
       []
       [].

Definition asAlice : Req := mkReq alice idNew.
Definition asBob : Req := mkReq bob idNew.
Definition asCarol : Req := mkReq carol idNew.

End Sample.

(** Further sample data: Carol's group in a store where she and Alice are
    accepted friends, a group that has an icon, and an upload that
    succeeds. *)
Module MoreSamples.

Definition dbSolo : DB :=
  mkDB [Sample.alice; Sample.bob; Sample.carol]
       [Friendship.mk Sample.idA Sample.idB "accepted";
        Friendship.mk Sample.idA Sample.idC "accepted"]
       [Sample.solo]
       [].

Definition teamWithIcon : Chat.t :=
  Chat.mk Sample.idTeam group [Sample.idA; Sample.idB; Sample.idC] [Sample.idA]
          "Team" (Some "chat-icons/old") None 7.

Definition dbIcon : DB :=
  mkDB [Sample.alice; Sample.bob; Sample.carol] [] [teamWithIcon] [].

Definition upload (localPath folder : string) : option string :=
  Some "chat-icons/new".





End MoreSamples.

(** ** Store access *)

(** A query either throws in the driver or yields its result. *)
Inductive Query (A : Type) : Type :=
| Threw (e : StoreError)
| Got (x : A).

Arguments Threw {A} e.
Arguments Got {A} x.

(** What [utilityForGroupAction] resolves to. *)
Inductive GroupAction : Type :=
| ActionThrew (e : StoreError)
| ActionFailure (message : string) (statusCode : StatusCode)
| ActionSuccess (groupChat : Chat.t).

Definition idIn (x : Id) (ids : list Id) : bool := existsb (String.eqb x) ids.

Fixpoint idsEqb (a b : list Id) : bool :=
  match a, b with
  | [], [] => true
  | x :: a', y :: b' => (String.eqb x y && idsEqb a' b')%bool
  | _, _ => false
  end.

(** [User.find({ _id: { $in: ids } })].  The ids of a query are compared as
    they are written, here and in the two friendship queries below: the cast
    Mongoose applies first leaves an id in canonical form as it is. *)
Definition User_find (db : DB) (ids : list Id) : list User.t :=
  filter (fun u => idIn (User._id u) ids) (users db).

(** [Friendship.findOne({ userOneId, userTwoId, status })]. *)
Definition Friendship_findOne (db : DB) (one two : Id) (st : string)
  : option Friendship.t :=
  find (fun f => (String.eqb (Friendship.userOneId f) one
                  && String.eqb (Friendship.userTwoId f) two
                  && String.eqb (Friendship.status f) st)%bool)
       (friendships db).

Definition pairMatches (f : Friendship.t) (p : Id * Id) : bool :=
  (String.eqb (Friendship.userOneId f) (fst p)
   && String.eqb (Friendship.userTwoId f) (snd p))%bool.

(** [Friendship.find({ $or: pairs, status })]. *)
Definition Friendship_find (db : DB) (pairs : list (Id * Id)) (st : string)
  : list Friendship.t :=
  filter (fun f => (existsb (pairMatches f) pairs
                    && String.eqb (Friendship.status f) st)%bool)
         (friendships db).

(** [Chat.create(doc)]: the document is appended to the collection.  The
    driver reports a failed write by throwing, so the document returned is
    never falsy.  The time stamps the schema adds are not modelled:
    [updatedAt] is kept as the document gives it. *)
Definition Chat_create (db : DB) (doc : Chat.t) : option Chat.t * DB :=
  (Some doc, set_chats db (chats db ++ [doc])).

Fixpoint replaceById (doc : Chat.t) (cs : list Chat.t) : list Chat.t :=
  match cs with
  | [] => []
  | d :: rest =>
      if String.eqb (Chat._id d) (Chat._id doc) then doc :: rest
      else d :: replaceById doc rest
  end.

(** [doc.save()]: the stored document with the id of [doc] becomes [doc].
    The time stamp Mongoose writes to [updatedAt] is not modelled, the field
    is left as read; [sameButMembersAndStamp] and [sameButStamp] compare
    chats without that field. *)
Definition save (db : DB) (doc : Chat.t) : DB :=
  set_chats db (replaceById doc (chats db)).

(** The stages [$lookup] of the messages collection on [lastMessageId]. *)
Definition summary (m : Message.t) : MessageSummary.t :=
  MessageSummary.mk (Message._id m) (Message.messageType m) (Message.content m).

Definition lookupLastMessage (db : DB) (c : Chat.t) : list MessageSummary.t :=
  match Chat.lastMessageId c with
  | None => []
  | Some mid =>
      map summary (filter (fun m => String.eqb (Message._id m) mid) (messages db))
  end.

(** [$unwind] with [preserveNullAndEmptyArrays]. *)
Definition unwindLastMessage (db : DB) (c : Chat.t) : list ChatListItem.t :=
  match lookupLastMessage db c with
  | [] => [ChatListItem.mk c None]
  | ms => map (fun m => ChatListItem.mk c (Some m)) ms
  end.

Definition project (c : Chat.t) : GroupSummary.t :=
  GroupSummary.mk (Chat._id c) (Chat.chatType c) (Chat.groupName c) (Chat.groupIcon c).

(** [$sort: { updatedAt: -1 }]. *)
Fixpoint insertDesc (c : Chat.t) (cs : list Chat.t) : list Chat.t :=
  match cs with
  | [] => [c]
  | d :: rest =>
      if Nat.leb (Chat.updatedAt d) (Chat.updatedAt c) then c :: cs
      else d :: insertDesc c rest
  end.

Definition sortByUpdatedAtDesc (cs : list Chat.t) : list Chat.t :=
  fold_right insertDesc [] cs.

(** The number of documents a [$skip] or [$limit] stage is given. *)
Definition stageCount (n : JsNumber) : nat :=
  match n with
  | Num z => Z.to_nat z
  | NaN => 0
  end.

(** [$count]: no document at all when nothing reaches the stage. *)
Definition countStage (A : Type) (docs : list A) : list nat :=
  match docs with
  | [] => []
  | _ => [List.length docs]
  end.

(** [total[0] ? total[0].count : 0]. *)
Definition totalOf (total : list nat) : nat :=
  match total with
  | [] => 0
  | count :: _ => count
  end.

(** ** The handlers *)

Section Controller.

(** Three functions of the platform stay parameters: Mongoose's
    [isValidObjectId] on strings (Mongoose documents it as "can be cast to
    an ObjectId"), the conversion of a string to a number, and the regular
    expression engine of the server on the patterns that [Regex.parse] does
    not interpret ([None] for a pattern the server rejects). *)
Variable isValidObjectId : string -> bool.
Variable StringToNumber : string -> JsNumber.
Variable pcre : string -> string -> option (string -> bool).

(** [Model.findById(id)]: a string that cannot be cast to an ObjectId makes
    the query throw; one that can is compared as it is written, which is
    the comparison Mongoose makes for an id in canonical form. *)
Definition findById (A : Type) (key : A -> Id) (coll : list A) (id : Id)
  : Query (option A) :=
  if isValidObjectId id
  then Got (find (fun d => String.eqb (key d) id) coll)
  else Threw CastError.

Definition User_findById (db : DB) (id : Id) : Query (option User.t) :=
  findById User._id (users db) id.

Definition Chat_findById (db : DB) (id : Id) : Query (option Chat.t) :=
  findById Chat._id (chats db) id.

Definition ToNumber (v : JsValue) : JsNumber :=
  match v with
  | JsUndefined => NaN
  | JsNull => Num 0
  | JsBool b => Num (if b then 1 else 0)
  | JsNum n => n
  | JsString s => StringToNumber s
  end.

Definition isNaN (v : JsValue) : bool :=
  match ToNumber v with
  | NaN => true
  | Num _ => false
  end.

Definition Number (v : JsValue) : JsNumber := ToNumber v.

(** [page = isNaN(page) ? 1 : Number(page); if (page < 1) page = 1;] *)
Definition pageNumber (raw : JsValue) : JsNumber :=
  let page := if isNaN raw then Num 1 else Number raw in
  if js_lt page (Num 1) then Num 1 else page.

Definition compileRegex (pattern options : string) : option (string -> bool) :=
  match Regex.parse pattern with
  | Some atoms => Some (Regex.search (Regex.hasOption "i"%char options) atoms)
  | None => pcre pattern options
  end.

(** The first stage of the pipeline in [createOneToOneChat]: the chats of
    type one-to-one whose [participants] array is the given pair, each with
    its [$lookup]. *)
Definition matchOneToOne (db : DB) (smallerId biggerId : Id) : list ChatData :=
  map (fun c => StoredChat c (lookupLastMessage db c))
      (filter (fun c => (ChatType_eqb (Chat.chatType c) one_to_one
                         && idsEqb (Chat.participants c) [smallerId; biggerId])%bool)
              (chats db)).

Definition createOneToOneChat (db : DB) (req : Req) (userId : string)
  : Outcome * DB :=
  if (String.eqb userId EmptyString || negb (isValidObjectId userId))%bool
  then (fail BAD_REQUEST "Invalid user id", db)
  else
    match User_findById db userId with
    | Threw e => (Rejected e, db)
    | Got None => (fail NOT_FOUND "User not found", db)
    | Got (Some target) =>
        let '(smallerId, biggerId) :=
          sortUserIds (User._id (user req)) (User._id target) in
        let chat := matchOneToOne db smallerId biggerId in
        let participants := [user req; target] in
        match chat with
        | chatData :: _ =>
            (respond OK "Chat already exists" (ChatPayload chatData participants), db)
        | [] =>
            match Friendship_findOne db smallerId biggerId "accepted" with
            | None => (fail BAD_REQUEST "You can only chat with friends", db)
            | Some _ =>
                match Chat_create db
                        (Chat.mk (newId req) one_to_one [smallerId; biggerId] []
                                 EmptyString None None 0) with
                | (None, db') => (fail INTERNAL_SERVER_ERROR "Something went wrong", db')
                | (Some newChat, db') =>
                    (respond CREATED "Chat created"
                             (ChatPayload (NewChat newChat) participants), db')
                end
            end
        end
    end.

(** [participants] is [None] when the field is absent or not an array. *)
Definition createGroupChat (db : DB) (req : Req)
           (participants : option (list Id)) (groupName : string)
  : Outcome * DB :=
  let loggedInUserId := User._id (user req) in
  if blank groupName then (fail BAD_REQUEST "Group name is required", db)
  else
    match participants with
    | None =>
        (fail BAD_REQUEST "participants is required and should be more than 1", db)
    | Some participants =>
        if Nat.ltb (List.length participants) 2
        then (fail BAD_REQUEST "participants is required and should be more than 1", db)
        else
          let validParticipantsIds := filter isValidObjectId participants in
          if negb (Nat.eqb (List.length participants) (List.length validParticipantsIds))
          then (fail BAD_REQUEST "Some participants are invalid", db)
          else
            let users := User_find db validParticipantsIds in
            if negb (Nat.eqb (List.length users) (List.length validParticipantsIds))
            then (fail BAD_REQUEST "Some user do not exists", db)
            else
              let friendShipPairs :=
                map (fun pId => if String.ltb pId loggedInUserId
                                then (pId, loggedInUserId)
                                else (loggedInUserId, pId))
                    validParticipantsIds in
              let friendShips := Friendship_find db friendShipPairs "accepted" in
              if negb (Nat.eqb (List.length friendShips) (List.length validParticipantsIds))
              then (fail BAD_REQUEST "You can only add friends to the group", db)
              else
                let validParticipantsIds :=
                  JsArray.push validParticipantsIds loggedInUserId in
                match Chat_create db
                        (Chat.mk (newId req) group validParticipantsIds
                                 [loggedInUserId] groupName None None 0) with
                | (None, db') => (fail INTERNAL_SERVER_ERROR "Something went wrong", db')
                | (Some groupChat, db') =>
                    (respond CREATED "Group chat created"
                             (ChatPayload (NewChat groupChat) (users ++ [user req])), db')
                end
    end.

Definition updateGroupName (db : DB) (req : Req) (groupName groupId : string)
  : Outcome * DB :=
  if blank groupName then (fail BAD_REQUEST "Group name is required", db)
  else
    let isValidId := isValidObjectId groupId in
    if negb isValidId then (fail BAD_REQUEST "Invalid group id", db)
    else
      match Chat_findById db groupId with
      | Threw e => (Rejected e, db)
      | Got None => (fail NOT_FOUND "Group chat not found", db)
      | Got (Some groupChat) =>
          if negb (ChatType_eqb (Chat.chatType groupChat) group)
          then (fail NOT_FOUND "Group chat not found", db)
          else
            let isAdmin := JsArray.includes (Chat.admins groupChat) (User._id (user req)) in
            if negb isAdmin
            then (fail UNAUTHORIZED "Only admins can change group name", db)
            else
              let groupChat := Chat.set_groupName groupChat groupName in
              (respond OK "Group name updated" NoData, save db groupChat)
      end.

Definition utilityForGroupAction (db : DB) (groupId participantId loggedInUserId : string)
  : GroupAction :=
  let ids := [groupId; participantId] in
  if existsb blank ids
  then ActionFailure "All fields are required" BAD_REQUEST
  else if existsb (fun id => negb (isValidObjectId id)) ids
  then ActionFailure "Invalid ids" BAD_REQUEST
  else
    match Chat_findById db groupId with
    | Threw e => ActionThrew e
    | Got None => ActionFailure "Group chat not found" NOT_FOUND
    | Got (Some groupChat) =>
        if negb (ChatType_eqb (Chat.chatType groupChat) group)
        then ActionFailure "Group chat not found" NOT_FOUND
        else
          let isAdmin := JsArray.includes (Chat.admins groupChat) loggedInUserId in
          if negb isAdmin
          then ActionFailure "Only admins can perform this action" UNAUTHORIZED
          else ActionSuccess groupChat
    end.

Definition addParticipant (db : DB) (req : Req) (groupId participantId : string)
  : Outcome * DB :=
  let loggedInUserId := User._id (user req) in
  match utilityForGroupAction db groupId participantId loggedInUserId with
  | ActionThrew e => (Rejected e, db)
  | ActionFailure message statusCode => (fail statusCode message, db)
  | ActionSuccess groupChat =>
      if JsArray.includes (Chat.participants groupChat) participantId
      then (fail BAD_REQUEST "This user is already in the group", db)
      else
        let '(smallerId, biggerId) := sortUserIds loggedInUserId participantId in
        match Friendship_findOne db smallerId biggerId "accepted" with
        | None => (fail BAD_REQUEST "You can only add your friends to the group", db)
        | Some _ =>
            let groupChat :=
              Chat.set_participants groupChat
                (JsArray.push (Chat.participants groupChat) participantId) in
            (respond OK "User added to group" NoData, save db groupChat)
        end
  end.

Definition removeParticipant (db : DB) (req : Req) (groupId participantId : string)
  : Outcome * DB :=
  let loggedInUserId := User._id (user req) in
  match utilityForGroupAction db groupId participantId loggedInUserId with
  | ActionThrew e => (Rejected e, db)
  | ActionFailure message statusCode => (fail statusCode message, db)
  | ActionSuccess groupChat =>
      if String.eqb loggedInUserId participantId
      then (fail BAD_REQUEST "You can't remove yourself, try leaving the group", db)
      else
        let pIdx := JsArray.indexOf (Chat.participants groupChat) participantId in
        if (pIdx =? -1)%Z
        then (fail BAD_REQUEST "This user is not in the group", db)
        else
          let groupChat :=
            Chat.set_participants groupChat
              (JsArray.splice (Chat.participants groupChat) pIdx 1) in
          let aIdx := JsArray.indexOf (Chat.admins groupChat) participantId in
          let groupChat :=
            if negb (aIdx =? -1)%Z
            then Chat.set_admins groupChat (JsArray.splice (Chat.admins groupChat) aIdx 1)
            else groupChat in
          (respond OK "User removed from group" NoData, save db groupChat)
  end.

Definition toggleAdmin (db : DB) (req : Req) (groupId participantId : string)
  : Outcome * DB :=
  let loggedInUserId := User._id (user req) in
  match utilityForGroupAction db groupId participantId loggedInUserId with
  | ActionThrew e => (Rejected e, db)
  | ActionFailure message statusCode => (fail statusCode message, db)
  | ActionSuccess groupChat =>
      let pIdx := JsArray.indexOf (Chat.participants groupChat) participantId in
      if (pIdx =? -1)%Z
      then (fail BAD_REQUEST "This user is not in the group", db)
      else
        let aIdx := JsArray.indexOf (Chat.admins groupChat) participantId in
        let '(groupChat, responseMessage) :=
          if (aIdx =? -1)%Z
          then (Chat.set_admins groupChat
                  (JsArray.push (Chat.admins groupChat) participantId),
                "User marked as admin")
          else (Chat.set_admins groupChat
                  (JsArray.splice (Chat.admins groupChat) aIdx 1),
                "Admin removed") in
        (respond OK responseMessage NoData, save db groupChat)
  end.

Definition leaveGroup (db : DB) (req : Req) (groupId : string) : Outcome * DB :=
  let loggedInUserId := User._id (user req) in
  if blank groupId then (fail BAD_REQUEST "Please provide group id", db)
  else
    match Chat_findById db groupId with
    | Threw e => (Rejected e, db)
    | Got None => (fail NOT_FOUND "Group chat not found", db)
    | Got (Some groupChat) =>
        if negb (ChatType_eqb (Chat.chatType groupChat) group)
        then (fail NOT_FOUND "Group chat not found", db)
        else
          let pIdx := JsArray.indexOf (Chat.participants groupChat) loggedInUserId in
          if (pIdx =? -1)%Z
          then (fail BAD_REQUEST "You are not in the group", db)
          else
            let groupChat :=
              Chat.set_participants groupChat
                (JsArray.splice (Chat.participants groupChat) pIdx 1) in
            if Nat.eqb (List.length (Chat.participants groupChat)) 0
            then (respond OK "You left the group" NoData, db)
            else
              let aIdx := JsArray.indexOf (Chat.admins groupChat) loggedInUserId in
              let groupChat :=
                if negb (aIdx =? -1)%Z
                then Chat.set_admins groupChat
                       (JsArray.splice (Chat.admins groupChat) aIdx 1)
                else groupChat in
              let groupChat :=
                if (negb (aIdx =? -1)%Z
                    && Nat.eqb (List.length (Chat.admins groupChat)) 0)%bool
                then
                  match JsArray.at0 (Chat.participants groupChat) with
                  | Some first =>
                      Chat.set_admins groupChat
                        (JsArray.push (Chat.admins groupChat) first)
                  | None => groupChat
                  end
                else groupChat in
              (respond OK "You left the group" NoData, save db groupChat)
    end.

Definition searchGroupChat (db : DB) (req : Req) (search : string) (page : JsValue)
  : Outcome * DB :=
  if blank search then (fail BAD_REQUEST "Please provide a search query", db)
  else
    let page := pageNumber page in
    let limit := Num 50 in
    let loggedInUserId := User._id (user req) in
    match compileRegex search "i" with
    | None => (Rejected MongoServerError, db)
    | Some regex =>
        let matched :=
          filter (fun c => (ChatType_eqb (Chat.chatType c) group
                            && idIn loggedInUserId (Chat.participants c)
                            && regex (Chat.groupName c))%bool)
                 (chats db) in
        let data :=
          map project
              (firstn (stageCount limit)
                      (skipn (stageCount (js_mul (js_sub page (Num 1)) limit)) matched)) in
        let total := countStage matched in
        let groupChatsData := data in
        let totalGroupChats := totalOf total in
        let hasMore := js_lt (js_mul page limit) (Num (Z.of_nat totalGroupChats)) in
        (respond OK "Search in groups success"
                 (GroupSearchPayload groupChatsData totalGroupChats hasMore), db)
    end.

Definition getAllChats (db : DB) (req : Req) (queryPage : JsValue) : Outcome * DB :=
  let loggedInUserId := User._id (user req) in
  let page := pageNumber queryPage in
  let limit := Num 50 in
  let matched :=
    sortByUpdatedAtDesc
      (filter (fun c => idIn loggedInUserId (Chat.participants c)) (chats db)) in
  let data :=
    flat_map (unwindLastMessage db)
             (firstn (stageCount limit)
                     (skipn (stageCount (js_mul (js_sub page (Num 1)) limit)) matched)) in
  let total := countStage matched in
  let chatsData := data in
  let totalChats := totalOf total in
  let hasMore := js_lt (js_mul page limit) (Num (Z.of_nat totalChats)) in
  let allUniqueParticipantsIds :=
    flat_map (fun chat => Chat.participants (ChatListItem.doc chat)) chatsData in
  let participants := User_find db allUniqueParticipantsIds in
  (respond OK "Get all chats success"
           (ChatListPayload chatsData totalChats hasMore participants), db).

(** ** Vocabulary of the statements *)

(** The array without the first occurrence of [x]. *)
Fixpoint removeFirst (x : Id) (arr : list Id) : list Id :=
  match arr with
  | [] => []
  | y :: rest => if String.eqb x y then rest else y :: removeFirst x rest
  end.

(** The stored chat with a given id. *)
Definition stored (db : DB) (id : Id) : option Chat.t :=
  find (fun d => String.eqb (Chat._id d) id) (chats db).

(** Every id the store holds is a well-formed ObjectId. *)
Definition wfId (id : Id) : bool :=
  (negb (blank id) && isValidObjectId id)%bool.

Definition wfChat (c : Chat.t) : bool :=
  (wfId (Chat._id c)
   && forallb wfId (Chat.participants c)
   && forallb wfId (Chat.admins c))%bool.

Definition wfStore (db : DB) : bool :=
  (forallb (fun u => wfId (User._id u)) (users db)
   && forallb wfChat (chats db))%bool.

(** An accepted friendship between two users, in either order. *)
Definition friends (db : DB) (a b : Id) : Prop :=
  exists f, In f (friendships db)
            /\ Friendship.status f = "accepted"
            /\ ((Friendship.userOneId f = a /\ Friendship.userTwoId f = b)
                \/ (Friendship.userOneId f = b /\ Friendship.userTwoId f = a)).

Definition friendshipKey (f : Friendship.t) : Id * Id :=
  (Friendship.userOneId f, Friendship.userTwoId f).

(** The admin list [leaveGroup] saves when [first] heads the remaining
    participants. *)
Definition adminsAfterLeave (actor first : Id) (admins : list Id) : list Id :=
  if JsArray.includes admins actor
  then match removeFirst actor admins with
       | [] => [first]
       | adm => adm
       end
  else admins.

Definition adminsAfterToggle (target : Id) (admins : list Id) : list Id :=
  if JsArray.includes admins target
  then removeFirst target admins
  else JsArray.push admins target.

Inductive GroupOp : Type :=
| OpAddParticipant (req : Req) (groupId participantId : string)
| OpRemoveParticipant (req : Req) (groupId participantId : string)
| OpToggleAdmin (req : Req) (groupId participantId : string)
| OpLeaveGroup (req : Req) (groupId : string).

Definition applyOp (db : DB) (op : GroupOp) : DB :=
  match op with
  | OpAddParticipant req g p => snd (addParticipant db req g p)
  | OpRemoveParticipant req g p => snd (removeParticipant db req g p)
  | OpToggleAdmin req g p => snd (toggleAdmin db req g p)
  | OpLeaveGroup req g => snd (leaveGroup db req g)
  end.

Definition applyOps (db : DB) (ops : list GroupOp) : DB :=
  fold_left applyOp ops db.

(** Every stored group has an admin. *)
Definition everyGroupHasAdmin (db : DB) : Prop :=
  forall g c, stored db g = Some c -> Chat.chatType c = group -> Chat.admins c <> [].

(** An operation that is not the demotion of the only admin of its group. *)
Definition keepsLastAdmin (db : DB) (op : GroupOp) : Prop :=
  match op with
  | OpToggleAdmin _ g p => forall c, stored db g = Some c -> Chat.admins c <> [p]
  | _ => True
  end.

Fixpoint keepLastAdmin (db : DB) (ops : list GroupOp) : Prop :=
  match ops with
  | [] => True
  | op :: rest => keepsLastAdmin db op /\ keepLastAdmin (applyOp db op) rest
  end.

(** The document [createOneToOneChat] hands to [Chat.create]. *)
Definition newOneToOne (req : Req) (targetId : Id) : Chat.t :=
  Chat.mk (newId req) one_to_one
          [fst (sortUserIds (User._id (user req)) targetId);
           snd (sortUserIds (User._id (user req)) targetId)]
          [] EmptyString None None 0.

(** The stored user with a given id. *)
Definition storedUser (db : DB) (id : Id) : option User.t :=
  find (fun u => String.eqb (User._id u) id) (users db).

(** A stored one-to-one chat whose participants are exactly the pair. *)
Definition oneToOneFor (db : DB) (smallerId biggerId : Id) (c : Chat.t) : Prop :=
  In c (chats db)
  /\ Chat.chatType c = one_to_one
  /\ Chat.participants c = [smallerId; biggerId].

(** The one-to-one chat of two users: the key is their sorted pair. *)
Definition oneToOneBetween (db : DB) (a b : Id) (c : Chat.t) : Prop :=
  oneToOneFor db (fst (sortUserIds a b)) (snd (sortUserIds a b)) c.

(** The requested page is not a number, or is a number below one. *)
Definition belowOne (raw : JsValue) : Prop :=
  ToNumber raw = NaN \/ exists z, ToNumber raw = Num z /\ (z < 1)%Z.

(** The group chats of a user that the compiled expression accepts. *)
Definition searchMatches (db : DB) (actor : Id) (regex : string -> bool) : list Chat.t :=
  filter (fun c => (ChatType_eqb (Chat.chatType c) group
                    && idIn actor (Chat.participants c)
                    && regex (Chat.groupName c))%bool)
         (chats db).


(** The group chats of a user whose name contains the query, up to case. *)
Definition substringMatches (db : DB) (actor : Id) (query : string) : list Chat.t :=
  filter (fun c => (ChatType_eqb (Chat.chatType c) group
                    && idIn actor (Chat.participants c)
                    && containsCI query (Chat.groupName c))%bool)
         (chats db).

Definition plain (query : string) : bool :=
  forallb (fun c => negb (Regex.isMeta c)) (list_ascii_of_string query).

(** ** [updateGroupIcon]

    The blob store is reached through [utils/cloudinary.js], which is not
    part of the sources.  An upload is a parameter: the icon it yields for a
    local file and a folder, or [None] when it fails.  An icon is kept as
    the string of its [publicId], the one field the controller reads; the
    calls made to the blob store are recorded in the order they are made. *)

Variable uploadOnCloudinary : string -> string -> option string.
Variable CLN_CHATICON_FOLDER : string.

Inductive CloudCall : Type :=
| UploadCall (localPath folder : string)
| DeleteCall (publicId : string).

(** How [updateGroupIcon] ends; a success carries the uploaded icon. *)
Inductive IconOutcome : Type :=
| IconJson (status : StatusCode) (message : string) (response : string)
| IconNext (err : ApiError)
| IconRejected (e : StoreError).

(** [if (previousGroupIconId) await deleteFromCloudinary(previousGroupIconId)]:
    no previous icon, or one whose [publicId] is the empty string, leaves
    nothing to delete. *)
Definition deletePrevious (previousGroupIconId : option string) : list CloudCall :=
  match previousGroupIconId with
  | Some previous =>
      if String.eqb previous EmptyString then [] else [DeleteCall previous]
  | None => []
  end.

Definition setGroupIcon (c : Chat.t) (icon : option string) : Chat.t :=
  Chat.mk (Chat._id c) (Chat.chatType c) (Chat.participants c) (Chat.admins c)
          (Chat.groupName c) icon (Chat.lastMessageId c) (Chat.updatedAt c).

(** [file] is the local path of [req.file], [None] when no file came. *)
Definition updateGroupIcon (db : DB) (req : Req) (groupId : string) (file : option string)
  : IconOutcome * DB * list CloudCall :=
  let loggedInUserId := User._id (user req) in
  if blank groupId
  then (IconNext (mkApiError BAD_REQUEST "Please provide group id"), db, [])
  else
    match Chat_findById db groupId with
    | Threw e => (IconRejected e, db, [])
    | Got None => (IconNext (mkApiError NOT_FOUND "Group chat not found"), db, [])
    | Got (Some groupChat) =>
        if negb (ChatType_eqb (Chat.chatType groupChat) group)
        then (IconNext (mkApiError NOT_FOUND "Group chat not found"), db, [])
        else if negb (JsArray.includes (Chat.admins groupChat) loggedInUserId)
        then (IconNext (mkApiError BAD_REQUEST "Only admins can update group icon"), db, [])
        else
          match file with
          | None =>
              (IconNext (mkApiError BAD_REQUEST "Please provide a group icon"), db, [])
          | Some picLocalPath =>
              let previousGroupIconId := Chat.groupIcon groupChat in
              let response := uploadOnCloudinary picLocalPath CLN_CHATICON_FOLDER in
              let calls := [UploadCall picLocalPath CLN_CHATICON_FOLDER] in
              match response with
              | None =>
                  (IconNext (mkApiError BAD_REQUEST "Failed to upload profile picture"),
                   db, calls)
              | Some response =>
                  let groupChat := setGroupIcon groupChat (Some response) in
                  let db' := save db groupChat in
                  let calls := calls ++ deletePrevious previousGroupIconId in
                  (IconJson OK "Profile picture uploaded" response, db', calls)
              end
          end
    end.

(** ** Vocabulary of the further statements *)

(** The group an operation is addressed to. *)
Definition opGroup (op : GroupOp) : Id :=
  match op with
  | OpAddParticipant _ g _ => g
  | OpRemoveParticipant _ g _ => g
  | OpToggleAdmin _ g _ => g
  | OpLeaveGroup _ g => g
  end.

(** A request either fails and leaves the store alone, or is answered OK on
    behalf of an admin of the stored group. *)
Definition adminOnly (db : DB) (gid actor : Id) (r : Outcome * DB) : Prop :=
  (exists e, r = (Next e, db))
  \/ (exists c msg db',
        stored db gid = Some c
        /\ Chat.chatType c = group
        /\ In actor (Chat.admins c)
        /\ r = (respond OK msg NoData, db')).

(** Two chats that differ at most in their participants and admins. *)
Definition sameButMembers (c saved : Chat.t) : Prop :=
  Chat._id saved = Chat._id c
  /\ Chat.chatType saved = Chat.chatType c
  /\ Chat.groupName saved = Chat.groupName c
  /\ Chat.groupIcon saved = Chat.groupIcon c
  /\ Chat.lastMessageId saved = Chat.lastMessageId c
  /\ Chat.updatedAt saved = Chat.updatedAt c.

(** The store after a request on the chat [gid]: the one it was, or that
    store with the chat saved over, changed at most in its members. *)
Definition savedOver (db db' : DB) (gid : Id) : Prop :=
  db' = db
  \/ (exists c saved,
        stored db gid = Some c
        /\ sameButMembers c saved
        /\ db' = save db saved).

(** No user listed twice, and every admin a participant. *)
Definition tidy (c : Chat.t) : Prop :=
  NoDup (Chat.participants c)
  /\ NoDup (Chat.admins c)
  /\ incl (Chat.admins c) (Chat.participants c).

Definition allTidy (db : DB) : Prop :=
  forall g c, stored db g = Some c -> tidy c.

(** The pair [createGroupChat] looks a friendship up by. *)
Definition friendShipPair (loggedInUserId pId : Id) : Id * Id :=
  if String.ltb pId loggedInUserId
  then (pId, loggedInUserId)
  else (loggedInUserId, pId).

(** The chat [createGroupChat] hands to [Chat.create]. *)
Definition newGroup (req : Req) (named : list Id) (groupName : string) : Chat.t :=
  Chat.mk (newId req) group (named ++ [User._id (user req)])
          [User._id (user req)] groupName None None 0.

(** The updatedAt values of a page of [getAllChats]. *)
Definition updatedAts (items : list ChatListItem.t) : list nat :=
  map (fun item => Chat.updatedAt (ChatListItem.doc item)) items.

Fixpoint descending (l : list nat) : Prop :=
  match l with
  | [] => True
  | x :: rest => (forall y, In y rest -> y <= x) /\ descending rest
  end.

(** ** Request ids in canonical form

    The statements that quantify over a request id that need not be the id
    of a stored document take it in canonical form. *)

(** A request id that Mongoose can cast is written in canonical form. *)
Definition canonicalIfValid (id : string) : Prop :=
  isValidObjectId id = true -> canonicalId id = true.

Definition canonicalOp (op : GroupOp) : Prop :=
  match op with
  | OpAddParticipant _ g p => canonicalIfValid g /\ canonicalIfValid p
  | OpRemoveParticipant _ g p => canonicalIfValid g /\ canonicalIfValid p
  | OpToggleAdmin _ g p => canonicalIfValid g /\ canonicalIfValid p
  | OpLeaveGroup _ g => canonicalIfValid g
  end.

Definition canonicalOps (ops : list GroupOp) : Prop :=
  Forall canonicalOp ops.

(** ** The page a request is served

    [p] is the page served for the [page] value [raw]: page 1 when the value
    is not a number or is below one, the requested number otherwise. *)
Definition servedPage (raw : JsValue) (p : Z) : Prop :=
  (belowOne raw /\ p = 1%Z)
  \/ (ToNumber raw = Num p /\ (1 <= p)%Z).

(** ** Chats up to the time stamp

    [save] of Mongoose stamps [updatedAt]; the embedding keeps the value it
    read.  The predicates below compare chats without [updatedAt]. *)

(** Two chats that differ at most in participants, admins and time stamp. *)
Definition sameButMembersAndStamp (c saved : Chat.t) : Prop :=
  Chat._id saved = Chat._id c
  /\ Chat.chatType saved = Chat.chatType c
  /\ Chat.groupName saved = Chat.groupName c
  /\ Chat.groupIcon saved = Chat.groupIcon c
  /\ Chat.lastMessageId saved = Chat.lastMessageId c.

(** Two chats that differ at most in their time stamp. *)
Definition sameButStamp (c c' : Chat.t) : Prop :=
  Chat._id c' = Chat._id c
  /\ Chat.chatType c' = Chat.chatType c
  /\ Chat.participants c' = Chat.participants c
  /\ Chat.admins c' = Chat.admins c
  /\ Chat.groupName c' = Chat.groupName c
  /\ Chat.groupIcon c' = Chat.groupIcon c
  /\ Chat.lastMessageId c' = Chat.lastMessageId c.

(** Two stores with the same documents, chat by chat up to the time stamp. *)
Definition sameStoreButStamps (db db' : DB) : Prop :=
  users db' = users db
  /\ friendships db' = friendships db
  /\ messages db' = messages db
  /\ Forall2 sameButStamp (chats db) (chats db').

End Controller.

(** * Properties *)

Unset Implicit Arguments.

(** ** Arrays *)

Lemma indexOf_range (arr : list Id) (x : Id) :
  (JsArray.indexOf arr x = -1 \/ 0 <= JsArray.indexOf arr x)%Z.
Proof.
  induction arr as [|y rest IH]; simpl; [now left|].
  destruct (String.eqb x y); [right; lia|].
  destruct (JsArray.indexOf rest x =? -1)%Z eqn:E; [now left|].
  apply Z.eqb_neq in E. right. lia.
Qed.

Lemma indexOf_absent (arr : list Id) (x : Id) :
  JsArray.indexOf arr x = (-1)%Z <-> ~ In x arr.
Proof.
  induction arr as [|y rest IH]; simpl.
  - tauto.
  - destruct (String.eqb x y) eqn:Exy.
    + apply String.eqb_eq in Exy. subst. split; [lia | intros H; exfalso; apply H; now left].
    + apply String.eqb_neq in Exy.
      destruct (JsArray.indexOf rest x =? -1)%Z eqn:E.
      * apply Z.eqb_eq in E. split; [|reflexivity].
        intros _ [H|H]; [congruence | now apply IH].
      * apply Z.eqb_neq in E. pose proof (indexOf_range rest x) as Hr.
        split; [lia|]. intros H. exfalso. apply E, IH. intros Hin. apply H. now right.
Qed.

Lemma indexOf_present (arr : list Id) (x : Id) :
  (JsArray.indexOf arr x =? -1)%Z = false <-> In x arr.
Proof.
  rewrite Z.eqb_neq, indexOf_absent.
  destruct (in_dec Id_eq_dec x arr); tauto.
Qed.

Lemma includes_In (arr : list Id) (x : Id) :
  JsArray.includes arr x = true <-> In x arr.
Proof.
  unfold JsArray.includes. rewrite negb_true_iff. apply indexOf_present.
Qed.

Lemma includes_not_In (arr : list Id) (x : Id) :
  JsArray.includes arr x = false <-> ~ In x arr.
Proof.
  rewrite <- includes_In. destruct (JsArray.includes arr x); split; congruence.
Qed.

Lemma splice_at (arr : list Id) (i : nat) :
  JsArray.splice arr (Z.of_nat i) 1 = firstn i arr ++ skipn (i + 1) arr.
Proof.
  unfold JsArray.splice.
  replace (Z.of_nat i <? 0)%Z with false by (symmetry; apply Z.ltb_ge; lia).
  destruct (Nat.le_gt_cases i (List.length arr)) as [Hle|Hgt].
  - rewrite Z.min_l by lia. now rewrite Nat2Z.id.
  - rewrite Z.min_r by lia. rewrite Nat2Z.id.
    rewrite !firstn_all2 by lia. rewrite !skipn_all2 by lia. reflexivity.
Qed.

(** Splicing at [indexOf] removes the first occurrence. *)
Lemma splice_indexOf (arr : list Id) (x : Id) :
  In x arr ->
  JsArray.splice arr (JsArray.indexOf arr x) 1 = removeFirst x arr.
Proof.
  intros Hin.
  assert (H : exists i, JsArray.indexOf arr x = Z.of_nat i
                        /\ firstn i arr ++ skipn (i + 1) arr = removeFirst x arr).
  { induction arr as [|y rest IH]; [contradiction|]. simpl.
    destruct (String.eqb x y) eqn:Exy.
    - exists 0. split; reflexivity.
    - apply String.eqb_neq in Exy. destruct Hin as [Hin|Hin]; [congruence|].
      destruct (IH Hin) as [i [Hi Hrm]]. rewrite Hi.
      replace (Z.of_nat i =? -1)%Z with false by (symmetry; apply Z.eqb_neq; lia).
      exists (S i). split; [lia|]. simpl. now rewrite Hrm. }
  destruct H as [i [Hi Hrm]]. now rewrite Hi, splice_at.
Qed.

Lemma removeFirst_absent (x : Id) (arr : list Id) :
  ~ In x arr -> removeFirst x arr = arr.
Proof.
  induction arr as [|y rest IH]; simpl; [reflexivity|]. intros H.
  destruct (String.eqb x y) eqn:Exy.
  - apply String.eqb_eq in Exy. subst. exfalso. apply H. now left.
  - f_equal. apply IH. tauto.
Qed.

Lemma removeFirst_incl (x y : Id) (arr : list Id) :
  In y (removeFirst x arr) -> In y arr.
Proof.
  induction arr as [|z rest IH]; simpl; [tauto|].
  destruct (String.eqb x z); simpl; tauto.
Qed.

Lemma removeFirst_other (x y : Id) (arr : list Id) :
  y <> x -> In y arr -> In y (removeFirst x arr).
Proof.
  intros Hne. induction arr as [|z rest IH]; simpl; [tauto|].
  destruct (String.eqb x z) eqn:Exz.
  - apply String.eqb_eq in Exz. subst. intros [H|H]; [congruence | exact H].
  - simpl. tauto.
Qed.

Lemma removeFirst_NoDup (x : Id) (arr : list Id) :
  NoDup arr -> ~ In x (removeFirst x arr).
Proof.
  induction arr as [|z rest IH]; simpl; [tauto|]. intros Hnd.
  inversion Hnd as [|? ? Hz Hrest]; subst.
  destruct (String.eqb x z) eqn:Exz.
  - apply String.eqb_eq in Exz. now subst.
  - apply String.eqb_neq in Exz. simpl. intros [H|H]; [congruence | now apply IH].
Qed.

Lemma removeFirst_length (x : Id) (arr : list Id) :
  In x arr -> S (List.length (removeFirst x arr)) = List.length arr.
Proof.
  induction arr as [|z rest IH]; simpl; [tauto|].
  destruct (String.eqb x z) eqn:Exz; [reflexivity|].
  apply String.eqb_neq in Exz. intros [H|H]; [congruence|]. simpl. now rewrite IH.
Qed.

Lemma removeFirst_nil_inv (x : Id) (arr : list Id) :
  In x arr -> removeFirst x arr = [] -> arr = [x].
Proof.
  intros Hin Hnil. apply removeFirst_length in Hin. rewrite Hnil in Hin.
  destruct arr as [|y [|z rest]]; simpl in *; try discriminate.
  destruct (String.eqb x y) eqn:E; [|discriminate].
  apply String.eqb_eq in E. now subst.
Qed.

(** ** The store *)

Lemma ChatType_eqb_eq (a b : ChatType) : ChatType_eqb a b = true <-> a = b.
Proof. destruct a, b; simpl; split; congruence. Qed.

Lemma stored_inv (db : DB) (gid : Id) (c : Chat.t) :
  stored db gid = Some c -> In c (chats db) /\ Chat._id c = gid.
Proof.
  unfold stored. intros H. apply find_some in H. destruct H as [Hin Heq].
  apply String.eqb_eq in Heq. now split.
Qed.

Lemma replaceById_find (doc : Chat.t) (cs : list Chat.t) (c : Chat.t) :
  find (fun d => String.eqb (Chat._id d) (Chat._id doc)) cs = Some c ->
  find (fun d => String.eqb (Chat._id d) (Chat._id doc)) (replaceById doc cs) = Some doc.
Proof.
  induction cs as [|d rest IH]; simpl; [discriminate|].
  destruct (String.eqb (Chat._id d) (Chat._id doc)) eqn:E.
  - intros _. simpl. now rewrite String.eqb_refl.
  - intros H. simpl. rewrite E. now apply IH.
Qed.

Lemma replaceById_find_other (doc : Chat.t) (cs : list Chat.t) (id : Id) :
  id <> Chat._id doc ->
  find (fun d => String.eqb (Chat._id d) id) (replaceById doc cs)
  = find (fun d => String.eqb (Chat._id d) id) cs.
Proof.
  intros Hne. induction cs as [|d rest IH]; simpl; [reflexivity|].
  destruct (String.eqb (Chat._id d) (Chat._id doc)) eqn:E; simpl.
  - apply String.eqb_eq in E.
    replace (String.eqb (Chat._id doc) id) with false
      by (symmetry; apply String.eqb_neq; congruence).
    replace (String.eqb (Chat._id d) id) with false
      by (symmetry; apply String.eqb_neq; congruence).
    reflexivity.
  - destruct (String.eqb (Chat._id d) id); [reflexivity | exact IH].
Qed.

(** After [save], the stored document is the saved one. *)
Lemma stored_save (db : DB) (gid : Id) (c doc : Chat.t) :
  stored db gid = Some c -> Chat._id doc = gid ->
  stored (save db doc) gid = Some doc.
Proof.
  unfold stored, save. simpl. intros H Hid. subst gid.
  eapply replaceById_find; eauto.
Qed.

(** ... and every other document is the one it was. *)
Lemma stored_save_other (db : DB) (gid : Id) (doc : Chat.t) :
  gid <> Chat._id doc -> stored (save db doc) gid = stored db gid.
Proof. intros H. unfold stored, save. simpl. now apply replaceById_find_other. Qed.

(** ** Admin lists *)

(** Removing somebody else leaves the acting admin in the list: the removal
    path never empties it. *)
Lemma removeParticipant_keeps_actor_admin (actor target : Id) (admins : list Id) :
  In actor admins -> target <> actor -> removeFirst target admins <> [].
Proof.
  intros Hadm Hne Hnil.
  assert (Hstill : In actor (removeFirst target admins))
    by (apply removeFirst_other; auto).
  rewrite Hnil in Hstill. contradiction.
Qed.

Lemma everyGroupHasAdmin_save (db : DB) (gid : Id) (c saved : Chat.t) :
  everyGroupHasAdmin db ->
  stored db gid = Some c ->
  Chat._id saved = Chat._id c ->
  Chat.admins saved <> [] ->
  everyGroupHasAdmin (save db saved).
Proof.
  intros Hinv Hst Hid Hadm g c' Hst' Hty.
  pose proof (stored_inv db gid c Hst) as [_ Hc].
  destruct (Id_eq_dec g gid) as [->|Hne].
  - rewrite (stored_save db gid c saved Hst) in Hst' by congruence.
    inversion Hst'; subst c'. exact Hadm.
  - rewrite stored_save_other in Hst' by congruence. eapply Hinv; eauto.
Qed.

Lemma adminsAfterLeave_nonempty (actor first : Id) (admins : list Id) :
  admins <> [] -> adminsAfterLeave actor first admins <> [].
Proof.
  intros H. unfold adminsAfterLeave.
  destruct (JsArray.includes admins actor); [|exact H].
  destruct (removeFirst actor admins); discriminate.
Qed.

Lemma adminsAfterToggle_nonempty (target : Id) (admins : list Id) :
  admins <> [target] -> adminsAfterToggle target admins <> [].
Proof.
  intros H. unfold adminsAfterToggle, JsArray.push.
  destruct (JsArray.includes admins target) eqn:E.
  - apply includes_In in E. intros Hnil. apply H. now apply removeFirst_nil_inv.
  - destruct admins; discriminate.
Qed.

(** ** The key of a one-to-one chat *)

Lemma sortUserIds_sym (a b : Id) : sortUserIds a b = sortUserIds b a.
Proof.
  unfold sortUserIds, String.ltb. rewrite (String.compare_antisym a b).
  destruct (String.compare b a) eqn:E; cbn; try reflexivity.
  apply String.compare_eq_iff in E. now subst.
Qed.

Lemma idsEqb_eq (a b : list Id) : idsEqb a b = true <-> a = b.
Proof.
  revert b. induction a as [|x a IH]; intros [|y b]; cbn; try (split; congruence).
  rewrite andb_true_iff, String.eqb_eq, IH. split.
  - intros [-> ->]. reflexivity.
  - intros H. inversion H. auto.
Qed.

(** The lookup keeps exactly the one-to-one chats whose [participants]
    array equals the pair: no chat with more, fewer or swapped members. *)
Lemma matchOneToOne_exact (db : DB) (smallerId biggerId : Id) (d : ChatData) :
  In d (matchOneToOne db smallerId biggerId)
  <-> exists c, d = StoredChat c (lookupLastMessage db c)
                /\ oneToOneFor db smallerId biggerId c.
Proof.
  unfold matchOneToOne, oneToOneFor. rewrite in_map_iff. split.
  - intros [c [Hd Hc]]. apply filter_In in Hc. destruct Hc as [Hin Hc].
    apply andb_true_iff in Hc. destruct Hc as [Hty Hps].
    apply ChatType_eqb_eq in Hty. apply idsEqb_eq in Hps.
    exists c. auto.
  - intros [c [Hd [Hin [Hty Hps]]]]. exists c. split; [auto|].
    apply filter_In. split; [exact Hin|].
    apply andb_true_iff. split; [now apply ChatType_eqb_eq | now apply idsEqb_eq].
Qed.

Lemma storedUser_inv (db : DB) (id : Id) (u : User.t) :
  storedUser db id = Some u -> In u (users db) /\ User._id u = id.
Proof.
  unfold storedUser. intros H. apply find_some in H. destruct H as [Hin Heq].
  apply String.eqb_eq in Heq. auto.
Qed.

Lemma Friendship_findOne_friends (db : DB) (one two : Id) (f : Friendship.t) :
  Friendship_findOne db one two "accepted" = Some f -> friends db one two.
Proof.
  unfold Friendship_findOne. intros H. apply find_some in H. destruct H as [Hin Hf].
  rewrite !andb_true_iff, !String.eqb_eq in Hf. destruct Hf as [[H1 H2] H3].
  exists f. auto.
Qed.

Lemma friends_sym (db : DB) (a b : Id) : friends db a b -> friends db b a.
Proof. intros [f [Hin [Hs H]]]. exists f. tauto. Qed.

Lemma sortUserIds_cases (a b : Id) :
  sortUserIds a b = (a, b) \/ sortUserIds a b = (b, a).
Proof. unfold sortUserIds. destruct (String.ltb a b); auto. Qed.

(** ** Pipeline stages *)

Lemma totalOf_countStage (A : Type) (docs : list A) :
  totalOf (countStage docs) = List.length docs.
Proof. destruct docs; reflexivity. Qed.




(** ** Patterns without metacharacters *)

Lemma parse_plain (query : string) :
  plain query = true ->
  Regex.parse query = Some (map Regex.Lit (list_ascii_of_string query)).
Proof.
  unfold plain. induction query as [|c rest IH]; cbn [list_ascii_of_string forallb map];
    [reflexivity|].
  intros H. apply andb_true_iff in H. destruct H as [Hc Hrest].
  apply negb_true_iff in Hc. cbn [Regex.parse]. rewrite (IH Hrest), Hc.
  unfold Regex.isMeta in Hc. cbn [existsb] in Hc.
  repeat (apply orb_false_iff in Hc; let H := fresh "Hm" in destruct Hc as [H Hc]).
  now rewrite Hm, Hm2.
Qed.

Lemma matchHere_plain (query subject : string) :
  Regex.matchHere true (map Regex.Lit (list_ascii_of_string query)) subject
  = prefixCI query subject.
Proof.
  revert subject. induction query as [|c rest IH]; intros subject; cbn; [reflexivity|].
  destruct subject as [|h subject]; [reflexivity|]. now rewrite IH.
Qed.

Lemma search_plain (query subject : string) :
  Regex.search true (map Regex.Lit (list_ascii_of_string query)) subject
  = containsCI query subject.
Proof.
  induction subject as [|h subject IH]; cbn [Regex.search containsCI];
    rewrite matchHere_plain; [reflexivity|]. now rewrite IH.
Qed.

(** ** Counting users and friendships *)

Lemma filter_length_le (A : Type) (f : A -> bool) (l : list A) :
  List.length (filter f l) <= List.length l.
Proof.
  induction l as [|x l IH]; cbn; [lia|]. destruct (f x); cbn; lia.
Qed.

Lemma filter_length_all (A : Type) (f : A -> bool) (l : list A) :
  List.length (filter f l) = List.length l -> filter f l = l.
Proof.
  induction l as [|x l IH]; cbn; [reflexivity|].
  destruct (f x); cbn; intros H.
  - f_equal. apply IH. lia.
  - pose proof (filter_length_le A f l). lia.
Qed.

(** Filtering a collection keeps its keys distinct. *)
Lemma distinct_keys_filter (Doc Key : Type) (key : Doc -> Key) (keep : Doc -> bool)
      (docs : list Doc) (Hdistinct : NoDup (map key docs)) :
  NoDup (map key (filter keep docs)).
Proof.
  induction docs as [|d docs IH]; cbn; [constructor|].
  inversion Hdistinct as [|? ? Hd Hdocs]; subst.
  destruct (keep d); cbn; [|now apply IH].
  constructor; [|now apply IH].
  intros Hin. apply Hd. apply in_map_iff in Hin. destruct Hin as [y [Hy Hin]].
  apply filter_In in Hin. apply in_map_iff. exists y. tauto.
Qed.

Lemma idIn_In (x : Id) (ids : list Id) : idIn x ids = true <-> In x ids.
Proof.
  unfold idIn. rewrite existsb_exists. split.
  - intros [y [Hin Heq]]. apply String.eqb_eq in Heq. now subst.
  - intros H. exists x. split; [exact H | apply String.eqb_refl].
Qed.

(** As many users found as ids asked for: the ids are distinct and each
    is the id of a stored user. *)
Lemma User_find_all (db : DB) (ids : list Id) :
  NoDup (map User._id (users db)) ->
  List.length (User_find db ids) = List.length ids ->
  NoDup ids /\ forall p, In p ids -> exists u, In u (users db) /\ User._id u = p.
Proof.
  intros Hnd Hlen.
  set (found := map User._id (User_find db ids)).
  assert (Hfnd : NoDup found) by (apply distinct_keys_filter; exact Hnd).
  assert (Hincl : incl found ids).
  { intros x Hx. apply in_map_iff in Hx. destruct Hx as [u [Hu Hin]].
    apply filter_In in Hin. destruct Hin as [_ Hin]. apply idIn_In in Hin. congruence. }
  assert (Hl : List.length ids <= List.length found)
    by (unfold found; rewrite length_map; lia).
  split.
  - exact (NoDup_incl_NoDup Hfnd Hl Hincl).
  - intros p Hp. pose proof (NoDup_length_incl Hfnd Hl Hincl p Hp) as Hin.
    apply in_map_iff in Hin. destruct Hin as [u [Hu Hin]].
    apply filter_In in Hin. exists u. tauto.
Qed.

Lemma pairMatches_key (f : Friendship.t) (p : Id * Id) :
  pairMatches f p = true <-> friendshipKey f = p.
Proof.
  unfold pairMatches, friendshipKey. destruct p as [a b]. cbn.
  rewrite andb_true_iff, !String.eqb_eq. split.
  - intros [-> ->]. reflexivity.
  - intros H. inversion H. auto.
Qed.

(** As many accepted friendships found as pairs asked for: every pair has
    one. *)
Lemma Friendship_find_all (db : DB) (pairs : list (Id * Id)) :
  NoDup (map friendshipKey (friendships db)) ->
  List.length (Friendship_find db pairs "accepted") = List.length pairs ->
  forall p, In p pairs ->
            exists f, In f (friendships db)
                      /\ Friendship.status f = "accepted"
                      /\ friendshipKey f = p.
Proof.
  intros Hnd Hlen.
  set (keys := map friendshipKey (Friendship_find db pairs "accepted")).
  assert (Hknd : NoDup keys) by (apply distinct_keys_filter; exact Hnd).
  assert (Hincl : incl keys pairs).
  { intros k Hk. apply in_map_iff in Hk. destruct Hk as [f [Hf Hin]].
    apply filter_In in Hin. destruct Hin as [_ Hin].
    apply andb_true_iff in Hin. destruct Hin as [Hex _].
    apply existsb_exists in Hex. destruct Hex as [p [Hp Hm]].
    apply pairMatches_key in Hm. congruence. }
  assert (Hl : List.length pairs <= List.length keys)
    by (unfold keys; rewrite length_map; lia).
  intros p Hp. pose proof (NoDup_length_incl Hknd Hl Hincl p Hp) as Hin.
  apply in_map_iff in Hin. destruct Hin as [f [Hf Hin]].
  apply filter_In in Hin. destruct Hin as [Hin Hcond].
  apply andb_true_iff in Hcond. destruct Hcond as [_ Hst].
  apply String.eqb_eq in Hst. exists f. auto.
Qed.

Lemma friendShipPair_friends (db : DB) (pId loggedInUserId : Id) (f : Friendship.t) :
  In f (friendships db) ->
  Friendship.status f = "accepted" ->
  friendshipKey f = (if String.ltb pId loggedInUserId
                     then (pId, loggedInUserId)
                     else (loggedInUserId, pId)) ->
  friends db pId loggedInUserId.
Proof.
  intros Hin Hst Hkey. exists f. split; [exact Hin|]. split; [exact Hst|].
  unfold friendshipKey in Hkey.
  destruct (String.ltb pId loggedInUserId); inversion Hkey; auto.
Qed.

Section Membership.

Variable isValidObjectId : string -> bool.

(** ** Well-formed ids *)

Lemma Chat_findById_stored (db : DB) (gid : Id) :
  isValidObjectId gid = true -> Chat_findById isValidObjectId db gid = Got (stored db gid).
Proof. intros H. unfold Chat_findById, findById, stored. now rewrite H. Qed.

Lemma wfId_inv (id : Id) :
  wfId isValidObjectId id = true -> blank id = false /\ isValidObjectId id = true.
Proof.
  unfold wfId. rewrite andb_true_iff, negb_true_iff. tauto.
Qed.

Lemma stored_wf (db : DB) (gid : Id) (c : Chat.t) :
  wfStore isValidObjectId db = true -> stored db gid = Some c ->
  wfId isValidObjectId gid = true
  /\ (forall p, In p (Chat.participants c) -> wfId isValidObjectId p = true)
  /\ (forall a, In a (Chat.admins c) -> wfId isValidObjectId a = true).
Proof.
  intros Hwf Hst. apply stored_inv in Hst. destruct Hst as [Hin Hid].
  unfold wfStore in Hwf. apply andb_true_iff in Hwf. destruct Hwf as [_ Hcs].
  rewrite forallb_forall in Hcs. specialize (Hcs c Hin).
  unfold wfChat in Hcs. rewrite !andb_true_iff in Hcs.
  destruct Hcs as [[Hc Hps] Has]. rewrite forallb_forall in Hps, Has.
  subst gid. repeat split; auto.
Qed.

(** ** [utilityForGroupAction] *)

Lemma utilityForGroupAction_no_throw (db : DB) (gid target actor : string) (e : StoreError) :
  utilityForGroupAction isValidObjectId db gid target actor <> ActionThrew e.
Proof.
  unfold utilityForGroupAction.
  destruct (existsb blank [gid; target]); [discriminate|].
  destruct (existsb (fun id => negb (isValidObjectId id)) [gid; target]) eqn:Ev;
    [discriminate|].
  simpl in Ev. apply orb_false_iff in Ev. destruct Ev as [Ev _].
  apply negb_false_iff in Ev. rewrite (Chat_findById_stored db gid Ev).
  destruct (stored db gid) as [c|]; [|discriminate].
  destruct (negb (ChatType_eqb (Chat.chatType c) group)); [discriminate|].
  destruct (negb (JsArray.includes (Chat.admins c) actor)); discriminate.
Qed.

Lemma utilityForGroupAction_success (db : DB) (gid target actor : string) (c : Chat.t) :
  wfStore isValidObjectId db = true ->
  stored db gid = Some c ->
  Chat.chatType c = group ->
  In actor (Chat.admins c) ->
  wfId isValidObjectId target = true ->
  utilityForGroupAction isValidObjectId db gid target actor = ActionSuccess c.
Proof.
  intros Hwf Hst Hty Hadm Ht.
  destruct (stored_wf db gid c Hwf Hst) as [Hg _].
  apply wfId_inv in Hg. destruct Hg as [Hgb Hgv].
  apply wfId_inv in Ht. destruct Ht as [Htb Htv].
  unfold utilityForGroupAction. simpl.
  rewrite Hgb, Htb, Hgv, Htv. simpl.
  rewrite (Chat_findById_stored db gid Hgv), Hst, Hty. simpl.
  apply includes_In in Hadm. now rewrite Hadm.
Qed.

Lemma utilityForGroupAction_success_inv (db : DB) (gid target actor : string) (c : Chat.t) :
  utilityForGroupAction isValidObjectId db gid target actor = ActionSuccess c ->
  stored db gid = Some c
  /\ Chat.chatType c = group
  /\ In actor (Chat.admins c)
  /\ wfId isValidObjectId target = true.
Proof.
  unfold utilityForGroupAction.
  destruct (existsb blank [gid; target]) eqn:Eb; [discriminate|].
  destruct (existsb (fun id => negb (isValidObjectId id)) [gid; target]) eqn:Ev;
    [discriminate|].
  simpl in Eb, Ev.
  apply orb_false_iff in Eb. destruct Eb as [_ Eb].
  apply orb_false_iff in Eb. destruct Eb as [Etb _].
  apply orb_false_iff in Ev. destruct Ev as [Egv Ev].
  apply orb_false_iff in Ev. destruct Ev as [Etv _].
  apply negb_false_iff in Egv, Etv.
  rewrite (Chat_findById_stored db gid Egv).
  destruct (stored db gid) as [c0|]; [|discriminate].
  destruct (ChatType_eqb (Chat.chatType c0) group) eqn:Ety; simpl; [|discriminate].
  destruct (JsArray.includes (Chat.admins c0) actor) eqn:Eadm; simpl; [|discriminate].
  intros H. inversion H; subst c0.
  apply ChatType_eqb_eq in Ety. apply includes_In in Eadm.
  unfold wfId. rewrite Etb, Etv. auto.
Qed.

(** ** [leaveGroup] *)

Lemma leaveGroup_run (db : DB) (req : Req) (gid : Id) (c : Chat.t) :
  blank gid = false ->
  isValidObjectId gid = true ->
  stored db gid = Some c ->
  Chat.chatType c = group ->
  In (User._id (user req)) (Chat.participants c) ->
  leaveGroup isValidObjectId db req gid =
    match removeFirst (User._id (user req)) (Chat.participants c) with
    | [] => (respond OK "You left the group" NoData, db)
    | first :: others =>
        (respond OK "You left the group" NoData,
         save db (Chat.set_admins
                    (Chat.set_participants c (first :: others))
                    (adminsAfterLeave (User._id (user req)) first (Chat.admins c))))
    end.
Proof.
  intros Hgb Hgv Hst Hty Hin.
  unfold leaveGroup. rewrite Hgb, (Chat_findById_stored db gid Hgv), Hst, Hty.
  cbn [ChatType_eqb negb].
  pose proof (proj2 (indexOf_present _ _) Hin) as Hp. rewrite Hp.
  cbn [Chat.participants Chat.set_participants Chat.admins].
  rewrite (splice_indexOf _ _ Hin).
  destruct (removeFirst (User._id (user req)) (Chat.participants c))
    as [|first others] eqn:Erest; [reflexivity|].
  cbn [List.length Nat.eqb JsArray.at0 hd_error].
  unfold adminsAfterLeave, JsArray.includes.
  destruct (JsArray.indexOf (Chat.admins c) (User._id (user req)) =? -1)%Z eqn:Ea;
    cbn [negb andb].
  - reflexivity.
  - apply indexOf_present in Ea.
    cbn [Chat.admins Chat.set_admins Chat.participants Chat.set_participants].
    rewrite (splice_indexOf _ _ Ea).
    destruct (removeFirst (User._id (user req)) (Chat.admins c)) as [|a adm];
      reflexivity.
Qed.

Lemma leaveGroup_participant (db : DB) (req : Req) (gid : Id) (c : Chat.t) :
  wfStore isValidObjectId db = true ->
  stored db gid = Some c ->
  Chat.chatType c = group ->
  In (User._id (user req)) (Chat.participants c) ->
  leaveGroup isValidObjectId db req gid =
    match removeFirst (User._id (user req)) (Chat.participants c) with
    | [] => (respond OK "You left the group" NoData, db)
    | first :: others =>
        (respond OK "You left the group" NoData,
         save db (Chat.set_admins
                    (Chat.set_participants c (first :: others))
                    (adminsAfterLeave (User._id (user req)) first (Chat.admins c))))
    end.
Proof.
  intros Hwf Hst Hty Hin.
  destruct (stored_wf db gid c Hwf Hst) as [Hg _].
  apply wfId_inv in Hg. destruct Hg as [Hgb Hgv].
  now apply leaveGroup_run.
Qed.

(** C3.  When a participant of a group leaves and other participants
    remain: if the leaver was an admin and removing them empties the admin
    list, the participant at index 0 of the remaining list is made admin,
    and the admin list that is saved is not empty. *)
Theorem leaveGroup_promotes_first_remaining
        (db : DB) (req : Req) (gid : Id) (c : Chat.t) (first : Id) (others : list Id) :
  wfStore isValidObjectId db = true ->
  stored db gid = Some c ->
  Chat.chatType c = group ->
  In (User._id (user req)) (Chat.participants c) ->
  removeFirst (User._id (user req)) (Chat.participants c) = first :: others ->
  In (User._id (user req)) (Chat.admins c) ->
  removeFirst (User._id (user req)) (Chat.admins c) = [] ->
  exists saved,
    leaveGroup isValidObjectId db req gid
    = (respond OK "You left the group" NoData, save db saved)
    /\ stored (save db saved) gid = Some saved
    /\ Chat.participants saved = first :: others
    /\ JsArray.at0 (Chat.participants saved) = Some first
    /\ Chat.admins saved = [first]
    /\ Chat.admins saved <> [].
Proof.
  intros Hwf Hst Hty Hin Hrest Hadm Hnil.
  pose proof (leaveGroup_participant db req gid c Hwf Hst Hty Hin) as Hrun.
  rewrite Hrest in Hrun.
  unfold adminsAfterLeave in Hrun.
  rewrite (proj2 (includes_In _ _) Hadm), Hnil in Hrun.
  eexists. split; [exact Hrun|].
  split.
  - apply stored_save with (c := c); [exact Hst|]. cbn. now apply stored_inv in Hst.
  - cbn. repeat split; congruence.
Qed.

(** C10.  When the only participant of a group leaves, the handler answers
    OK "You left the group" and returns before any save: the store is the
    one it was, and the chat still lists the leaver. *)
Theorem leaveGroup_sole_participant_persists_nothing
        (db : DB) (req : Req) (gid : Id) (c : Chat.t) :
  wfStore isValidObjectId db = true ->
  stored db gid = Some c ->
  Chat.chatType c = group ->
  Chat.participants c = [User._id (user req)] ->
  leaveGroup isValidObjectId db req gid = (respond OK "You left the group" NoData, db)
  /\ stored (snd (leaveGroup isValidObjectId db req gid)) gid = Some c
  /\ In (User._id (user req)) (Chat.participants c).
Proof.
  intros Hwf Hst Hty Hps.
  assert (Hin : In (User._id (user req)) (Chat.participants c))
    by (rewrite Hps; now left).
  pose proof (leaveGroup_participant db req gid c Hwf Hst Hty Hin) as Hrun.
  rewrite Hps in Hrun. cbn [removeFirst] in Hrun.
  rewrite String.eqb_refl in Hrun.
  rewrite Hrun. cbn [snd]. auto.
Qed.

(** ** [removeParticipant] *)

Lemma removeParticipant_success (db : DB) (req : Req) (gid target : Id) (c : Chat.t) :
  utilityForGroupAction isValidObjectId db gid target (User._id (user req)) = ActionSuccess c ->
  target <> User._id (user req) ->
  In target (Chat.participants c) ->
  removeParticipant isValidObjectId db req gid target =
    (respond OK "User removed from group" NoData,
     save db (Chat.set_admins
                (Chat.set_participants c (removeFirst target (Chat.participants c)))
                (removeFirst target (Chat.admins c)))).
Proof.
  intros Hu Hne Hin. unfold removeParticipant. rewrite Hu.
  replace (String.eqb (User._id (user req)) target) with false
    by (symmetry; apply String.eqb_neq; congruence).
  rewrite (proj2 (indexOf_present _ _) Hin).
  cbn [Chat.participants Chat.set_participants Chat.admins].
  rewrite (splice_indexOf _ _ Hin).
  destruct (JsArray.indexOf (Chat.admins c) target =? -1)%Z eqn:Ea; cbn [negb].
  - apply Z.eqb_eq, indexOf_absent in Ea.
    rewrite (removeFirst_absent _ _ Ea).
    now destruct c.
  - apply indexOf_present in Ea.
    cbn [Chat.admins Chat.set_admins Chat.participants Chat.set_participants].
    now rewrite (splice_indexOf _ _ Ea).
Qed.

(** C4.  A call of [removeParticipant] by an admin of a group.
    - A target that is not a participant: the call fails and the store is
      the one it was.
    - The actor as target: the call is rejected, pointing to leaving.
    - Otherwise the first occurrence of the target is taken out of the
      participant list and out of the admin list, and nobody is promoted:
      the saved admin list is the old one without the target. *)
Theorem removeParticipant_by_admin
        (db : DB) (req : Req) (gid target : Id) (c : Chat.t) :
  wfStore isValidObjectId db = true ->
  stored db gid = Some c ->
  Chat.chatType c = group ->
  In (User._id (user req)) (Chat.admins c) ->
  (~ In target (Chat.participants c) ->
     exists e, removeParticipant isValidObjectId db req gid target = (Next e, db))
  /\ (target = User._id (user req) ->
        removeParticipant isValidObjectId db req gid target =
          (fail BAD_REQUEST "You can't remove yourself, try leaving the group", db))
  /\ (In target (Chat.participants c) -> target <> User._id (user req) ->
        exists saved,
          removeParticipant isValidObjectId db req gid target =
            (respond OK "User removed from group" NoData, save db saved)
          /\ stored (save db saved) gid = Some saved
          /\ Chat.participants saved = removeFirst target (Chat.participants c)
          /\ Chat.admins saved = removeFirst target (Chat.admins c)
          /\ (NoDup (Chat.participants c) -> ~ In target (Chat.participants saved))
          /\ (NoDup (Chat.admins c) -> ~ In target (Chat.admins saved))
          /\ (forall a, In a (Chat.admins saved) -> In a (Chat.admins c))).
Proof.
  intros Hwf Hst Hty Hadm.
  destruct (stored_wf db gid c Hwf Hst) as [_ [Hps Has]].
  split; [|split].
  - intros Hnot. unfold removeParticipant.
    destruct (utilityForGroupAction isValidObjectId db gid target (User._id (user req)))
      as [e|message statusCode|c0] eqn:Hu.
    + exfalso. eapply utilityForGroupAction_no_throw; eauto.
    + eexists. reflexivity.
    + apply utilityForGroupAction_success_inv in Hu.
      destruct Hu as [Hst0 _]. rewrite Hst in Hst0. inversion Hst0; subst c0.
      destruct (String.eqb (User._id (user req)) target); [eexists; reflexivity|].
      rewrite (proj2 (indexOf_absent _ _) Hnot). cbn. eexists. reflexivity.
  - intros Heq. subst target. unfold removeParticipant.
    rewrite (utilityForGroupAction_success db gid _ _ c Hwf Hst Hty Hadm (Has _ Hadm)).
    now rewrite String.eqb_refl.
  - intros Hin Hne.
    pose proof (utilityForGroupAction_success db gid target _ c Hwf Hst Hty Hadm
                  (Hps _ Hin)) as Hu.
    eexists. split; [apply (removeParticipant_success db req gid target c Hu Hne Hin)|].
    split.
    { apply stored_save with (c := c); [exact Hst|]. cbn. now apply stored_inv in Hst. }
    cbn. repeat split.
    + apply removeFirst_NoDup.
    + apply removeFirst_NoDup.
    + intros a. apply removeFirst_incl.
Qed.

(** ** [toggleAdmin] and [addParticipant] *)

Lemma toggleAdmin_success (db : DB) (req : Req) (gid target : Id) (c : Chat.t) :
  utilityForGroupAction isValidObjectId db gid target (User._id (user req)) = ActionSuccess c ->
  In target (Chat.participants c) ->
  toggleAdmin isValidObjectId db req gid target =
    (respond OK (if JsArray.includes (Chat.admins c) target
                 then "Admin removed" else "User marked as admin") NoData,
     save db (Chat.set_admins c (adminsAfterToggle target (Chat.admins c)))).
Proof.
  intros Hu Hin. unfold toggleAdmin. rewrite Hu.
  rewrite (proj2 (indexOf_present _ _) Hin).
  unfold adminsAfterToggle, JsArray.includes.
  destruct (JsArray.indexOf (Chat.admins c) target =? -1)%Z eqn:Ea; cbn [negb].
  - reflexivity.
  - apply indexOf_present in Ea. now rewrite (splice_indexOf _ _ Ea).
Qed.

Lemma addParticipant_success (db : DB) (req : Req) (gid target : Id) (c : Chat.t)
      (o : Outcome) (db' : DB) :
  utilityForGroupAction isValidObjectId db gid target (User._id (user req)) = ActionSuccess c ->
  addParticipant isValidObjectId db req gid target = (o, db') ->
  db' = db
  \/ db' = save db (Chat.set_participants c (JsArray.push (Chat.participants c) target)).
Proof.
  intros Hu. unfold addParticipant. rewrite Hu.
  destruct (JsArray.includes (Chat.participants c) target).
  - intros H. inversion H. now left.
  - destruct (sortUserIds (User._id (user req)) target) as [smallerId biggerId].
    destruct (Friendship_findOne db smallerId biggerId "accepted");
      intros H; inversion H; auto.
Qed.

(** ** Sequences of membership operations *)

Lemma leaveGroup_step (db : DB) (req : Req) (gid : Id) :
  everyGroupHasAdmin db -> everyGroupHasAdmin (snd (leaveGroup isValidObjectId db req gid)).
Proof.
  intros Hinv.
  destruct (blank gid) eqn:Eb.
  { unfold leaveGroup. now rewrite Eb. }
  destruct (isValidObjectId gid) eqn:Ev.
  2:{ unfold leaveGroup, Chat_findById, findById. now rewrite Eb, Ev. }
  destruct (stored db gid) as [c|] eqn:Hst.
  2:{ unfold leaveGroup. now rewrite Eb, (Chat_findById_stored db gid Ev), Hst. }
  destruct (Chat.chatType c) eqn:Hty.
  { unfold leaveGroup. now rewrite Eb, (Chat_findById_stored db gid Ev), Hst, Hty. }
  destruct (in_dec Id_eq_dec (User._id (user req)) (Chat.participants c)) as [Hin|Hnot].
  - rewrite (leaveGroup_run db req gid c Eb Ev Hst Hty Hin).
    destruct (removeFirst (User._id (user req)) (Chat.participants c)) as [|first others];
      [exact Hinv|].
    cbn [snd]. apply everyGroupHasAdmin_save with (gid := gid) (c := c); auto.
    cbn. apply adminsAfterLeave_nonempty. eapply Hinv; eauto.
  - unfold leaveGroup.
    rewrite Eb, (Chat_findById_stored db gid Ev), Hst, Hty. cbn [ChatType_eqb negb].
    now rewrite (proj2 (indexOf_absent _ _) Hnot).
Qed.

Lemma removeParticipant_step (db : DB) (req : Req) (gid target : Id) :
  everyGroupHasAdmin db ->
  everyGroupHasAdmin (snd (removeParticipant isValidObjectId db req gid target)).
Proof.
  intros Hinv.
  destruct (utilityForGroupAction isValidObjectId db gid target (User._id (user req)))
    as [e|message statusCode|c] eqn:Hu.
  1,2: unfold removeParticipant; now rewrite Hu.
  pose proof (utilityForGroupAction_success_inv db gid target _ c Hu)
    as [Hst [Hty [Hadm _]]].
  destruct (Id_eq_dec target (User._id (user req))) as [Heq|Hne].
  { unfold removeParticipant. rewrite Hu, Heq, String.eqb_refl. exact Hinv. }
  destruct (in_dec Id_eq_dec target (Chat.participants c)) as [Hin|Hnot].
  - rewrite (removeParticipant_success db req gid target c Hu Hne Hin). cbn [snd].
    apply everyGroupHasAdmin_save with (gid := gid) (c := c); auto.
    cbn. now apply removeParticipant_keeps_actor_admin with (actor := User._id (user req)).
  - unfold removeParticipant. rewrite Hu.
    replace (String.eqb (User._id (user req)) target) with false
      by (symmetry; apply String.eqb_neq; congruence).
    now rewrite (proj2 (indexOf_absent _ _) Hnot).
Qed.

Lemma addParticipant_step (db : DB) (req : Req) (gid target : Id) :
  everyGroupHasAdmin db ->
  everyGroupHasAdmin (snd (addParticipant isValidObjectId db req gid target)).
Proof.
  intros Hinv.
  destruct (utilityForGroupAction isValidObjectId db gid target (User._id (user req)))
    as [e|message statusCode|c] eqn:Hu.
  1,2: unfold addParticipant; now rewrite Hu.
  pose proof (utilityForGroupAction_success_inv db gid target _ c Hu)
    as [Hst [Hty _]].
  destruct (addParticipant isValidObjectId db req gid target) as [o db'] eqn:Hrun.
  destruct (addParticipant_success db req gid target c o db' Hu Hrun) as [->| ->];
    cbn [snd]; [exact Hinv|].
  apply everyGroupHasAdmin_save with (gid := gid) (c := c); auto.
  cbn. eapply Hinv; eauto.
Qed.

Lemma toggleAdmin_step (db : DB) (req : Req) (gid target : Id) :
  everyGroupHasAdmin db ->
  (forall c, stored db gid = Some c -> Chat.admins c <> [target]) ->
  everyGroupHasAdmin (snd (toggleAdmin isValidObjectId db req gid target)).
Proof.
  intros Hinv Hguard.
  destruct (utilityForGroupAction isValidObjectId db gid target (User._id (user req)))
    as [e|message statusCode|c] eqn:Hu.
  1,2: unfold toggleAdmin; now rewrite Hu.
  pose proof (utilityForGroupAction_success_inv db gid target _ c Hu)
    as [Hst [Hty _]].
  destruct (in_dec Id_eq_dec target (Chat.participants c)) as [Hin|Hnot].
  - rewrite (toggleAdmin_success db req gid target c Hu Hin). cbn [snd].
    apply everyGroupHasAdmin_save with (gid := gid) (c := c); auto.
    cbn. apply adminsAfterToggle_nonempty. now apply Hguard.
  - unfold toggleAdmin. rewrite Hu.
    now rewrite (proj2 (indexOf_absent _ _) Hnot).
Qed.

(** X5.  On ids in canonical form, adding, removing and leaving keep an admin
    in every group, and so does a toggle that does not demote the only
    admin of its group. *)
Theorem membership_operations_keep_an_admin (ops : list GroupOp) (db : DB) :
  canonicalOps isValidObjectId ops ->
  everyGroupHasAdmin db ->
  keepLastAdmin isValidObjectId db ops ->
  everyGroupHasAdmin (applyOps isValidObjectId db ops).
Proof.
  intros _. revert db. induction ops as [|op rest IH]; intros db Hinv Hguard; [exact Hinv|].
  destruct Hguard as [Hop Hrest]. cbn. apply IH; [|exact Hrest].
  destruct op as [req g p|req g p|req g p|req g]; cbn.
  - now apply addParticipant_step.
  - now apply removeParticipant_step.
  - now apply toggleAdmin_step.
  - now apply leaveGroup_step.
Qed.

(** The one remaining case: an admin who is also a participant and is the
    only admin toggles themself, and the group is saved without an admin. *)
Lemma toggleAdmin_only_admin (db : DB) (req : Req) (gid : Id) (c : Chat.t) :
  wfStore isValidObjectId db = true ->
  stored db gid = Some c ->
  Chat.chatType c = group ->
  Chat.admins c = [User._id (user req)] ->
  In (User._id (user req)) (Chat.participants c) ->
  toggleAdmin isValidObjectId db req gid (User._id (user req)) =
    (respond OK "Admin removed" NoData, save db (Chat.set_admins c [])).
Proof.
  intros Hwf Hst Hty Hadm Hin.
  destruct (stored_wf db gid c Hwf Hst) as [_ [Hps _]].
  assert (Ha : In (User._id (user req)) (Chat.admins c)) by (rewrite Hadm; now left).
  pose proof (utilityForGroupAction_success db gid _ _ c Hwf Hst Hty Ha (Hps _ Hin)) as Hu.
  rewrite (toggleAdmin_success db req gid _ c Hu Hin).
  unfold adminsAfterToggle. rewrite (proj2 (includes_In _ _) Ha), Hadm.
  cbn [removeFirst]. now rewrite String.eqb_refl.
Qed.

(** ** [createOneToOneChat] *)

Lemma User_findById_stored (db : DB) (id : Id) :
  isValidObjectId id = true -> User_findById isValidObjectId db id = Got (storedUser db id).
Proof. intros H. unfold User_findById, findById, storedUser. now rewrite H. Qed.

Lemma storedUser_wf (db : DB) (id : Id) (u : User.t) :
  wfStore isValidObjectId db = true -> storedUser db id = Some u ->
  String.eqb id EmptyString = false /\ isValidObjectId id = true.
Proof.
  intros Hwf Hu. apply storedUser_inv in Hu. destruct Hu as [Hin Hid].
  unfold wfStore in Hwf. apply andb_true_iff in Hwf. destruct Hwf as [Hus _].
  rewrite forallb_forall in Hus. specialize (Hus u Hin). rewrite Hid in Hus.
  apply wfId_inv in Hus. destruct Hus as [Hb Hv]. split; [|exact Hv].
  unfold blank in Hb. apply orb_false_iff in Hb. tauto.
Qed.

Lemma createOneToOneChat_found (db : DB) (req : Req) (target : User.t)
      (d : ChatData) (rest : list ChatData) :
  String.eqb (User._id target) EmptyString = false ->
  isValidObjectId (User._id target) = true ->
  storedUser db (User._id target) = Some target ->
  matchOneToOne db (fst (sortUserIds (User._id (user req)) (User._id target)))
                   (snd (sortUserIds (User._id (user req)) (User._id target)))
  = d :: rest ->
  createOneToOneChat isValidObjectId db req (User._id target) =
    (respond OK "Chat already exists" (ChatPayload d [user req; target]), db).
Proof.
  intros Hne Hv Hu Hm.
  unfold createOneToOneChat.
  rewrite Hne, Hv, (User_findById_stored db _ Hv), Hu. cbn [negb orb].
  destruct (sortUserIds (User._id (user req)) (User._id target)) as [smallerId biggerId].
  cbn [fst snd] in Hm. now rewrite Hm.
Qed.

Lemma createOneToOneChat_existing (db : DB) (req : Req) (target : User.t)
      (d : ChatData) (rest : list ChatData) :
  wfStore isValidObjectId db = true ->
  storedUser db (User._id target) = Some target ->
  matchOneToOne db (fst (sortUserIds (User._id (user req)) (User._id target)))
                   (snd (sortUserIds (User._id (user req)) (User._id target)))
  = d :: rest ->
  createOneToOneChat isValidObjectId db req (User._id target) =
    (respond OK "Chat already exists" (ChatPayload d [user req; target]), db).
Proof.
  intros Hwf Hu Hm.
  destruct (storedUser_wf db _ target Hwf Hu) as [Hne Hv].
  now apply createOneToOneChat_found with (rest := rest).
Qed.

(** The chat [createOneToOneChat] creates for a requester and a target. *)
Lemma createOneToOneChat_creates (db : DB) (req : Req) (target : User.t) (f : Friendship.t) :
  wfStore isValidObjectId db = true ->
  storedUser db (User._id target) = Some target ->
  (forall c, ~ oneToOneBetween db (User._id (user req)) (User._id target) c) ->
  Friendship_findOne db (fst (sortUserIds (User._id (user req)) (User._id target)))
                        (snd (sortUserIds (User._id (user req)) (User._id target)))
                        "accepted" = Some f ->
  createOneToOneChat isValidObjectId db req (User._id target) =
    (respond CREATED "Chat created"
             (ChatPayload (NewChat (newOneToOne req (User._id target))) [user req; target]),
     set_chats db (chats db ++ [newOneToOne req (User._id target)])).
Proof.
  intros Hwf Hu Hnone Hf.
  destruct (storedUser_wf db _ target Hwf Hu) as [Hne Hv].
  unfold createOneToOneChat, newOneToOne.
  rewrite Hne, Hv, (User_findById_stored db _ Hv), Hu. cbn [negb orb].
  unfold oneToOneBetween in Hnone.
  destruct (sortUserIds (User._id (user req)) (User._id target)) as [s b].
  cbn [fst snd] in *.
  destruct (matchOneToOne db s b) as [|d rest] eqn:Hm.
  - rewrite Hf. reflexivity.
  - exfalso.
    assert (Hd : In d (matchOneToOne db s b)) by (rewrite Hm; now left).
    apply matchOneToOne_exact in Hd. destruct Hd as [c [_ Hc]]. exact (Hnone c Hc).
Qed.

(** X15.  Calling twice: the first call creates the chat, and a second call, by
    the requester or by the target, finds that chat and creates nothing. *)
Theorem createOneToOneChat_twice
        (db : DB) (req req' reqT : Req) (target : User.t) (f : Friendship.t) :
  wfStore isValidObjectId db = true ->
  storedUser db (User._id target) = Some target ->
  storedUser db (User._id (user req)) = Some (user req) ->
  user req' = user req ->
  user reqT = target ->
  (forall c, ~ oneToOneBetween db (User._id (user req)) (User._id target) c) ->
  Friendship_findOne db (fst (sortUserIds (User._id (user req)) (User._id target)))
                        (snd (sortUserIds (User._id (user req)) (User._id target)))
                        "accepted" = Some f ->
  exists created db',
    createOneToOneChat isValidObjectId db req (User._id target)
    = (respond CREATED "Chat created"
               (ChatPayload (NewChat created) [user req; target]), db')
    /\ chats db' = chats db ++ [created]
    /\ createOneToOneChat isValidObjectId db' req' (User._id target)
       = (respond OK "Chat already exists"
                  (ChatPayload (StoredChat created []) [user req; target]), db')
    /\ createOneToOneChat isValidObjectId db' reqT (User._id (user req))
       = (respond OK "Chat already exists"
                  (ChatPayload (StoredChat created []) [target; user req]), db').
Proof.
  intros Hwf Hu Hr Hreq' HreqT Hnone Hf.
  destruct (storedUser_wf db _ target Hwf Hu) as [Hne Hv].
  destruct (storedUser_wf db _ (user req) Hwf Hr) as [Hne' Hv'].
  exists (newOneToOne req (User._id target)).
  exists (set_chats db (chats db ++ [newOneToOne req (User._id target)])).
  split; [now apply createOneToOneChat_creates with (f := f)|].
  split; [reflexivity|].
  assert (Hm : matchOneToOne
                 (set_chats db (chats db ++ [newOneToOne req (User._id target)]))
                 (fst (sortUserIds (User._id (user req)) (User._id target)))
                 (snd (sortUserIds (User._id (user req)) (User._id target)))
               = [StoredChat (newOneToOne req (User._id target)) []]).
  { unfold oneToOneBetween in Hnone.
    destruct (sortUserIds (User._id (user req)) (User._id target)) as [s b] eqn:Hsort.
    cbn [fst snd] in *.
    assert (Hold : matchOneToOne db s b = []).
    { destruct (matchOneToOne db s b) as [|d rest] eqn:Hm; [reflexivity|]. exfalso.
      assert (Hd : In d (matchOneToOne db s b)) by (rewrite Hm; now left).
      apply matchOneToOne_exact in Hd. destruct Hd as [c [_ Hc]]. exact (Hnone c Hc). }
    unfold matchOneToOne in *. apply map_eq_nil in Hold. cbn [chats set_chats].
    rewrite filter_app, Hold. unfold newOneToOne. rewrite Hsort.
    cbn [filter fst snd Chat.chatType Chat.participants ChatType_eqb andb].
    rewrite (proj2 (idsEqb_eq [s; b] [s; b]) eq_refl). reflexivity. }
  split.
  - rewrite <- Hreq'.
    apply createOneToOneChat_found with (rest := []); auto.
    rewrite Hreq'. exact Hm.
  - subst target.
    apply createOneToOneChat_found with (rest := []); auto.
    rewrite (sortUserIds_sym (User._id (user reqT)) (User._id (user req))). exact Hm.
Qed.

(** C2.  When a one-to-one chat is stored for the sorted pair of two
    users, a call by either of them naming the other answers OK "Chat
    already exists" with one and the same stored chat and leaves the store
    as it was: no second chat is created.  The chat returned is the first
    one the lookup yields, and the lookup yields exactly the one-to-one
    chats whose participants array equals the sorted pair. *)
Theorem createOneToOneChat_idempotent
        (db : DB) (reqA reqB : Req) (c : Chat.t) :
  wfStore isValidObjectId db = true ->
  storedUser db (User._id (user reqA)) = Some (user reqA) ->
  storedUser db (User._id (user reqB)) = Some (user reqB) ->
  oneToOneBetween db (User._id (user reqA)) (User._id (user reqB)) c ->
  exists found lastMessage,
    createOneToOneChat isValidObjectId db reqA (User._id (user reqB)) =
      (respond OK "Chat already exists"
               (ChatPayload (StoredChat found lastMessage) [user reqA; user reqB]), db)
    /\ createOneToOneChat isValidObjectId db reqB (User._id (user reqA)) =
         (respond OK "Chat already exists"
                  (ChatPayload (StoredChat found lastMessage) [user reqB; user reqA]), db)
    /\ oneToOneBetween db (User._id (user reqA)) (User._id (user reqB)) found
    /\ Chat.participants found
       = [fst (sortUserIds (User._id (user reqA)) (User._id (user reqB)));
          snd (sortUserIds (User._id (user reqA)) (User._id (user reqB)))]
    /\ ((forall c', oneToOneBetween db (User._id (user reqA)) (User._id (user reqB)) c'
                    -> c' = c)
        -> found = c)
    /\ (forall d,
          In d (matchOneToOne db
                  (fst (sortUserIds (User._id (user reqA)) (User._id (user reqB))))
                  (snd (sortUserIds (User._id (user reqA)) (User._id (user reqB)))))
          <-> exists c', d = StoredChat c' (lookupLastMessage db c')
                         /\ oneToOneBetween db (User._id (user reqA))
                                               (User._id (user reqB)) c').
Proof.
  intros Hwf HA HB Hc. unfold oneToOneBetween in *.
  set (smallerId := fst (sortUserIds (User._id (user reqA)) (User._id (user reqB)))) in *.
  set (biggerId := snd (sortUserIds (User._id (user reqA)) (User._id (user reqB)))) in *.
  destruct (matchOneToOne db smallerId biggerId) as [|d rest] eqn:Hm.
  { exfalso.
    assert (Hin : In (StoredChat c (lookupLastMessage db c))
                     (matchOneToOne db smallerId biggerId))
      by (apply matchOneToOne_exact; eauto).
    rewrite Hm in Hin. contradiction. }
  assert (Hd : In d (matchOneToOne db smallerId biggerId)) by (rewrite Hm; now left).
  apply matchOneToOne_exact in Hd. destruct Hd as [found [-> Hfound]].
  exists found, (lookupLastMessage db found).
  split; [|split; [|split; [|split; [|split]]]].
  - apply createOneToOneChat_existing with (rest := rest); auto.
  - apply createOneToOneChat_existing with (rest := rest); auto.
    rewrite (sortUserIds_sym (User._id (user reqB)) (User._id (user reqA))).
    exact Hm.
  - exact Hfound.
  - apply Hfound.
  - intros Huniq. now apply Huniq.
  - intros d0. rewrite <- Hm. apply matchOneToOne_exact.
Qed.

(** C5, as amended.  The target exists, no one-to-one chat is stored for
    the sorted pair, and the two users have no accepted friendship: the
    call fails with status BAD_REQUEST and the message "You can only chat
    with friends", and the store is the one it was. *)
Theorem createOneToOneChat_not_friends
        (db : DB) (req : Req) (target : User.t) :
  wfStore isValidObjectId db = true ->
  storedUser db (User._id target) = Some target ->
  (forall c, ~ oneToOneBetween db (User._id (user req)) (User._id target) c) ->
  ~ friends db (User._id (user req)) (User._id target) ->
  createOneToOneChat isValidObjectId db req (User._id target) =
    (fail BAD_REQUEST "You can only chat with friends", db)
  /\ snd (createOneToOneChat isValidObjectId db req (User._id target)) = db.
Proof.
  intros Hwf Hu Hnone Hnf.
  assert (Hgoal : createOneToOneChat isValidObjectId db req (User._id target) =
                    (fail BAD_REQUEST "You can only chat with friends", db));
    [|now rewrite Hgoal].
  destruct (storedUser_wf db _ target Hwf Hu) as [Hne Hv].
  unfold createOneToOneChat.
  rewrite Hne, Hv, (User_findById_stored db _ Hv), Hu. cbn [negb orb].
  unfold oneToOneBetween in Hnone.
  pose proof (sortUserIds_cases (User._id (user req)) (User._id target)) as Hcases.
  destruct (sortUserIds (User._id (user req)) (User._id target)) as [s b].
  cbn [fst snd] in Hnone.
  destruct (matchOneToOne db s b) as [|d rest] eqn:Hm.
  - destruct (Friendship_findOne db s b "accepted") as [f|] eqn:Hf; [|reflexivity].
    exfalso. apply Hnf. apply Friendship_findOne_friends in Hf.
    destruct Hcases as [H|H]; inversion H; subst; [exact Hf | now apply friends_sym].
  - exfalso.
    assert (Hd : In d (matchOneToOne db s b)) by (rewrite Hm; now left).
    apply matchOneToOne_exact in Hd. destruct Hd as [c [_ Hc]]. exact (Hnone c Hc).
Qed.

(** ** [updateGroupName] *)

(** A request with a blank name or an ill-formed group id is turned down
    before the chat is read. *)
Lemma updateGroupName_malformed (db : DB) (req : Req) (groupName gid : string) :
  blank groupName = true \/ isValidObjectId gid = false ->
  exists msg, updateGroupName isValidObjectId db req groupName gid = (fail BAD_REQUEST msg, db).
Proof.
  unfold updateGroupName. destruct (blank groupName).
  - intros _. eexists. reflexivity.
  - intros [H|H]; [discriminate|]. rewrite H. eexists. reflexivity.
Qed.

(** C6, as amended.  A request with a blank name or a group id that is
    no ObjectId gives BAD_REQUEST before the chat is read, and the store is
    the one it was.  For a request with a name that is not blank and a
    valid group id: a chat that is missing, the id being written in
    canonical form, or a chat that is not a group gives NOT_FOUND; an actor
    outside the admin list of the group gives UNAUTHORIZED, the status of
    the class Forbidden, and the stored chat is the one it was. *)
Theorem updateGroupName_checks (db : DB) (req : Req) (groupName gid : string) :
  (blank groupName = true \/ isValidObjectId gid = false ->
   (exists msg,
      updateGroupName isValidObjectId db req groupName gid = (fail BAD_REQUEST msg, db))
   /\ failsWith ValidationError
        (fst (updateGroupName isValidObjectId db req groupName gid))
   /\ snd (updateGroupName isValidObjectId db req groupName gid) = db)
  /\ (blank groupName = false ->
      isValidObjectId gid = true ->
      (canonicalId gid = true /\ stored db gid = None)
      \/ (exists c, stored db gid = Some c /\ Chat.chatType c <> group) ->
      updateGroupName isValidObjectId db req groupName gid
      = (fail NOT_FOUND "Group chat not found", db)
      /\ failsWith NotFound (fst (updateGroupName isValidObjectId db req groupName gid)))
  /\ (blank groupName = false ->
      isValidObjectId gid = true ->
      forall c, stored db gid = Some c ->
                Chat.chatType c = group ->
                ~ In (User._id (user req)) (Chat.admins c) ->
                updateGroupName isValidObjectId db req groupName gid
                = (fail UNAUTHORIZED "Only admins can change group name", db)
                /\ failsWith Forbidden
                     (fst (updateGroupName isValidObjectId db req groupName gid))
                /\ snd (updateGroupName isValidObjectId db req groupName gid) = db
                /\ stored (snd (updateGroupName isValidObjectId db req groupName gid)) gid
                   = Some c).
Proof.
  split; [|split].
  - intros Hbad.
    destruct (updateGroupName_malformed db req groupName gid Hbad) as [msg Hrun].
    rewrite Hrun. cbn [fst snd]. split; [now exists msg|]. split; [|reflexivity].
    eexists. split; reflexivity.
  - intros Hname Hv Hmiss.
    assert (Hrun : updateGroupName isValidObjectId db req groupName gid
                   = (fail NOT_FOUND "Group chat not found", db)).
    { unfold updateGroupName.
      rewrite Hname, Hv, (Chat_findById_stored db gid Hv). cbn [negb].
      destruct Hmiss as [[_ Hnone]|[c [Hst Hty]]].
      - now rewrite Hnone.
      - rewrite Hst. destruct (Chat.chatType c); [reflexivity | congruence]. }
    rewrite Hrun. split; [reflexivity|]. eexists. split; reflexivity.
  - intros Hname Hv c Hst Hty Hnot.
    assert (Hrun : updateGroupName isValidObjectId db req groupName gid
                   = (fail UNAUTHORIZED "Only admins can change group name", db)).
    { unfold updateGroupName.
      rewrite Hname, Hv, (Chat_findById_stored db gid Hv), Hst, Hty. cbn [negb ChatType_eqb].
      now rewrite (proj2 (includes_not_In _ _) Hnot). }
    rewrite Hrun. cbn [fst snd]. repeat split; auto.
    eexists. split; reflexivity.
Qed.

(** The admin's call, for the record: the name is replaced and saved. *)
Lemma updateGroupName_by_admin (db : DB) (req : Req) (groupName gid : string) (c : Chat.t) :
  blank groupName = false ->
  isValidObjectId gid = true ->
  stored db gid = Some c ->
  Chat.chatType c = group ->
  In (User._id (user req)) (Chat.admins c) ->
  updateGroupName isValidObjectId db req groupName gid
  = (respond OK "Group name updated" NoData, save db (Chat.set_groupName c groupName)).
Proof.
  intros Hname Hv Hst Hty Hadm. unfold updateGroupName.
  rewrite Hname, Hv, (Chat_findById_stored db gid Hv), Hst, Hty. cbn [negb ChatType_eqb].
  now rewrite (proj2 (includes_In _ _) Hadm).
Qed.

(** ** [createGroupChat] *)

(** C9.  In a store with one user per id and one friendship record per
    ordered pair: when [createGroupChat] answers, every named id is the id
    of a stored user and has an accepted friendship with the requester
    (nothing is asked of the named users among themselves), the chat that
    is created lists the named ids followed by the requester, and its
    admin list holds the requester alone. *)
Theorem createGroupChat_success
        (db : DB) (req : Req) (participants : option (list Id)) (groupName : string)
        (s : StatusCode) (body : ApiResponse) (db' : DB) :
  NoDup (map User._id (users db)) ->
  NoDup (map friendshipKey (friendships db)) ->
  createGroupChat isValidObjectId db req participants groupName = (Json s body, db') ->
  exists named created,
    participants = Some named
    /\ (forall p, In p named ->
                  (exists u, In u (users db) /\ User._id u = p)
                  /\ friends db p (User._id (user req)))
    /\ s = CREATED
    /\ body = mkApiResponse CREATED "Group chat created"
                (ChatPayload (NewChat created) (User_find db named ++ [user req]))
    /\ Chat.chatType created = group
    /\ Chat.groupName created = groupName
    /\ Chat.participants created = named ++ [User._id (user req)]
    /\ Chat.admins created = [User._id (user req)]
    /\ chats db' = chats db ++ [created].
Proof.
  intros Hus Hfs. unfold createGroupChat, Id in *. cbv zeta.
  destruct (blank groupName); [discriminate|].
  destruct participants as [named|]; [|discriminate].
  destruct (Nat.ltb (List.length named) 2); [discriminate|].
  destruct (Nat.eqb (List.length named) (List.length (filter isValidObjectId named)))
    eqn:Hvalid; cbn [negb]; [|discriminate].
  apply Nat.eqb_eq in Hvalid. symmetry in Hvalid.
  apply filter_length_all in Hvalid. rewrite Hvalid.
  destruct (Nat.eqb (List.length (User_find db named)) (List.length named))
    eqn:Husers; cbn [negb]; [|discriminate].
  apply Nat.eqb_eq in Husers.
  match goal with
  | |- context [Nat.eqb (List.length (Friendship_find db ?pairs ?st)) ?n] =>
      destruct (Nat.eqb (List.length (Friendship_find db pairs st)) n) eqn:Hfr
  end; cbn [negb]; [|discriminate].
  apply Nat.eqb_eq in Hfr.
  unfold Chat_create, respond. cbv beta iota.
  intros H. inversion H; subst s body db'. clear H.
  destruct (User_find_all db named Hus Husers) as [_ Hexist].
  match type of Hfr with
  | List.length (Friendship_find db (map ?f named) _) = _ =>
      rewrite <- (length_map f named) in Hfr
  end.
  pose proof (Friendship_find_all db _ Hfs Hfr) as Hfriend.
  eexists named, _. split; [reflexivity|]. split.
  - intros p Hp. split; [now apply Hexist|].
    destruct (Hfriend (if String.ltb p (User._id (user req))
                       then (p, User._id (user req))
                       else (User._id (user req), p))) as [f [Hin [Hst Hkey]]].
    { apply in_map_iff. exists p. auto. }
    eapply friendShipPair_friends; eauto.
  - cbn. repeat split; reflexivity.
Qed.

End Membership.

Section Queries.

Variable StringToNumber : string -> JsNumber.
Variable pcre : string -> string -> option (string -> bool).

(** ** Pagination *)



(** The page the handlers work on is the page served for the request. *)
Lemma pageNumber_served (raw : JsValue) :
  exists p, pageNumber StringToNumber raw = Num p /\ servedPage StringToNumber raw p.
Proof.
  unfold pageNumber, isNaN, Number, servedPage, belowOne.
  destruct (ToNumber StringToNumber raw) as [|z] eqn:E.
  - exists 1%Z. cbn. split; [reflexivity|]. left. split; [now left | reflexivity].
  - cbn. destruct (z <? 1)%Z eqn:Ez.
    + apply Z.ltb_lt in Ez. exists 1%Z. split; [reflexivity|].
      left. split; [|reflexivity]. right. now exists z.
    + apply Z.ltb_ge in Ez. exists z. split; [reflexivity|]. now right.
Qed.


(** ** [searchGroupChat] *)

(** X21.  A query without metacharacters is a case-insensitive substring search:
    the handler counts, and pages through, exactly the group chats of the
    actor whose name contains the query, on the page served for the
    request. *)
Theorem searchGroupChat_plain_query (db : DB) (req : Req) (search : string) (raw : JsValue) :
  blank search = false ->
  plain search = true ->
  exists p,
    servedPage StringToNumber raw p
    /\ pageNumber StringToNumber raw = Num p
    /\ fst (searchGroupChat StringToNumber pcre db req search raw)
       = respond OK "Search in groups success"
           (GroupSearchPayload
              (map project
                   (firstn 50 (skipn (Z.to_nat ((p - 1) * 50))
                                     (substringMatches db (User._id (user req)) search))))
              (List.length (substringMatches db (User._id (user req)) search))
              (p * 50 <? Z.of_nat
                           (List.length (substringMatches db (User._id (user req)) search)))%Z).
Proof.
  intros Hb Hplain. destruct (pageNumber_served raw) as [p [Hp Hserved]]. exists p.
  split; [exact Hserved|]. split; [exact Hp|].
  unfold searchGroupChat, compileRegex. rewrite Hb, Hp, (parse_plain search Hplain).
  cbn [fst]. rewrite totalOf_countStage.
  assert (Hf : filter (fun c => (ChatType_eqb (Chat.chatType c) group
                                 && idIn (User._id (user req)) (Chat.participants c)
                                 && Regex.search (Regex.hasOption "i"%char "i")
                                      (map Regex.Lit (list_ascii_of_string search))
                                      (Chat.groupName c))%bool)
                     (chats db)
               = substringMatches db (User._id (user req)) search).
  { unfold substringMatches. apply filter_ext. intros c.
    change (Regex.hasOption "i"%char "i") with true. now rewrite search_plain. }
  rewrite Hf. reflexivity.
Qed.

(** C8, at the failing input.  Alice searches her groups for a single
    dot.  No group name contains a dot, so a substring search finds
    nothing; the handler hands the query to [$regex] unescaped, the dot
    matches any character, and the group "Team" is returned. *)
Theorem searchGroupChat_dot_matches_every_name :
  substringMatches Sample.db Sample.idA "." = []
  /\ fst (searchGroupChat StringToNumber pcre Sample.db Sample.asAlice "." (JsNum (Num 1)))
     = respond OK "Search in groups success"
               (GroupSearchPayload [project Sample.team] 1 false).
Proof. split; reflexivity. Qed.

End Queries.

(** * Further properties *)

Section MembershipRules.

Variable isValidObjectId : string -> bool.

(** ** Who may change a group *)

Lemma utilityForGroupAction_accepts (db : DB) (gid target actor : string) (c : Chat.t) :
  wfId isValidObjectId gid = true ->
  wfId isValidObjectId target = true ->
  stored db gid = Some c ->
  Chat.chatType c = group ->
  In actor (Chat.admins c) ->
  utilityForGroupAction isValidObjectId db gid target actor = ActionSuccess c.
Proof.
  intros Hg Ht Hst Hty Hadm.
  apply wfId_inv in Hg. destruct Hg as [Hgb Hgv].
  apply wfId_inv in Ht. destruct Ht as [Htb Htv].
  unfold utilityForGroupAction. simpl.
  rewrite Hgb, Htb, Hgv, Htv. simpl.
  rewrite (Chat_findById_stored isValidObjectId db gid Hgv), Hst, Hty. simpl.
  apply includes_In in Hadm. now rewrite Hadm.
Qed.

(** X1.  For a group id in canonical form, [utilityForGroupAction] lets a
    request through exactly when both ids are well-formed, the chat is a
    stored group, and the actor is one of its admins; the chat it hands on
    is the stored one. *)
Theorem utilityForGroupAction_success_iff
        (db : DB) (gid target actor : string) (c : Chat.t) :
  canonicalIfValid isValidObjectId gid ->
  utilityForGroupAction isValidObjectId db gid target actor = ActionSuccess c
  <-> (wfId isValidObjectId gid = true
       /\ wfId isValidObjectId target = true
       /\ stored db gid = Some c
       /\ Chat.chatType c = group
       /\ In actor (Chat.admins c)).
Proof.
  intros _. unfold utilityForGroupAction, wfId. cbn [existsb].
  destruct (blank gid); cbn [orb negb andb].
  { split; [discriminate | intros [H _]; discriminate]. }
  destruct (blank target); cbn [orb negb andb].
  { split; [discriminate | intros [_ [H _]]; discriminate]. }
  destruct (isValidObjectId gid) eqn:Hg; cbn [orb negb andb].
  2:{ split; [discriminate | intros [H _]; discriminate]. }
  destruct (isValidObjectId target); cbn [orb negb andb].
  2:{ split; [discriminate | intros [_ [H _]]; discriminate]. }
  rewrite (Chat_findById_stored isValidObjectId db gid Hg).
  destruct (stored db gid) as [c0|].
  2:{ split; [discriminate | intros [_ [_ [H _]]]; discriminate]. }
  destruct (ChatType_eqb (Chat.chatType c0) group) eqn:Hty; cbn [negb].
  - apply ChatType_eqb_eq in Hty.
    destruct (JsArray.includes (Chat.admins c0) actor) eqn:Hadm; cbn [negb].
    + apply includes_In in Hadm. split.
      * intros H. inversion H; subst c0. auto.
      * intros [_ [_ [H _]]]. inversion H; subst c0. reflexivity.
    + apply includes_not_In in Hadm. split; [discriminate|].
      intros [_ [_ [H [_ Hin]]]]. inversion H; subst c0. contradiction.
  - split; [discriminate|].
    intros [_ [_ [H [Hgroup _]]]]. inversion H; subst c0.
    apply ChatType_eqb_eq in Hgroup. congruence.
Qed.

Lemma addParticipant_run (db : DB) (req : Req) (gid target : Id) (c : Chat.t) :
  utilityForGroupAction isValidObjectId db gid target (User._id (user req))
  = ActionSuccess c ->
  addParticipant isValidObjectId db req gid target =
    if JsArray.includes (Chat.participants c) target
    then (fail BAD_REQUEST "This user is already in the group", db)
    else
      match Friendship_findOne db
              (fst (sortUserIds (User._id (user req)) target))
              (snd (sortUserIds (User._id (user req)) target)) "accepted" with
      | None => (fail BAD_REQUEST "You can only add your friends to the group", db)
      | Some _ =>
          (respond OK "User added to group" NoData,
           save db (Chat.set_participants c
                      (JsArray.push (Chat.participants c) target)))
      end.
Proof.
  intros Hu. unfold addParticipant. rewrite Hu.
  destruct (JsArray.includes (Chat.participants c) target); [reflexivity|].
  destruct (sortUserIds (User._id (user req)) target) as [smallerId biggerId].
  reflexivity.
Qed.

Lemma removeParticipant_run (db : DB) (req : Req) (gid target : Id) (c : Chat.t) :
  utilityForGroupAction isValidObjectId db gid target (User._id (user req))
  = ActionSuccess c ->
  removeParticipant isValidObjectId db req gid target =
    if String.eqb (User._id (user req)) target
    then (fail BAD_REQUEST "You can't remove yourself, try leaving the group", db)
    else if JsArray.includes (Chat.participants c) target
    then (respond OK "User removed from group" NoData,
          save db (Chat.set_admins
                     (Chat.set_participants c (removeFirst target (Chat.participants c)))
                     (removeFirst target (Chat.admins c))))
    else (fail BAD_REQUEST "This user is not in the group", db).
Proof.
  intros Hu.
  destruct (String.eqb (User._id (user req)) target) eqn:Heq.
  { unfold removeParticipant. now rewrite Hu, Heq. }
  apply String.eqb_neq in Heq.
  destruct (JsArray.includes (Chat.participants c) target) eqn:Hin.
  - apply includes_In in Hin.
    apply removeParticipant_success; auto.
  - apply includes_not_In in Hin. unfold removeParticipant. rewrite Hu.
    replace (String.eqb (User._id (user req)) target) with false
      by (symmetry; apply String.eqb_neq; congruence).
    now rewrite (proj2 (indexOf_absent _ _) Hin).
Qed.

Lemma toggleAdmin_run (db : DB) (req : Req) (gid target : Id) (c : Chat.t) :
  utilityForGroupAction isValidObjectId db gid target (User._id (user req))
  = ActionSuccess c ->
  toggleAdmin isValidObjectId db req gid target =
    if JsArray.includes (Chat.participants c) target
    then (respond OK (if JsArray.includes (Chat.admins c) target
                      then "Admin removed" else "User marked as admin") NoData,
          save db (Chat.set_admins c (adminsAfterToggle target (Chat.admins c))))
    else (fail BAD_REQUEST "This user is not in the group", db).
Proof.
  intros Hu.
  destruct (JsArray.includes (Chat.participants c) target) eqn:Hin.
  - apply includes_In in Hin. now apply toggleAdmin_success.
  - apply includes_not_In in Hin. unfold toggleAdmin. rewrite Hu.
    now rewrite (proj2 (indexOf_absent _ _) Hin).
Qed.

(** X2.  On ids in canonical form, the three admin operations change nothing
    unless they answer OK, and they answer OK only for an actor who is an
    admin of the stored group. *)
Theorem membership_change_requires_admin
        (db : DB) (req : Req) (gid target : string) :
  canonicalIfValid isValidObjectId gid ->
  canonicalIfValid isValidObjectId target ->
  adminOnly db gid (User._id (user req))
            (addParticipant isValidObjectId db req gid target)
  /\ adminOnly db gid (User._id (user req))
               (removeParticipant isValidObjectId db req gid target)
  /\ adminOnly db gid (User._id (user req))
               (toggleAdmin isValidObjectId db req gid target).
Proof.
  intros _ _. unfold adminOnly.
  destruct (utilityForGroupAction isValidObjectId db gid target (User._id (user req)))
    as [e|message statusCode|c] eqn:Hu.
  - exfalso. eapply utilityForGroupAction_no_throw; eauto.
  - unfold addParticipant, removeParticipant, toggleAdmin. rewrite Hu.
    repeat split; left; eexists; reflexivity.
  - pose proof (utilityForGroupAction_success_inv isValidObjectId db gid target _ c Hu)
      as [Hst [Hty [Hadm _]]].
    rewrite (addParticipant_run db req gid target c Hu),
            (removeParticipant_run db req gid target c Hu),
            (toggleAdmin_run db req gid target c Hu).
    split; [|split].
    + destruct (JsArray.includes (Chat.participants c) target);
        [left; eexists; reflexivity|].
      destruct (Friendship_findOne db _ _ "accepted");
        [|left; eexists; reflexivity].
      right. exists c. do 2 eexists. repeat split; eauto.
    + destruct (String.eqb (User._id (user req)) target);
        [left; eexists; reflexivity|].
      destruct (JsArray.includes (Chat.participants c) target);
        [|left; eexists; reflexivity].
      right. exists c. do 2 eexists. repeat split; eauto.
    + destruct (JsArray.includes (Chat.participants c) target);
        [|left; eexists; reflexivity].
      right. exists c. do 2 eexists. repeat split; eauto.
Qed.

(** ** What a membership operation leaves alone *)

Lemma replaceById_ids (doc : Chat.t) (cs : list Chat.t) :
  map Chat._id (replaceById doc cs) = map Chat._id cs.
Proof.
  induction cs as [|d rest IH]; cbn; [reflexivity|].
  destruct (String.eqb (Chat._id d) (Chat._id doc)) eqn:E; cbn.
  - apply String.eqb_eq in E. now rewrite E.
  - now rewrite IH.
Qed.

Lemma savedOver_members (db : DB) (gid : Id) (c : Chat.t) (ps adm : list Id) :
  stored db gid = Some c ->
  savedOver db (save db (Chat.set_admins (Chat.set_participants c ps) adm)) gid.
Proof.
  intros Hst. right. exists c. eexists. split; [exact Hst|].
  split; [|reflexivity]. repeat split.
Qed.

Lemma set_participants_same (c : Chat.t) (ps : list Id) :
  Chat.set_participants c ps = Chat.set_admins (Chat.set_participants c ps) (Chat.admins c).
Proof. reflexivity. Qed.

Lemma set_admins_same (c : Chat.t) (adm : list Id) :
  Chat.set_admins c adm = Chat.set_admins (Chat.set_participants c (Chat.participants c)) adm.
Proof. destruct c. reflexivity. Qed.

Lemma addParticipant_savedOver (db : DB) (req : Req) (gid target : string) :
  savedOver db (snd (addParticipant isValidObjectId db req gid target)) gid.
Proof.
  destruct (utilityForGroupAction isValidObjectId db gid target (User._id (user req)))
    as [e|message statusCode|c] eqn:Hu.
  1,2: left; unfold addParticipant; now rewrite Hu.
  pose proof (utilityForGroupAction_success_inv isValidObjectId db gid target _ c Hu)
    as [Hst _].
  rewrite (addParticipant_run db req gid target c Hu).
  destruct (JsArray.includes (Chat.participants c) target); [now left|].
  destruct (Friendship_findOne db _ _ "accepted"); [|now left].
  cbn [snd]. rewrite set_participants_same. now apply savedOver_members.
Qed.

Lemma removeParticipant_savedOver (db : DB) (req : Req) (gid target : string) :
  savedOver db (snd (removeParticipant isValidObjectId db req gid target)) gid.
Proof.
  destruct (utilityForGroupAction isValidObjectId db gid target (User._id (user req)))
    as [e|message statusCode|c] eqn:Hu.
  1,2: left; unfold removeParticipant; now rewrite Hu.
  pose proof (utilityForGroupAction_success_inv isValidObjectId db gid target _ c Hu)
    as [Hst _].
  rewrite (removeParticipant_run db req gid target c Hu).
  destruct (String.eqb (User._id (user req)) target); [now left|].
  destruct (JsArray.includes (Chat.participants c) target); [|now left].
  cbn [snd]. now apply savedOver_members.
Qed.

Lemma toggleAdmin_savedOver (db : DB) (req : Req) (gid target : string) :
  savedOver db (snd (toggleAdmin isValidObjectId db req gid target)) gid.
Proof.
  destruct (utilityForGroupAction isValidObjectId db gid target (User._id (user req)))
    as [e|message statusCode|c] eqn:Hu.
  1,2: left; unfold toggleAdmin; now rewrite Hu.
  pose proof (utilityForGroupAction_success_inv isValidObjectId db gid target _ c Hu)
    as [Hst _].
  rewrite (toggleAdmin_run db req gid target c Hu).
  destruct (JsArray.includes (Chat.participants c) target); [|now left].
  cbn [snd]. rewrite set_admins_same. now apply savedOver_members.
Qed.

(** What [leaveGroup] does, case by case. *)
Lemma leaveGroup_cases (db : DB) (req : Req) (gid : string) :
  (exists o, leaveGroup isValidObjectId db req gid = (o, db))
  \/ (exists c first others,
        stored db gid = Some c
        /\ Chat.chatType c = group
        /\ In (User._id (user req)) (Chat.participants c)
        /\ removeFirst (User._id (user req)) (Chat.participants c) = first :: others
        /\ leaveGroup isValidObjectId db req gid =
             (respond OK "You left the group" NoData,
              save db (Chat.set_admins
                         (Chat.set_participants c (first :: others))
                         (adminsAfterLeave (User._id (user req)) first (Chat.admins c))))).
Proof.
  destruct (blank gid) eqn:Eb.
  { left. unfold leaveGroup. rewrite Eb. eexists. reflexivity. }
  destruct (isValidObjectId gid) eqn:Ev.
  2:{ left. unfold leaveGroup, Chat_findById, findById. rewrite Eb, Ev.
      eexists. reflexivity. }
  destruct (stored db gid) as [c|] eqn:Hst.
  2:{ left. unfold leaveGroup.
      rewrite Eb, (Chat_findById_stored isValidObjectId db gid Ev), Hst.
      eexists. reflexivity. }
  destruct (Chat.chatType c) eqn:Hty.
  { left. unfold leaveGroup.
    rewrite Eb, (Chat_findById_stored isValidObjectId db gid Ev), Hst, Hty.
    eexists. reflexivity. }
  destruct (in_dec Id_eq_dec (User._id (user req)) (Chat.participants c)) as [Hin|Hnot].
  - pose proof (leaveGroup_run isValidObjectId db req gid c Eb Ev Hst Hty Hin) as Hrun.
    destruct (removeFirst (User._id (user req)) (Chat.participants c))
      as [|first others] eqn:Hrest.
    + left. eexists. exact Hrun.
    + right. exists c, first, others. auto.
  - left. unfold leaveGroup.
    rewrite Eb, (Chat_findById_stored isValidObjectId db gid Ev), Hst, Hty.
    cbn [ChatType_eqb negb].
    rewrite (proj2 (indexOf_absent _ _) Hnot). eexists. reflexivity.
Qed.

Lemma leaveGroup_savedOver (db : DB) (req : Req) (gid : string) :
  savedOver db (snd (leaveGroup isValidObjectId db req gid)) gid.
Proof.
  destruct (leaveGroup_cases db req gid)
    as [[o Hrun]|[c [first [others [Hst [_ [_ [_ Hrun]]]]]]]]; rewrite Hrun; cbn [snd].
  - now left.
  - now apply savedOver_members.
Qed.

Lemma applyOp_savedOver (db : DB) (op : GroupOp) :
  savedOver db (applyOp isValidObjectId db op) (opGroup op).
Proof.
  destruct op as [req g p|req g p|req g p|req g]; cbn.
  - apply addParticipant_savedOver.
  - apply removeParticipant_savedOver.
  - apply toggleAdmin_savedOver.
  - apply leaveGroup_savedOver.
Qed.

(** X3.  A membership operation on ids in canonical form, whether it succeeds
    or not, leaves users, friendships and messages as they were, creates and
    deletes no chat, leaves every chat other than the one it names as
    stored, and changes nothing of that chat but its participants, its
    admins and its time stamp. *)
Theorem membership_operation_frame (db : DB) (op : GroupOp) :
  canonicalOp isValidObjectId op ->
  users (applyOp isValidObjectId db op) = users db
  /\ friendships (applyOp isValidObjectId db op) = friendships db
  /\ messages (applyOp isValidObjectId db op) = messages db
  /\ map Chat._id (chats (applyOp isValidObjectId db op)) = map Chat._id (chats db)
  /\ (forall g, g <> opGroup op ->
                stored (applyOp isValidObjectId db op) g = stored db g)
  /\ (forall c, stored db (opGroup op) = Some c ->
                exists c', stored (applyOp isValidObjectId db op) (opGroup op) = Some c'
                           /\ sameButMembersAndStamp c c').
Proof.
  intros _.
  destruct (applyOp_savedOver db op) as [Hsame|[c [saved [Hst [Hsim Hsave]]]]].
  - rewrite Hsame. repeat split; auto. intros c Hc. exists c. repeat split; auto.
  - rewrite Hsave. unfold save. cbn [users friendships messages chats set_chats].
    apply stored_inv in Hst as Hc. destruct Hc as [_ Hc].
    pose proof Hsim as [Hid [Hty [Hname [Hicon [Hlast _]]]]].
    repeat split; auto.
    + apply replaceById_ids.
    + intros g Hg. apply (stored_save_other db g saved). congruence.
    + intros c0 Hc0. exists saved. rewrite Hst in Hc0. inversion Hc0; subst c0.
      split; [|repeat split; assumption].
      apply (stored_save db (opGroup op) c saved); congruence.
Qed.

(** ** Lists without duplicates, admins among the participants *)

Lemma removeFirst_keeps_NoDup (x : Id) (arr : list Id) :
  NoDup arr -> NoDup (removeFirst x arr).
Proof.
  induction arr as [|y rest IH]; cbn; [auto|]. intros Hnd.
  inversion Hnd as [|? ? Hy Hrest]; subst.
  destruct (String.eqb x y); [exact Hrest|].
  constructor; [|now apply IH].
  intros Hin. apply Hy. eapply removeFirst_incl; eauto.
Qed.

Lemma push_keeps_NoDup (x : Id) (arr : list Id) :
  NoDup arr -> ~ In x arr -> NoDup (JsArray.push arr x).
Proof.
  intros Hnd Hx. unfold JsArray.push. apply NoDup_app; auto.
  - repeat constructor. intros [].
  - intros y Hy [Hyx|[]]. subst. contradiction.
Qed.

Lemma removeFirst_both_incl (x : Id) (adm ps : list Id) :
  NoDup adm -> incl adm ps -> incl (removeFirst x adm) (removeFirst x ps).
Proof.
  intros Hnd Hincl a Ha.
  assert (Hne : a <> x).
  { intros ->. exact (removeFirst_NoDup x adm Hnd Ha). }
  apply removeFirst_other; [exact Hne|]. apply Hincl. eapply removeFirst_incl; eauto.
Qed.

Lemma tidy_after_add (c : Chat.t) (target : Id) :
  tidy c -> ~ In target (Chat.participants c) ->
  tidy (Chat.set_participants c (JsArray.push (Chat.participants c) target)).
Proof.
  intros [Hps [Hadm Hincl]] Hnot. repeat split; cbn.
  - now apply push_keeps_NoDup.
  - exact Hadm.
  - intros a Ha. unfold JsArray.push. apply in_or_app. left. now apply Hincl.
Qed.

Lemma tidy_after_remove (c : Chat.t) (target : Id) :
  tidy c ->
  tidy (Chat.set_admins
          (Chat.set_participants c (removeFirst target (Chat.participants c)))
          (removeFirst target (Chat.admins c))).
Proof.
  intros [Hps [Hadm Hincl]]. repeat split; cbn.
  - now apply removeFirst_keeps_NoDup.
  - now apply removeFirst_keeps_NoDup.
  - now apply removeFirst_both_incl.
Qed.

Lemma tidy_after_toggle (c : Chat.t) (target : Id) :
  tidy c -> In target (Chat.participants c) ->
  tidy (Chat.set_admins c (adminsAfterToggle target (Chat.admins c))).
Proof.
  intros [Hps [Hadm Hincl]] Hin. unfold adminsAfterToggle.
  destruct (JsArray.includes (Chat.admins c) target) eqn:E; repeat split; cbn; auto.
  - now apply removeFirst_keeps_NoDup.
  - intros a Ha. apply Hincl. eapply removeFirst_incl; eauto.
  - apply includes_not_In in E. now apply push_keeps_NoDup.
  - intros a Ha. unfold JsArray.push in Ha. apply in_app_or in Ha.
    destruct Ha as [Ha|[<-|[]]]; auto.
Qed.

Lemma tidy_after_leave (c : Chat.t) (actor first : Id) (others : list Id) :
  tidy c ->
  removeFirst actor (Chat.participants c) = first :: others ->
  tidy (Chat.set_admins (Chat.set_participants c (first :: others))
                        (adminsAfterLeave actor first (Chat.admins c))).
Proof.
  intros [Hps [Hadm Hincl]] Hrest.
  pose proof (removeFirst_keeps_NoDup actor _ Hps) as Hps'.
  pose proof (removeFirst_keeps_NoDup actor _ Hadm) as Hadm'.
  pose proof (removeFirst_both_incl actor _ _ Hadm Hincl) as Hincl'.
  rewrite Hrest in Hps', Hincl'.
  unfold adminsAfterLeave.
  destruct (JsArray.includes (Chat.admins c) actor) eqn:E.
  - destruct (removeFirst actor (Chat.admins c)) as [|a adm] eqn:Ermv;
      repeat split; cbn; auto.
    + repeat constructor. intros [].
    + intros x [<-|[]]. now left.
  - apply includes_not_In in E. rewrite (removeFirst_absent _ _ E) in Hincl'.
    repeat split; cbn; auto.
Qed.

Lemma allTidy_save (db : DB) (gid : Id) (c saved : Chat.t) :
  allTidy db ->
  stored db gid = Some c ->
  Chat._id saved = Chat._id c ->
  tidy saved ->
  allTidy (save db saved).
Proof.
  intros Hinv Hst Hid Htidy g c' Hst'.
  pose proof (stored_inv db gid c Hst) as [_ Hc].
  destruct (Id_eq_dec g gid) as [->|Hne].
  - rewrite (stored_save db gid c saved Hst) in Hst' by congruence.
    inversion Hst'; subst c'. exact Htidy.
  - rewrite stored_save_other in Hst' by congruence. eapply Hinv; eauto.
Qed.

Lemma applyOp_keeps_tidy (db : DB) (op : GroupOp) :
  allTidy db -> allTidy (applyOp isValidObjectId db op).
Proof.
  intros Hinv.
  destruct op as [req g p|req g p|req g p|req g]; cbn.
  - destruct (utilityForGroupAction isValidObjectId db g p (User._id (user req)))
      as [e|message statusCode|c] eqn:Hu.
    1,2: unfold addParticipant; now rewrite Hu.
    pose proof (utilityForGroupAction_success_inv isValidObjectId db g p _ c Hu)
      as [Hst _].
    rewrite (addParticipant_run db req g p c Hu).
    destruct (JsArray.includes (Chat.participants c) p) eqn:Hin; [exact Hinv|].
    destruct (Friendship_findOne db _ _ "accepted"); [|exact Hinv].
    cbn [snd]. apply allTidy_save with (gid := g) (c := c); auto.
    apply tidy_after_add; [eapply Hinv; eauto | now apply includes_not_In].
  - destruct (utilityForGroupAction isValidObjectId db g p (User._id (user req)))
      as [e|message statusCode|c] eqn:Hu.
    1,2: unfold removeParticipant; now rewrite Hu.
    pose proof (utilityForGroupAction_success_inv isValidObjectId db g p _ c Hu)
      as [Hst _].
    rewrite (removeParticipant_run db req g p c Hu).
    destruct (String.eqb (User._id (user req)) p); [exact Hinv|].
    destruct (JsArray.includes (Chat.participants c) p); [|exact Hinv].
    cbn [snd]. apply allTidy_save with (gid := g) (c := c); auto.
    apply tidy_after_remove. eapply Hinv; eauto.
  - destruct (utilityForGroupAction isValidObjectId db g p (User._id (user req)))
      as [e|message statusCode|c] eqn:Hu.
    1,2: unfold toggleAdmin; now rewrite Hu.
    pose proof (utilityForGroupAction_success_inv isValidObjectId db g p _ c Hu)
      as [Hst _].
    rewrite (toggleAdmin_run db req g p c Hu).
    destruct (JsArray.includes (Chat.participants c) p) eqn:Hin; [|exact Hinv].
    cbn [snd]. apply allTidy_save with (gid := g) (c := c); auto.
    apply tidy_after_toggle; [eapply Hinv; eauto | now apply includes_In].
  - destruct (leaveGroup_cases db req g)
      as [[o Hrun]|[c [first [others [Hst [_ [_ [Hrest Hrun]]]]]]]];
      rewrite Hrun; cbn [snd]; [exact Hinv|].
    apply allTidy_save with (gid := g) (c := c); auto.
    apply tidy_after_leave; [eapply Hinv; eauto | exact Hrest].
Qed.

(** X4.  In a store where no chat lists a participant or an admin twice and
    every admin is a participant, any sequence of addParticipant,
    removeParticipant, toggleAdmin and leaveGroup requests whose group and
    participant ids are in canonical form leaves a store of that kind. *)
Theorem membership_operations_keep_chats_tidy (ops : list GroupOp) (db : DB) :
  canonicalOps isValidObjectId ops ->
  allTidy db -> allTidy (applyOps isValidObjectId db ops).
Proof.
  intros Hcanonical. revert db.
  induction Hcanonical as [|op rest _ _ IH]; intros db Hinv; [exact Hinv|].
  cbn. apply IH. now apply applyOp_keeps_tidy.
Qed.

(** ** [addParticipant] *)

(** X6.  A call of [addParticipant] by an admin of a group.  A target who is
    already a participant, or whose id, in canonical form, has no accepted
    friendship with the actor, is turned down with BAD_REQUEST and nothing
    is written.  Otherwise the target, its id in canonical form, is
    appended to the participant list, the admins stay, and nothing else of
    the chat changes but its time stamp: the newcomer is no admin unless
    they were one. *)
Theorem addParticipant_by_admin
        (db : DB) (req : Req) (gid target : Id) (c : Chat.t) :
  wfStore isValidObjectId db = true ->
  stored db gid = Some c ->
  Chat.chatType c = group ->
  In (User._id (user req)) (Chat.admins c) ->
  (In target (Chat.participants c) ->
     addParticipant isValidObjectId db req gid target
     = (fail BAD_REQUEST "This user is already in the group", db))
  /\ (wfId isValidObjectId target = true ->
      canonicalId target = true ->
      ~ In target (Chat.participants c) ->
      ~ friends db (User._id (user req)) target ->
      addParticipant isValidObjectId db req gid target
      = (fail BAD_REQUEST "You can only add your friends to the group", db))
  /\ (forall f,
        wfId isValidObjectId target = true ->
        canonicalId target = true ->
        ~ In target (Chat.participants c) ->
        Friendship_findOne db (fst (sortUserIds (User._id (user req)) target))
                              (snd (sortUserIds (User._id (user req)) target))
                              "accepted" = Some f ->
        exists saved,
          addParticipant isValidObjectId db req gid target
          = (respond OK "User added to group" NoData, save db saved)
          /\ stored (save db saved) gid = Some saved
          /\ Chat.participants saved = Chat.participants c ++ [target]
          /\ Chat.admins saved = Chat.admins c
          /\ sameButMembersAndStamp c saved).
Proof.
  intros Hwf Hst Hty Hadm.
  destruct (stored_wf isValidObjectId db gid c Hwf Hst) as [_ [Hps _]].
  assert (Hu : forall t, wfId isValidObjectId t = true ->
                         utilityForGroupAction isValidObjectId db gid t (User._id (user req))
                         = ActionSuccess c).
  { intros t Ht. now apply utilityForGroupAction_success. }
  split; [|split].
  - intros Hin. rewrite (addParticipant_run db req gid target c (Hu _ (Hps _ Hin))).
    now rewrite (proj2 (includes_In _ _) Hin).
  - intros Ht _ Hnot Hnf. rewrite (addParticipant_run db req gid target c (Hu _ Ht)).
    rewrite (proj2 (includes_not_In _ _) Hnot).
    destruct (Friendship_findOne db _ _ "accepted") as [f|] eqn:Hf; [|reflexivity].
    exfalso. apply Hnf. apply Friendship_findOne_friends in Hf.
    destruct (sortUserIds_cases (User._id (user req)) target) as [H|H];
      rewrite H in Hf; cbn [fst snd] in Hf; [exact Hf | now apply friends_sym].
  - intros f Ht _ Hnot Hf. rewrite (addParticipant_run db req gid target c (Hu _ Ht)).
    rewrite (proj2 (includes_not_In _ _) Hnot), Hf.
    eexists. split; [reflexivity|]. split.
    + apply stored_save with (c := c); [exact Hst|]. cbn. now apply stored_inv in Hst.
    + cbn. repeat split.
Qed.

(** ** [toggleAdmin] *)

(** X7.  A call of [toggleAdmin] by an admin of a group.  A target who is no
    participant is turned down with BAD_REQUEST and nothing is written.  A
    participant who is no admin is appended to the admin list ("User marked
    as admin"); one who is an admin is taken out of it ("Admin removed"),
    the actor included.  The participants are left as they were. *)
Theorem toggleAdmin_by_admin
        (db : DB) (req : Req) (gid target : Id) (c : Chat.t) :
  wfStore isValidObjectId db = true ->
  stored db gid = Some c ->
  Chat.chatType c = group ->
  In (User._id (user req)) (Chat.admins c) ->
  (wfId isValidObjectId target = true ->
   ~ In target (Chat.participants c) ->
   toggleAdmin isValidObjectId db req gid target
   = (fail BAD_REQUEST "This user is not in the group", db))
  /\ (In target (Chat.participants c) ->
      exists saved,
        stored (snd (toggleAdmin isValidObjectId db req gid target)) gid = Some saved
        /\ sameButMembers c saved
        /\ Chat.participants saved = Chat.participants c
        /\ (~ In target (Chat.admins c) ->
            toggleAdmin isValidObjectId db req gid target
            = (respond OK "User marked as admin" NoData, save db saved)
            /\ Chat.admins saved = Chat.admins c ++ [target])
        /\ (In target (Chat.admins c) ->
            toggleAdmin isValidObjectId db req gid target
            = (respond OK "Admin removed" NoData, save db saved)
            /\ Chat.admins saved = removeFirst target (Chat.admins c))).
Proof.
  intros Hwf Hst Hty Hadm.
  destruct (stored_wf isValidObjectId db gid c Hwf Hst) as [_ [Hps _]].
  pose proof (stored_inv db gid c Hst) as [_ Hc].
  split.
  - intros Ht Hnot.
    rewrite (toggleAdmin_run db req gid target c
               (utilityForGroupAction_success isValidObjectId db gid target _ c
                  Hwf Hst Hty Hadm Ht)).
    now rewrite (proj2 (includes_not_In _ _) Hnot).
  - intros Hin.
    pose proof (toggleAdmin_run db req gid target c
                  (utilityForGroupAction_success isValidObjectId db gid target _ c
                     Hwf Hst Hty Hadm (Hps _ Hin))) as Hrun.
    rewrite (proj2 (includes_In _ _) Hin) in Hrun.
    exists (Chat.set_admins c (adminsAfterToggle target (Chat.admins c))).
    rewrite Hrun. cbn [snd]. split.
    { apply stored_save with (c := c); auto. }
    split; [repeat split|]. split; [reflexivity|].
    unfold adminsAfterToggle. split.
    + intros Hnot. rewrite (proj2 (includes_not_In _ _) Hnot). split; reflexivity.
    + intros Hyes. rewrite (proj2 (includes_In _ _) Hyes). split; reflexivity.
Qed.

(** ** Undoing an operation *)

Lemma replaceById_restore (c doc : Chat.t) (cs : list Chat.t) :
  find (fun d => String.eqb (Chat._id d) (Chat._id c)) cs = Some c ->
  Chat._id doc = Chat._id c ->
  replaceById c (replaceById doc cs) = cs.
Proof.
  intros Hfind Hid. induction cs as [|d rest IH]; cbn in *; [reflexivity|].
  rewrite Hid.
  destruct (String.eqb (Chat._id d) (Chat._id c)) eqn:E.
  - inversion Hfind; subst d. cbn. now rewrite Hid, String.eqb_refl.
  - cbn. rewrite E. f_equal. now apply IH.
Qed.

Lemma save_restore (db : DB) (gid : Id) (c doc : Chat.t) :
  stored db gid = Some c ->
  Chat._id doc = Chat._id c ->
  save (save db doc) c = db.
Proof.
  intros Hst Hid. pose proof (stored_inv db gid c Hst) as [_ Hc]. subst gid.
  unfold save, stored in *. cbn [chats set_chats].
  rewrite (replaceById_restore c doc (chats db) Hst Hid). now destruct db.
Qed.

Lemma removeFirst_pushed (x : Id) (arr : list Id) :
  ~ In x arr -> removeFirst x (JsArray.push arr x) = arr.
Proof.
  unfold JsArray.push. induction arr as [|y rest IH]; cbn; intros Hnot.
  - now rewrite String.eqb_refl.
  - destruct (String.eqb x y) eqn:E.
    + apply String.eqb_eq in E. subst. exfalso. apply Hnot. now left.
    + f_equal. apply IH. tauto.
Qed.

Lemma includes_pushed (x : Id) (arr : list Id) :
  JsArray.includes (JsArray.push arr x) x = true.
Proof. apply includes_In. unfold JsArray.push. apply in_or_app. right. now left. Qed.

Lemma sameStoreButStamps_refl (db : DB) : sameStoreButStamps db db.
Proof.
  repeat split. induction (chats db) as [|c rest IH]; constructor; [|exact IH].
  repeat split.
Qed.

(** X8.  An admin promotes a participant and toggles them again: the first call
    answers "User marked as admin", the second "Admin removed", and the
    store holds the documents it held before, the time stamps of its chats
    apart. *)
Theorem toggleAdmin_twice_restores
        (db : DB) (req : Req) (gid target : Id) (c : Chat.t) :
  wfStore isValidObjectId db = true ->
  stored db gid = Some c ->
  Chat.chatType c = group ->
  In (User._id (user req)) (Chat.admins c) ->
  In target (Chat.participants c) ->
  ~ In target (Chat.admins c) ->
  exists promoted restored,
    toggleAdmin isValidObjectId db req gid target
    = (respond OK "User marked as admin" NoData, promoted)
    /\ (exists c', stored promoted gid = Some c'
                   /\ Chat.admins c' = Chat.admins c ++ [target])
    /\ toggleAdmin isValidObjectId promoted req gid target
       = (respond OK "Admin removed" NoData, restored)
    /\ sameStoreButStamps db restored.
Proof.
  intros Hwf Hst Hty Hadm Hin Hnot.
  destruct (stored_wf isValidObjectId db gid c Hwf Hst) as [Hg [Hps _]].
  pose proof (stored_inv db gid c Hst) as [_ Hc].
  pose proof (utilityForGroupAction_success isValidObjectId db gid target _ c
                Hwf Hst Hty Hadm (Hps _ Hin)) as Hu.
  set (c1 := Chat.set_admins c (JsArray.push (Chat.admins c) target)).
  assert (Hrun1 : toggleAdmin isValidObjectId db req gid target
                  = (respond OK "User marked as admin" NoData, save db c1)).
  { rewrite (toggleAdmin_run db req gid target c Hu).
    rewrite (proj2 (includes_In _ _) Hin).
    unfold adminsAfterToggle. now rewrite (proj2 (includes_not_In _ _) Hnot). }
  assert (Hst1 : stored (save db c1) gid = Some c1)
    by (apply stored_save with (c := c); auto).
  exists (save db c1), db. split; [exact Hrun1|]. split.
  { exists c1. split; [exact Hst1 | reflexivity]. }
  split; [|apply sameStoreButStamps_refl].
  assert (Hu1 : utilityForGroupAction isValidObjectId (save db c1) gid target
                  (User._id (user req)) = ActionSuccess c1).
  { apply utilityForGroupAction_accepts; auto.
    cbn. unfold JsArray.push. apply in_or_app. now left. }
  rewrite (toggleAdmin_run (save db c1) req gid target c1 Hu1).
  cbn [c1 Chat.participants Chat.admins Chat.set_admins].
  rewrite (proj2 (includes_In _ _) Hin), includes_pushed.
  unfold adminsAfterToggle. rewrite includes_pushed, (removeFirst_pushed _ _ Hnot).
  f_equal.
  replace (Chat.set_admins c1 (Chat.admins c)) with c by (now destruct c).
  apply save_restore with (gid := gid); auto.
Qed.

(** X9.  An admin adds a friend, their id in canonical form, to a tidy group
    and removes them again: the store holds the documents it held before,
    the time stamps of its chats apart. *)
Theorem addParticipant_then_removeParticipant_restores
        (db : DB) (req : Req) (gid target : Id) (c : Chat.t) (f : Friendship.t) :
  wfStore isValidObjectId db = true ->
  stored db gid = Some c ->
  Chat.chatType c = group ->
  In (User._id (user req)) (Chat.admins c) ->
  incl (Chat.admins c) (Chat.participants c) ->
  wfId isValidObjectId target = true ->
  canonicalId target = true ->
  ~ In target (Chat.participants c) ->
  Friendship_findOne db (fst (sortUserIds (User._id (user req)) target))
                        (snd (sortUserIds (User._id (user req)) target))
                        "accepted" = Some f ->
  exists added restored,
    addParticipant isValidObjectId db req gid target
    = (respond OK "User added to group" NoData, added)
    /\ (exists c', stored added gid = Some c'
                   /\ In target (Chat.participants c'))
    /\ removeParticipant isValidObjectId added req gid target
       = (respond OK "User removed from group" NoData, restored)
    /\ sameStoreButStamps db restored.
Proof.
  intros Hwf Hst Hty Hadm Hincl Ht _ Hnot Hf.
  destruct (stored_wf isValidObjectId db gid c Hwf Hst) as [Hg _].
  pose proof (stored_inv db gid c Hst) as [_ Hc].
  pose proof (utilityForGroupAction_success isValidObjectId db gid target _ c
                Hwf Hst Hty Hadm Ht) as Hu.
  set (c1 := Chat.set_participants c (JsArray.push (Chat.participants c) target)).
  assert (Hrun1 : addParticipant isValidObjectId db req gid target
                  = (respond OK "User added to group" NoData, save db c1)).
  { rewrite (addParticipant_run db req gid target c Hu).
    now rewrite (proj2 (includes_not_In _ _) Hnot), Hf. }
  assert (Hst1 : stored (save db c1) gid = Some c1)
    by (apply stored_save with (c := c); auto).
  exists (save db c1), db. split; [exact Hrun1|]. split.
  { exists c1. split; [exact Hst1|]. cbn. unfold JsArray.push.
    apply in_or_app. right. now left. }
  split; [|apply sameStoreButStamps_refl].
  assert (Hu1 : utilityForGroupAction isValidObjectId (save db c1) gid target
                  (User._id (user req)) = ActionSuccess c1).
  { apply utilityForGroupAction_accepts; auto. }
  assert (Hne : User._id (user req) <> target).
  { intros Heq. apply Hnot. apply Hincl. now rewrite <- Heq. }
  rewrite (removeParticipant_run (save db c1) req gid target c1 Hu1).
  replace (String.eqb (User._id (user req)) target) with false
    by (symmetry; now apply String.eqb_neq).
  cbn [c1 Chat.participants Chat.admins Chat.set_participants].
  rewrite includes_pushed, (removeFirst_pushed _ _ Hnot).
  assert (Hna : ~ In target (Chat.admins c)) by (intros H; apply Hnot; now apply Hincl).
  rewrite (removeFirst_absent _ _ Hna).
  f_equal.
  replace (Chat.set_admins (Chat.set_participants c1 (Chat.participants c)) (Chat.admins c))
    with c by (now destruct c).
  apply save_restore with (gid := gid); auto.
Qed.

(** ** [leaveGroup], the other cases *)

(** X10.  [leaveGroup] answers BAD_REQUEST for a blank id, NOT_FOUND for a
    well-formed id that, in canonical form, is the id of no stored chat or
    that is the id of a chat that is no group, and BAD_REQUEST "You are not
    in the group" for a group that does not list the actor; in each case
    nothing is written. *)
Theorem leaveGroup_rejections (db : DB) (req : Req) (gid : string) :
  (blank gid = true ->
     leaveGroup isValidObjectId db req gid
     = (fail BAD_REQUEST "Please provide group id", db))
  /\ (wfId isValidObjectId gid = true ->
      ((canonicalId gid = true /\ stored db gid = None)
       \/ exists c, stored db gid = Some c /\ Chat.chatType c <> group) ->
      leaveGroup isValidObjectId db req gid
      = (fail NOT_FOUND "Group chat not found", db))
  /\ (forall c,
        wfId isValidObjectId gid = true ->
        stored db gid = Some c ->
        Chat.chatType c = group ->
        ~ In (User._id (user req)) (Chat.participants c) ->
        leaveGroup isValidObjectId db req gid
        = (fail BAD_REQUEST "You are not in the group", db)).
Proof.
  split; [|split].
  - intros Hb. unfold leaveGroup. now rewrite Hb.
  - intros Hg Hmiss. apply wfId_inv in Hg. destruct Hg as [Hb Hv].
    unfold leaveGroup. rewrite Hb, (Chat_findById_stored isValidObjectId db gid Hv).
    destruct Hmiss as [[_ Hnone]|[c [Hst Hty]]].
    + now rewrite Hnone.
    + rewrite Hst. destruct (Chat.chatType c); [reflexivity | congruence].
  - intros c Hg Hst Hty Hnot. apply wfId_inv in Hg. destruct Hg as [Hb Hv].
    unfold leaveGroup.
    rewrite Hb, (Chat_findById_stored isValidObjectId db gid Hv), Hst, Hty.
    cbn [ChatType_eqb negb]. now rewrite (proj2 (indexOf_absent _ _) Hnot).
Qed.

(** X11.  A participant leaves a group in which other participants remain.  A
    leaver who is no admin leaves the admin list as it was; an admin who
    leaves other admins behind is taken out of the list and nobody is
    promoted.  Nothing else of the chat changes but its time stamp. *)
Theorem leaveGroup_without_promotion
        (db : DB) (req : Req) (gid : Id) (c : Chat.t) (first : Id) (others : list Id) :
  wfStore isValidObjectId db = true ->
  stored db gid = Some c ->
  Chat.chatType c = group ->
  In (User._id (user req)) (Chat.participants c) ->
  removeFirst (User._id (user req)) (Chat.participants c) = first :: others ->
  removeFirst (User._id (user req)) (Chat.admins c) <> [] ->
  exists saved,
    leaveGroup isValidObjectId db req gid
    = (respond OK "You left the group" NoData, save db saved)
    /\ stored (save db saved) gid = Some saved
    /\ Chat.participants saved = first :: others
    /\ Chat.admins saved = removeFirst (User._id (user req)) (Chat.admins c)
    /\ (~ In (User._id (user req)) (Chat.admins c) -> Chat.admins saved = Chat.admins c)
    /\ sameButMembersAndStamp c saved.
Proof.
  intros Hwf Hst Hty Hin Hrest Hleft.
  pose proof (leaveGroup_participant isValidObjectId db req gid c Hwf Hst Hty Hin) as Hrun.
  rewrite Hrest in Hrun.
  eexists. split; [exact Hrun|]. split.
  { apply stored_save with (c := c); [exact Hst|]. cbn. now apply stored_inv in Hst. }
  assert (Hadm : adminsAfterLeave (User._id (user req)) first (Chat.admins c)
                 = removeFirst (User._id (user req)) (Chat.admins c)).
  { unfold adminsAfterLeave.
    destruct (JsArray.includes (Chat.admins c) (User._id (user req))) eqn:E.
    - destruct (removeFirst (User._id (user req)) (Chat.admins c)); [contradiction|reflexivity].
    - apply includes_not_In in E. now rewrite (removeFirst_absent _ _ E). }
  cbn. rewrite Hadm. repeat split.
  intros Hnot. now apply removeFirst_absent.
Qed.

(** ** [updateGroupName], the admin's call *)

(** X12.  An admin renames a group: the call answers OK "Group name updated",
    the stored chat carries the new name with its members, icon and last
    message as they were, and every other chat is as stored. *)
Theorem updateGroupName_renames
        (db : DB) (req : Req) (groupName gid : string) (c : Chat.t) :
  wfStore isValidObjectId db = true ->
  blank groupName = false ->
  stored db gid = Some c ->
  Chat.chatType c = group ->
  In (User._id (user req)) (Chat.admins c) ->
  updateGroupName isValidObjectId db req groupName gid
  = (respond OK "Group name updated" NoData, save db (Chat.set_groupName c groupName))
  /\ stored (snd (updateGroupName isValidObjectId db req groupName gid)) gid
     = Some (Chat.set_groupName c groupName)
  /\ Chat.groupName (Chat.set_groupName c groupName) = groupName
  /\ Chat.participants (Chat.set_groupName c groupName) = Chat.participants c
  /\ Chat.admins (Chat.set_groupName c groupName) = Chat.admins c
  /\ (forall g, g <> gid ->
                stored (snd (updateGroupName isValidObjectId db req groupName gid)) g
                = stored db g).
Proof.
  intros Hwf Hname Hst Hty Hadm.
  destruct (stored_wf isValidObjectId db gid c Hwf Hst) as [Hg _].
  apply wfId_inv in Hg. destruct Hg as [_ Hv].
  pose proof (stored_inv db gid c Hst) as [_ Hc].
  rewrite (updateGroupName_by_admin isValidObjectId db req groupName gid c
             Hname Hv Hst Hty Hadm).
  cbn [snd]. repeat split.
  - apply stored_save with (c := c); auto.
  - intros g Hg. apply stored_save_other. cbn. congruence.
Qed.

(** ** [createOneToOneChat], the other cases *)

(** X13.  [createOneToOneChat] answers BAD_REQUEST "Invalid user id" for an empty
    or ill-formed id and NOT_FOUND "User not found" for a well-formed id
    that, in canonical form, is the id of no stored user, and writes
    nothing. *)
Theorem createOneToOneChat_rejections (db : DB) (req : Req) (userId : string) :
  (userId = EmptyString \/ isValidObjectId userId = false ->
     createOneToOneChat isValidObjectId db req userId
     = (fail BAD_REQUEST "Invalid user id", db))
  /\ (userId <> EmptyString ->
      isValidObjectId userId = true ->
      canonicalId userId = true ->
      storedUser db userId = None ->
      createOneToOneChat isValidObjectId db req userId
      = (fail NOT_FOUND "User not found", db)).
Proof.
  split.
  - intros [->|Hv]; unfold createOneToOneChat; [reflexivity|].
    rewrite Hv. cbn [negb]. now rewrite orb_true_r.
  - intros Hne Hv _ Hnone. unfold createOneToOneChat.
    replace (String.eqb userId EmptyString) with false
      by (symmetry; now apply String.eqb_neq).
    rewrite Hv, (User_findById_stored isValidObjectId db userId Hv), Hnone.
    reflexivity.
Qed.

(** X14.  Called with a user id in canonical form, or with one that is no
    ObjectId, [createOneToOneChat] either leaves the store as it was or
    appends one chat to it: a one-to-one chat of the requester and the
    target, created only when the target is a stored user, the two have an
    accepted friendship, and no one-to-one chat of the pair was stored. *)
Theorem createOneToOneChat_creates_at_most_one
        (db : DB) (req : Req) (userId : string) :
  canonicalIfValid isValidObjectId userId ->
  snd (createOneToOneChat isValidObjectId db req userId) = db
  \/ (exists target,
        storedUser db userId = Some target
        /\ friends db (User._id (user req)) userId
        /\ (forall c, ~ oneToOneBetween db (User._id (user req)) userId c)
        /\ createOneToOneChat isValidObjectId db req userId
           = (respond CREATED "Chat created"
                      (ChatPayload (NewChat (newOneToOne req userId)) [user req; target]),
              set_chats db (chats db ++ [newOneToOne req userId]))).
Proof.
  intros _. unfold createOneToOneChat.
  destruct (String.eqb userId EmptyString || negb (isValidObjectId userId))%bool eqn:Hguard;
    [now left|].
  apply orb_false_iff in Hguard. destruct Hguard as [_ Hv]. apply negb_false_iff in Hv.
  rewrite (User_findById_stored isValidObjectId db userId Hv).
  destruct (storedUser db userId) as [target|] eqn:Hu; [|now left].
  pose proof (storedUser_inv db userId target Hu) as [_ Hid].
  unfold newOneToOne, oneToOneBetween. rewrite Hid.
  pose proof (sortUserIds_cases (User._id (user req)) userId) as Hcases.
  destruct (sortUserIds (User._id (user req)) userId) as [s b].
  cbn [fst snd].
  destruct (matchOneToOne db s b) as [|d rest] eqn:Hm; [|now left].
  destruct (Friendship_findOne db s b "accepted") as [f|] eqn:Hf; [|now left].
  right. exists target. split; [reflexivity|]. split.
  { apply Friendship_findOne_friends in Hf.
    destruct Hcases as [H|H]; inversion H; subst; [exact Hf | now apply friends_sym]. }
  split; [|reflexivity].
  intros c Hc.
  assert (Hd : In (StoredChat c (lookupLastMessage db c)) (matchOneToOne db s b))
    by (apply matchOneToOne_exact; eauto).
  rewrite Hm in Hd. contradiction.
Qed.

(** ** [createGroupChat], the other direction *)

Lemma friendShipPair_inj (loggedInUserId p q : Id) :
  friendShipPair loggedInUserId p = friendShipPair loggedInUserId q -> p = q.
Proof.
  unfold friendShipPair.
  destruct (String.ltb p loggedInUserId) eqn:Hp;
    destruct (String.ltb q loggedInUserId) eqn:Hq; intros H; inversion H; subst; auto.
Qed.

Lemma User_find_count (db : DB) (ids : list Id) :
  NoDup (map User._id (users db)) ->
  NoDup ids ->
  (forall p, In p ids -> exists u, In u (users db) /\ User._id u = p) ->
  List.length (User_find db ids) = List.length ids.
Proof.
  intros Hus Hids Hall.
  rewrite <- (length_map User._id (User_find db ids)).
  apply Permutation_length. apply NoDup_Permutation; auto.
  - now apply distinct_keys_filter.
  - intros x. unfold User_find. rewrite in_map_iff. split.
    + intros [u [Hu Hin]]. apply filter_In in Hin. destruct Hin as [_ Hin].
      apply idIn_In in Hin. congruence.
    + intros Hx. destruct (Hall x Hx) as [u [Hin Hu]]. exists u. split; [exact Hu|].
      apply filter_In. split; [exact Hin|]. apply idIn_In. congruence.
Qed.

Lemma Friendship_find_count (db : DB) (pairs : list (Id * Id)) :
  NoDup (map friendshipKey (friendships db)) ->
  NoDup pairs ->
  (forall p, In p pairs ->
             exists f, In f (friendships db)
                       /\ Friendship.status f = "accepted"
                       /\ friendshipKey f = p) ->
  List.length (Friendship_find db pairs "accepted") = List.length pairs.
Proof.
  intros Hfs Hpairs Hall.
  rewrite <- (length_map friendshipKey (Friendship_find db pairs "accepted")).
  apply Permutation_length. apply NoDup_Permutation; auto.
  - now apply distinct_keys_filter.
  - intros k. unfold Friendship_find. rewrite in_map_iff. split.
    + intros [f [Hk Hin]]. apply filter_In in Hin. destruct Hin as [_ Hin].
      apply andb_true_iff in Hin. destruct Hin as [Hex _].
      apply existsb_exists in Hex. destruct Hex as [p [Hp Hm]].
      apply pairMatches_key in Hm. congruence.
    + intros Hk. destruct (Hall k Hk) as [f [Hin [Hst Hkey]]]. exists f.
      split; [exact Hkey|]. apply filter_In. split; [exact Hin|].
      apply andb_true_iff. split.
      * apply existsb_exists. exists k. split; [exact Hk | now apply pairMatches_key].
      * now apply String.eqb_eq.
Qed.

(** X16.  In a store with one user per id and one friendship record per ordered
    pair: a request with a name that is not blank and at least two
    well-formed, distinct ids of stored users, each with an accepted
    friendship record under the pair the handler looks up, is answered
    CREATED, and the group is appended to the store with the named ids
    followed by the requester as participants and the requester as admin. *)
Theorem createGroupChat_succeeds
        (db : DB) (req : Req) (named : list Id) (groupName : string) :
  NoDup (map User._id (users db)) ->
  NoDup (map friendshipKey (friendships db)) ->
  blank groupName = false ->
  2 <= List.length named ->
  forallb isValidObjectId named = true ->
  NoDup named ->
  (forall p, In p named -> exists u, In u (users db) /\ User._id u = p) ->
  (forall p, In p named ->
             exists f, In f (friendships db)
                       /\ Friendship.status f = "accepted"
                       /\ friendshipKey f = friendShipPair (User._id (user req)) p) ->
  createGroupChat isValidObjectId db req (Some named) groupName
  = (respond CREATED "Group chat created"
             (ChatPayload (NewChat (newGroup req named groupName))
                          (User_find db named ++ [user req])),
     set_chats db (chats db ++ [newGroup req named groupName])).
Proof.
  intros Hus Hfs Hname Hlen Hvalid Hnd Husers Hfriends.
  assert (Hfilter : filter isValidObjectId named = named).
  { clear - Hvalid. induction named as [|x l IH]; cbn in *; [reflexivity|].
    apply andb_true_iff in Hvalid. destruct Hvalid as [Hx Hl]. rewrite Hx.
    f_equal. now apply IH. }
  unfold createGroupChat, Id in *. cbv zeta. rewrite Hname.
  replace (Nat.ltb (List.length named) 2) with false
    by (symmetry; apply Nat.ltb_ge; lia).
  rewrite Hfilter, Nat.eqb_refl. cbn [negb].
  rewrite (User_find_count db named Hus Hnd Husers), Nat.eqb_refl. cbn [negb].
  assert (Hcount : forall pairOf,
             (forall p, pairOf p = friendShipPair (User._id (user req)) p) ->
             List.length (Friendship_find db (map pairOf named) "accepted")
             = List.length named).
  { intros pairOf Hpair. rewrite (map_ext _ _ Hpair).
    rewrite (Friendship_find_count db (map (friendShipPair (User._id (user req))) named)).
    - apply length_map.
    - exact Hfs.
    - apply Finite.Injective_map_NoDup; [|exact Hnd].
      intros p q. apply friendShipPair_inj.
    - intros k Hk. apply in_map_iff in Hk. destruct Hk as [p [<- Hp]].
      now apply Hfriends. }
  rewrite Hcount by (intros p; reflexivity).
  rewrite Nat.eqb_refl. cbn [negb]. reflexivity.
Qed.

(** X17.  When [createGroupChat] does not create a group it answers BAD_REQUEST
    and leaves the store as it was; a blank name, a missing or short
    participant list, and an ill-formed id are each named in the message. *)
Theorem createGroupChat_rejections
        (db : DB) (req : Req) (participants : option (list Id)) (groupName : string) :
  ((exists s body db', createGroupChat isValidObjectId db req participants groupName
                       = (Json s body, db'))
   \/ (exists msg, createGroupChat isValidObjectId db req participants groupName
                   = (fail BAD_REQUEST msg, db)))
  /\ (blank groupName = true ->
      createGroupChat isValidObjectId db req participants groupName
      = (fail BAD_REQUEST "Group name is required", db))
  /\ (blank groupName = false ->
      (participants = None
       \/ exists named, participants = Some named /\ List.length named < 2) ->
      createGroupChat isValidObjectId db req participants groupName
      = (fail BAD_REQUEST "participants is required and should be more than 1", db))
  /\ (forall named p,
        blank groupName = false ->
        participants = Some named ->
        2 <= List.length named ->
        In p named -> isValidObjectId p = false ->
        createGroupChat isValidObjectId db req participants groupName
        = (fail BAD_REQUEST "Some participants are invalid", db)).
Proof.
  split; [|split; [|split]].
  - unfold createGroupChat. cbv zeta.
    destruct (blank groupName); [right; eexists; reflexivity|].
    destruct participants as [named|]; [|right; eexists; reflexivity].
    destruct (Nat.ltb (List.length named) 2); [right; eexists; reflexivity|].
    destruct (negb _); [right; eexists; reflexivity|].
    destruct (negb _); [right; eexists; reflexivity|].
    destruct (negb _); [right; eexists; reflexivity|].
    left. do 3 eexists. reflexivity.
  - intros Hb. unfold createGroupChat. cbv zeta. now rewrite Hb.
  - intros Hb Hshort. unfold createGroupChat. cbv zeta. rewrite Hb.
    destruct Hshort as [->|[named [-> Hlen]]]; [reflexivity|].
    now rewrite (proj2 (Nat.ltb_lt _ _) Hlen).
  - intros named p Hb -> Hlen Hin Hbad. unfold createGroupChat, Id in *. cbv zeta. rewrite Hb.
    replace (Nat.ltb (List.length named) 2) with false
      by (symmetry; apply Nat.ltb_ge; lia).
    assert (Hneq : Nat.eqb (List.length named) (List.length (filter isValidObjectId named))
                   = false).
    { apply Nat.eqb_neq. intros Heq. symmetry in Heq.
      apply filter_length_all in Heq.
      assert (Hp : In p (filter isValidObjectId named)) by (rewrite Heq; exact Hin).
      apply filter_In in Hp. destruct Hp as [_ Hp]. congruence. }
    now rewrite Hneq.
Qed.

End MembershipRules.

Section GroupIcon.

Variable isValidObjectId : string -> bool.
Variable uploadOnCloudinary : string -> string -> option string.
Variable CLN_CHATICON_FOLDER : string.

(** ** [updateGroupIcon] *)

(** X18.  Called with a group id in canonical form, or with one that is no
    ObjectId, [updateGroupIcon] reaches the blob store only for an admin of
    the stored group who sent a file.  It then uploads once; a failed
    upload changes nothing and deletes nothing; a successful one saves the
    chat with the new icon and, after the upload, deletes the icon the chat
    had before, if it had one. *)
Theorem updateGroupIcon_effects
        (db : DB) (req : Req) (gid : string) (file : option string) :
  canonicalIfValid isValidObjectId gid ->
  (exists o, updateGroupIcon isValidObjectId uploadOnCloudinary CLN_CHATICON_FOLDER
               db req gid file = (o, db, [])
             /\ forall s msg icon, o <> IconJson s msg icon)
  \/ (exists c path,
        stored db gid = Some c
        /\ Chat.chatType c = group
        /\ In (User._id (user req)) (Chat.admins c)
        /\ file = Some path
        /\ ((uploadOnCloudinary path CLN_CHATICON_FOLDER = None
             /\ updateGroupIcon isValidObjectId uploadOnCloudinary CLN_CHATICON_FOLDER
                  db req gid file
                = (IconNext (mkApiError BAD_REQUEST "Failed to upload profile picture"),
                   db, [UploadCall path CLN_CHATICON_FOLDER]))
            \/ (exists icon,
                  uploadOnCloudinary path CLN_CHATICON_FOLDER = Some icon
                  /\ updateGroupIcon isValidObjectId uploadOnCloudinary CLN_CHATICON_FOLDER
                       db req gid file
                     = (IconJson OK "Profile picture uploaded" icon,
                        save db (setGroupIcon c (Some icon)),
                        UploadCall path CLN_CHATICON_FOLDER
                        :: deletePrevious (Chat.groupIcon c))))).
Proof.
  intros _. unfold updateGroupIcon.
  destruct (blank gid).
  { left. eexists. split; [reflexivity | discriminate]. }
  unfold Chat_findById, findById.
  destruct (isValidObjectId gid).
  2:{ left. eexists. split; [reflexivity | discriminate]. }
  fold (stored db gid).
  destruct (stored db gid) as [c|] eqn:Hst.
  2:{ left. eexists. split; [reflexivity | discriminate]. }
  destruct (ChatType_eqb (Chat.chatType c) group) eqn:Hty; cbn [negb].
  2:{ left. eexists. split; [reflexivity | discriminate]. }
  apply ChatType_eqb_eq in Hty.
  destruct (JsArray.includes (Chat.admins c) (User._id (user req))) eqn:Hadm; cbn [negb].
  2:{ left. eexists. split; [reflexivity | discriminate]. }
  apply includes_In in Hadm.
  destruct file as [path|].
  2:{ left. eexists. split; [reflexivity | discriminate]. }
  right. exists c, path. repeat split; auto.
  destruct (uploadOnCloudinary path CLN_CHATICON_FOLDER) as [icon|].
  - right. exists icon. split; reflexivity.
  - left. split; reflexivity.
Qed.

(** X19.  The guards of [updateGroupIcon], in the order they are tried: a blank
    id, a chat that is missing, the id being in canonical form, or that is
    no group, an actor who is no admin
    (BAD_REQUEST here, where the other admin operations answer
    UNAUTHORIZED, and whether or not a file was sent), and a missing file. *)
Theorem updateGroupIcon_rejections
        (db : DB) (req : Req) (gid : string) (file : option string) :
  (blank gid = true ->
     updateGroupIcon isValidObjectId uploadOnCloudinary CLN_CHATICON_FOLDER db req gid file
     = (IconNext (mkApiError BAD_REQUEST "Please provide group id"), db, []))
  /\ (wfId isValidObjectId gid = true ->
      ((canonicalId gid = true /\ stored db gid = None)
       \/ exists c, stored db gid = Some c /\ Chat.chatType c <> group) ->
      updateGroupIcon isValidObjectId uploadOnCloudinary CLN_CHATICON_FOLDER db req gid file
      = (IconNext (mkApiError NOT_FOUND "Group chat not found"), db, []))
  /\ (forall c,
        wfId isValidObjectId gid = true ->
        stored db gid = Some c ->
        Chat.chatType c = group ->
        ~ In (User._id (user req)) (Chat.admins c) ->
        updateGroupIcon isValidObjectId uploadOnCloudinary CLN_CHATICON_FOLDER
          db req gid file
        = (IconNext (mkApiError BAD_REQUEST "Only admins can update group icon"), db, []))
  /\ (forall c,
        wfId isValidObjectId gid = true ->
        stored db gid = Some c ->
        Chat.chatType c = group ->
        In (User._id (user req)) (Chat.admins c) ->
        file = None ->
        updateGroupIcon isValidObjectId uploadOnCloudinary CLN_CHATICON_FOLDER
          db req gid file
        = (IconNext (mkApiError BAD_REQUEST "Please provide a group icon"), db, [])).
Proof.
  split; [|split; [|split]].
  - intros Hb. unfold updateGroupIcon. now rewrite Hb.
  - intros Hg Hmiss. apply wfId_inv in Hg. destruct Hg as [Hb Hv].
    unfold updateGroupIcon.
    rewrite Hb, (Chat_findById_stored isValidObjectId db gid Hv).
    destruct Hmiss as [[_ Hnone]|[c [Hst Hty]]].
    + now rewrite Hnone.
    + rewrite Hst. destruct (Chat.chatType c); [reflexivity | congruence].
  - intros c Hg Hst Hty Hnot. apply wfId_inv in Hg. destruct Hg as [Hb Hv].
    unfold updateGroupIcon.
    rewrite Hb, (Chat_findById_stored isValidObjectId db gid Hv), Hst, Hty.
    cbn [ChatType_eqb negb]. now rewrite (proj2 (includes_not_In _ _) Hnot).
  - intros c Hg Hst Hty Hadm ->. apply wfId_inv in Hg. destruct Hg as [Hb Hv].
    unfold updateGroupIcon.
    rewrite Hb, (Chat_findById_stored isValidObjectId db gid Hv), Hst, Hty.
    cbn [ChatType_eqb negb]. now rewrite (proj2 (includes_In _ _) Hadm).
Qed.

(** X20.  An admin sends a file and the upload succeeds: the stored chat carries
    the uploaded icon and is otherwise unchanged, members and name included,
    and every other chat is as stored. *)
Theorem updateGroupIcon_replaces_icon
        (db : DB) (req : Req) (gid path icon : string) (c : Chat.t) :
  wfStore isValidObjectId db = true ->
  stored db gid = Some c ->
  Chat.chatType c = group ->
  In (User._id (user req)) (Chat.admins c) ->
  uploadOnCloudinary path CLN_CHATICON_FOLDER = Some icon ->
  exists db' calls,
    updateGroupIcon isValidObjectId uploadOnCloudinary CLN_CHATICON_FOLDER
      db req gid (Some path)
    = (IconJson OK "Profile picture uploaded" icon, db', calls)
    /\ stored db' gid = Some (setGroupIcon c (Some icon))
    /\ Chat.groupIcon (setGroupIcon c (Some icon)) = Some icon
    /\ Chat.participants (setGroupIcon c (Some icon)) = Chat.participants c
    /\ Chat.admins (setGroupIcon c (Some icon)) = Chat.admins c
    /\ Chat.groupName (setGroupIcon c (Some icon)) = Chat.groupName c
    /\ (forall g, g <> gid -> stored db' g = stored db g)
    /\ (forall previous, In (DeleteCall previous) calls -> Chat.groupIcon c = Some previous).
Proof.
  intros Hwf Hst Hty Hadm Hup.
  destruct (stored_wf isValidObjectId db gid c Hwf Hst) as [Hg _].
  apply wfId_inv in Hg. destruct Hg as [Hb Hv].
  pose proof (stored_inv db gid c Hst) as [_ Hc].
  unfold updateGroupIcon.
  rewrite Hb, (Chat_findById_stored isValidObjectId db gid Hv), Hst, Hty.
  cbn [ChatType_eqb negb]. rewrite (proj2 (includes_In _ _) Hadm), Hup. cbn [negb].
  do 2 eexists. split; [reflexivity|]. repeat split.
  - apply stored_save with (c := c); auto.
  - intros g Hg. apply stored_save_other. cbn. congruence.
  - intros previous Hin. cbn in Hin. destruct Hin as [H|Hin]; [discriminate|].
    unfold deletePrevious in Hin. destruct (Chat.groupIcon c) as [old|]; [|contradiction].
    destruct (String.eqb old EmptyString); [contradiction|].
    destruct Hin as [H|[]]. now inversion H.
Qed.

End GroupIcon.

(** ** The pages of the two queries *)

Lemma insertDesc_In (y c : Chat.t) (cs : list Chat.t) :
  In y (insertDesc c cs) <-> y = c \/ In y cs.
Proof.
  induction cs as [|d rest IH]; cbn; [intuition|].
  destruct (Nat.leb (Chat.updatedAt d) (Chat.updatedAt c)); cbn; [intuition|].
  rewrite IH. intuition.
Qed.

Lemma sortByUpdatedAtDesc_In (y : Chat.t) (cs : list Chat.t) :
  In y (sortByUpdatedAtDesc cs) <-> In y cs.
Proof.
  unfold sortByUpdatedAtDesc. induction cs as [|c rest IH]; cbn [fold_right]; [tauto|].
  rewrite insertDesc_In, IH. cbn. intuition.
Qed.

Lemma insertDesc_descending (c : Chat.t) (cs : list Chat.t) :
  descending (map Chat.updatedAt cs) ->
  descending (map Chat.updatedAt (insertDesc c cs)).
Proof.
  induction cs as [|d rest IH]; cbn; [tauto|]. intros [Hd Hrest].
  destruct (Nat.leb (Chat.updatedAt d) (Chat.updatedAt c)) eqn:E; cbn.
  - apply Nat.leb_le in E. repeat split; auto.
    intros y [<-|Hy]; [exact E|]. specialize (Hd y Hy). lia.
  - apply Nat.leb_gt in E. split; [|now apply IH].
    intros y Hy. apply in_map_iff in Hy. destruct Hy as [x [<- Hx]].
    apply insertDesc_In in Hx. destruct Hx as [->|Hx]; [lia|].
    apply Hd. now apply in_map.
Qed.

Lemma sortByUpdatedAtDesc_descending (cs : list Chat.t) :
  descending (map Chat.updatedAt (sortByUpdatedAtDesc cs)).
Proof.
  unfold sortByUpdatedAtDesc. induction cs as [|c rest IH]; cbn [fold_right];
    [exact I | now apply insertDesc_descending].
Qed.

Lemma kept_by_firstn (A : Type) (x : A) (n : nat) (l : list A) :
  In x (firstn n l) -> In x l.
Proof. intros H. rewrite <- (firstn_skipn n l). apply in_or_app. now left. Qed.

Lemma kept_by_skipn (A : Type) (x : A) (n : nat) (l : list A) :
  In x (skipn n l) -> In x l.
Proof. intros H. rewrite <- (firstn_skipn n l). apply in_or_app. now right. Qed.

Lemma descending_skipn (n : nat) (l : list nat) :
  descending l -> descending (skipn n l).
Proof.
  revert l. induction n as [|n IH]; intros [|x l]; cbn; auto. intros [_ H]. now apply IH.
Qed.

Lemma descending_firstn (n : nat) (l : list nat) :
  descending l -> descending (firstn n l).
Proof.
  revert l. induction n as [|n IH]; intros [|x l]; cbn; auto. intros [Hx H].
  split; [|now apply IH]. intros y Hy. apply Hx. eapply kept_by_firstn; eauto.
Qed.

Lemma unwindLastMessage_doc (db : DB) (c : Chat.t) (item : ChatListItem.t) :
  In item (unwindLastMessage db c) -> ChatListItem.doc item = c.
Proof.
  unfold unwindLastMessage. destruct (lookupLastMessage db c) as [|m ms].
  - intros [<-|[]]. reflexivity.
  - intros Hin. apply in_map_iff in Hin. destruct Hin as [x [<- _]]. reflexivity.
Qed.

Lemma descending_app (l1 l2 : list nat) :
  descending l1 -> descending l2 ->
  (forall x y, In x l1 -> In y l2 -> y <= x) ->
  descending (l1 ++ l2).
Proof.
  induction l1 as [|a l1 IH]; cbn; [tauto|]. intros [Ha H1] H2 Hcross. split.
  - intros y Hy. apply in_app_or in Hy. destruct Hy as [Hy|Hy]; [now apply Ha|].
    apply Hcross; auto.
  - apply IH; auto.
Qed.

Lemma descending_constant (x : nat) (l : list nat) :
  (forall y, In y l -> y = x) -> descending l.
Proof.
  induction l as [|a l IH]; cbn; [tauto|]. intros H. split.
  - intros y Hy. rewrite (H a), (H y); auto.
  - apply IH. auto.
Qed.

Lemma unwound_descending (db : DB) (cs : list Chat.t) :
  descending (map Chat.updatedAt cs) ->
  descending (updatedAts (flat_map (unwindLastMessage db) cs)).
Proof.
  unfold updatedAts. induction cs as [|c rest IH]; cbn; [tauto|]. intros [Hc Hrest].
  rewrite map_app. apply descending_app.
  - apply descending_constant with (x := Chat.updatedAt c).
    intros y Hy. apply in_map_iff in Hy. destruct Hy as [item [<- Hitem]].
    now rewrite (unwindLastMessage_doc db c item Hitem).
  - now apply IH.
  - intros x y Hx Hy.
    apply in_map_iff in Hx. destruct Hx as [item [<- Hitem]].
    rewrite (unwindLastMessage_doc db c item Hitem).
    apply in_map_iff in Hy. destruct Hy as [item' [<- Hitem']].
    apply in_flat_map in Hitem'. destruct Hitem' as [c' [Hc' Hin']].
    rewrite (unwindLastMessage_doc db c' item' Hin').
    apply Hc. now apply in_map.
Qed.

Lemma In_page (A : Type) (x : A) (n k : nat) (l : list A) :
  In x (firstn n (skipn k l)) -> In x l.
Proof. intros H. apply kept_by_firstn in H. eapply kept_by_skipn; eauto. Qed.

Section Pages.

Variable StringToNumber : string -> JsNumber.
Variable pcre : string -> string -> option (string -> bool).

Lemma searchGroupChat_run
      (db : DB) (req : Req) (search : string) (raw : JsValue)
      (regex : string -> bool) (p : Z) :
  blank search = false ->
  compileRegex pcre search "i" = Some regex ->
  pageNumber StringToNumber raw = Num p ->
  searchGroupChat StringToNumber pcre db req search raw
  = (respond OK "Search in groups success"
       (GroupSearchPayload
          (map project
               (firstn 50 (skipn (Z.to_nat ((p - 1) * 50))
                                 (searchMatches db (User._id (user req)) regex))))
          (List.length (searchMatches db (User._id (user req)) regex))
          (p * 50 <? Z.of_nat
                       (List.length (searchMatches db (User._id (user req)) regex)))%Z),
     db).
Proof.
  intros Hb Hre Hp. unfold searchGroupChat. rewrite Hb, Hp, Hre.
  rewrite totalOf_countStage. reflexivity.
Qed.

(** X22.  Whenever [searchGroupChat] answers, what it returns are projections of
    stored group chats that list the actor and whose name the expression
    accepts; the page holds the chats left after the pages before the one
    served for the request, at most 50 of them, and exactly 50 when
    [hasMore] is true. *)
Theorem searchGroupChat_page
        (db : DB) (req : Req) (search : string) (raw : JsValue)
        (s : StatusCode) (body : ApiResponse) :
  fst (searchGroupChat StringToNumber pcre db req search raw) = Json s body ->
  exists p regex groupChats totalGroupChats hasMore,
    servedPage StringToNumber raw p
    /\ compileRegex pcre search "i" = Some regex
    /\ body = mkApiResponse OK "Search in groups success"
                (GroupSearchPayload groupChats totalGroupChats hasMore)
    /\ List.length groupChats
       = Nat.min 50 (totalGroupChats - Z.to_nat ((p - 1) * 50))
    /\ (hasMore = true -> List.length groupChats = 50)
    /\ (forall g, In g groupChats ->
                  exists c, In c (chats db)
                            /\ g = project c
                            /\ Chat.chatType c = group
                            /\ In (User._id (user req)) (Chat.participants c)
                            /\ regex (Chat.groupName c) = true).
Proof.
  intros H.
  destruct (blank search) eqn:Hb; [unfold searchGroupChat in H; now rewrite Hb in H|].
  destruct (pageNumber_served StringToNumber raw) as [p [Hp Hserved]].
  assert (Hge : (1 <= p)%Z).
  { destruct Hserved as [[_ ->]|[_ Hge]]; [lia | exact Hge]. }
  destruct (compileRegex pcre search "i") as [regex|] eqn:Hre;
    [|unfold searchGroupChat in H; now rewrite Hb, Hre in H].
  rewrite (searchGroupChat_run db req search raw regex p Hb Hre Hp) in H.
  unfold fst, respond in H. injection H as <- <-.
  exists p, regex.
  exists (map project
              (firstn 50 (skipn (Z.to_nat ((p - 1) * 50))
                                (searchMatches db (User._id (user req)) regex)))).
  exists (List.length (searchMatches db (User._id (user req)) regex)).
  exists (p * 50 <? Z.of_nat
                      (List.length (searchMatches db (User._id (user req)) regex)))%Z.
  split; [exact Hserved|]. split; [reflexivity|]. split; [reflexivity|].
  rewrite length_map, length_firstn, length_skipn.
  split; [reflexivity|]. split.
  - intros Hmore. apply Z.ltb_lt in Hmore. lia.
  - intros g Hg. apply in_map_iff in Hg. destruct Hg as [c [<- Hc]].
    apply In_page in Hc. apply filter_In in Hc. destruct Hc as [Hin Hc].
    rewrite !andb_true_iff in Hc. destruct Hc as [[Hty Hpart] Hr].
    exists c. repeat split; auto.
    + now apply ChatType_eqb_eq.
    + now apply idIn_In.
Qed.

(** X23.  What [getAllChats] returns: only stored chats that list the actor,
    most recently updated first, and as participants exactly the stored
    users listed by one of the returned chats. *)
Theorem getAllChats_page (db : DB) (req : Req) (raw : JsValue) :
  exists chatsData totalChats hasMore participants,
    getAllChats StringToNumber db req raw
    = (respond OK "Get all chats success"
               (ChatListPayload chatsData totalChats hasMore participants), db)
    /\ (forall item, In item chatsData ->
                     In (ChatListItem.doc item) (chats db)
                     /\ In (User._id (user req))
                           (Chat.participants (ChatListItem.doc item)))
    /\ descending (updatedAts chatsData)
    /\ (forall u, In u participants
                  <-> In u (users db)
                      /\ exists item, In item chatsData
                                      /\ In (User._id u)
                                            (Chat.participants (ChatListItem.doc item))).
Proof.
  unfold getAllChats. do 4 eexists. split; [reflexivity|]. split; [|split].
  - intros item Hitem. apply in_flat_map in Hitem. destruct Hitem as [c [Hc Hin]].
    rewrite (unwindLastMessage_doc db c item Hin).
    apply In_page in Hc. apply (proj1 (sortByUpdatedAtDesc_In _ _)) in Hc.
    apply filter_In in Hc. destruct Hc as [Hstored Hpart].
    split; [exact Hstored | now apply idIn_In].
  - apply unwound_descending.
    rewrite <- firstn_map. apply descending_firstn.
    rewrite <- skipn_map. apply descending_skipn.
    apply sortByUpdatedAtDesc_descending.
  - intros u. unfold User_find. rewrite filter_In, idIn_In, in_flat_map. reflexivity.
Qed.

End Pages.

(** ** The statements at work on the sample store *)

Ltac distinct :=
  repeat (constructor; [cbn; intuition discriminate|]); constructor.

Lemma sample_no_chat_between_alice_and_carol (c : Chat.t) :
  ~ oneToOneBetween Sample.db Sample.idA Sample.idC c.
Proof.
  intros [Hin [Hty Hps]]. cbn in Hin.
  destruct Hin as [<-|[<-|[<-|[]]]]; cbn in Hty, Hps; discriminate.
Qed.

Lemma sample_alice_and_carol_not_friends :
  ~ friends Sample.db Sample.idA Sample.idC.
Proof.
  intros [f [Hin [Hst H]]]. cbn in Hin.
  destruct Hin as [<-|[<-|[]]]; cbn in Hst, H; [|discriminate].
  destruct H as [[_ H]|[H _]]; discriminate.
Qed.

Lemma sample_every_group_has_admin : everyGroupHasAdmin Sample.db.
Proof.
  intros g c Hst Hty. apply stored_inv in Hst. destruct Hst as [Hin _]. cbn in Hin.
  destruct Hin as [<-|[<-|[<-|[]]]]; cbn in *; discriminate.
Qed.

(** C1, at the failing input.  In the group of the spec's scenario Alice is
    the only admin.  Every stored group has an admin; Alice toggles her own
    admin flag, the call answers OK "Admin removed", and the group is saved
    with its three participants and no admin. *)
Theorem toggleAdmin_leaves_group_without_admin :
  everyGroupHasAdmin Sample.db
  /\ toggleAdmin Sample.hex24 Sample.db Sample.asAlice Sample.idTeam Sample.idA
     = (respond OK "Admin removed" NoData,
        save Sample.db (Chat.set_admins Sample.team []))
  /\ stored (applyOps Sample.hex24 Sample.db
               [OpToggleAdmin Sample.asAlice Sample.idTeam Sample.idA])
            Sample.idTeam
     = Some (Chat.set_admins Sample.team [])
  /\ Chat.participants (Chat.set_admins Sample.team [])
     = [Sample.idA; Sample.idB; Sample.idC]
  /\ Chat.admins (Chat.set_admins Sample.team []) = []
  /\ ~ everyGroupHasAdmin
       (applyOps Sample.hex24 Sample.db
          [OpToggleAdmin Sample.asAlice Sample.idTeam Sample.idA]).
Proof.
  split; [exact sample_every_group_has_admin|].
  split; [reflexivity|]. split; [reflexivity|]. split; [reflexivity|].
  split; [reflexivity|].
  intros Hinv.
  apply (Hinv Sample.idTeam (Chat.set_admins Sample.team [])); reflexivity.
Qed.

Lemma createOneToOneChat_idempotent_witness :
  exists found lastMessage,
    createOneToOneChat Sample.hex24 Sample.db Sample.asAlice Sample.idB
    = (respond OK "Chat already exists"
               (ChatPayload (StoredChat found lastMessage) [Sample.alice; Sample.bob]),
       Sample.db)
    /\ createOneToOneChat Sample.hex24 Sample.db Sample.asBob Sample.idA
       = (respond OK "Chat already exists"
                  (ChatPayload (StoredChat found lastMessage) [Sample.bob; Sample.alice]),
          Sample.db)
    /\ found = Sample.duo.
Proof.
  destruct (createOneToOneChat_idempotent Sample.hex24 Sample.db
              Sample.asAlice Sample.asBob Sample.duo)
    as [found [lastMessage [HA [HB [_ [_ [Huniq _]]]]]]].
  - reflexivity.
  - reflexivity.
  - reflexivity.
  - repeat split; cbn; auto.
  - exists found, lastMessage. split; [exact HA|]. split; [exact HB|].
    apply Huniq. intros c' [Hin [Hty Hps]]. cbn in Hin.
    destruct Hin as [<-|[<-|[<-|[]]]]; cbn in Hty, Hps; try discriminate. reflexivity.
Defined.

Lemma leaveGroup_promotes_first_remaining_witness :
  exists saved,
    leaveGroup Sample.hex24 Sample.db Sample.asAlice Sample.idTeam
    = (respond OK "You left the group" NoData, save Sample.db saved)
    /\ stored (save Sample.db saved) Sample.idTeam = Some saved
    /\ Chat.participants saved = [Sample.idB; Sample.idC]
    /\ JsArray.at0 (Chat.participants saved) = Some Sample.idB
    /\ Chat.admins saved = [Sample.idB]
    /\ Chat.admins saved <> [].
Proof.
  apply (leaveGroup_promotes_first_remaining Sample.hex24 Sample.db Sample.asAlice
           Sample.idTeam Sample.team Sample.idB [Sample.idC]).
  - reflexivity.
  - reflexivity.
  - reflexivity.
  - cbn. auto.
  - reflexivity.
  - cbn. auto.
  - reflexivity.
Defined.

Lemma removeParticipant_by_admin_witness :
  (~ In Sample.idB (Chat.participants Sample.team) ->
     exists e, removeParticipant Sample.hex24 Sample.db Sample.asAlice
                 Sample.idTeam Sample.idB = (Next e, Sample.db))
  /\ (Sample.idB = Sample.idA ->
        removeParticipant Sample.hex24 Sample.db Sample.asAlice Sample.idTeam Sample.idB
        = (fail BAD_REQUEST "You can't remove yourself, try leaving the group", Sample.db))
  /\ (In Sample.idB (Chat.participants Sample.team) -> Sample.idB <> Sample.idA ->
        exists saved,
          removeParticipant Sample.hex24 Sample.db Sample.asAlice Sample.idTeam Sample.idB
          = (respond OK "User removed from group" NoData, save Sample.db saved)
          /\ stored (save Sample.db saved) Sample.idTeam = Some saved
          /\ Chat.participants saved = removeFirst Sample.idB (Chat.participants Sample.team)
          /\ Chat.admins saved = removeFirst Sample.idB (Chat.admins Sample.team)
          /\ (NoDup (Chat.participants Sample.team) ->
              ~ In Sample.idB (Chat.participants saved))
          /\ (NoDup (Chat.admins Sample.team) -> ~ In Sample.idB (Chat.admins saved))
          /\ (forall a, In a (Chat.admins saved) -> In a (Chat.admins Sample.team))).
Proof.
  apply (removeParticipant_by_admin Sample.hex24 Sample.db Sample.asAlice
           Sample.idTeam Sample.idB Sample.team).
  - reflexivity.
  - reflexivity.
  - reflexivity.
  - cbn. auto.
Defined.

Lemma leaveGroup_sole_participant_persists_nothing_witness :
  leaveGroup Sample.hex24 Sample.db Sample.asCarol Sample.idSolo
  = (respond OK "You left the group" NoData, Sample.db)
  /\ stored (snd (leaveGroup Sample.hex24 Sample.db Sample.asCarol Sample.idSolo))
            Sample.idSolo
     = Some Sample.solo
  /\ In Sample.idC (Chat.participants Sample.solo).
Proof.
  apply (leaveGroup_sole_participant_persists_nothing Sample.hex24 Sample.db
           Sample.asCarol Sample.idSolo Sample.solo); reflexivity.
Defined.

(** C5, the claim as stated fails.  Alice names Carol: Carol exists, the two
    have no chat and no accepted friendship (theirs is pending).  The call
    fails with BAD_REQUEST, the status of a malformed request, which is not
    of the class Forbidden. *)
Lemma createOneToOneChat_not_friends_not_forbidden :
  storedUser Sample.db Sample.idC = Some Sample.carol
  /\ (forall c, ~ oneToOneBetween Sample.db Sample.idA Sample.idC c)
  /\ ~ friends Sample.db Sample.idA Sample.idC
  /\ fst (createOneToOneChat Sample.hex24 Sample.db Sample.asAlice Sample.idC)
     = fail BAD_REQUEST "You can only chat with friends"
  /\ ~ failsWith Forbidden
       (fst (createOneToOneChat Sample.hex24 Sample.db Sample.asAlice Sample.idC)).
Proof.
  split; [reflexivity|].
  split; [exact sample_no_chat_between_alice_and_carol|].
  split; [exact sample_alice_and_carol_not_friends|].
  split; [reflexivity|].
  intros [e [He Hclass]]. vm_compute in He. inversion He; subst e.
  discriminate Hclass.
Qed.

Lemma createOneToOneChat_not_friends_witness :
  createOneToOneChat Sample.hex24 Sample.db Sample.asAlice Sample.idC
  = (fail BAD_REQUEST "You can only chat with friends", Sample.db)
  /\ snd (createOneToOneChat Sample.hex24 Sample.db Sample.asAlice Sample.idC)
     = Sample.db.
Proof.
  apply (createOneToOneChat_not_friends Sample.hex24 Sample.db Sample.asAlice Sample.carol).
  - reflexivity.
  - reflexivity.
  - exact sample_no_chat_between_alice_and_carol.
  - exact sample_alice_and_carol_not_friends.
Defined.

(** C6, the claim as stated fails.  Bob is not an admin of "Team" and sends
    an empty name: the call fails with BAD_REQUEST, not with a status of the
    class Forbidden.  Alice sends a name for an id that is not an ObjectId:
    no chat has that id, and the call fails with BAD_REQUEST, not with
    NOT_FOUND. *)
Lemma updateGroupName_validates_first :
  (stored Sample.db Sample.idTeam = Some Sample.team
   /\ Chat.chatType Sample.team = group
   /\ ~ In Sample.idB (Chat.admins Sample.team)
   /\ updateGroupName Sample.hex24 Sample.db Sample.asBob EmptyString Sample.idTeam
      = (fail BAD_REQUEST "Group name is required", Sample.db)
   /\ ~ failsWith Forbidden
        (fst (updateGroupName Sample.hex24 Sample.db Sample.asBob
                EmptyString Sample.idTeam)))
  /\ (stored Sample.db "team" = None
      /\ updateGroupName Sample.hex24 Sample.db Sample.asAlice "Crew" "team"
         = (fail BAD_REQUEST "Invalid group id", Sample.db)
      /\ ~ failsWith NotFound
           (fst (updateGroupName Sample.hex24 Sample.db Sample.asAlice "Crew" "team"))).
Proof.
  split.
  - split; [reflexivity|]. split; [reflexivity|].
    split; [cbn; intuition discriminate|]. split; [reflexivity|].
    intros [e [He Hclass]]. vm_compute in He. inversion He; subst e.
    discriminate Hclass.
  - split; [reflexivity|]. split; [reflexivity|].
    intros [e [He Hclass]]. vm_compute in He. inversion He; subst e.
    discriminate Hclass.
Qed.

Lemma updateGroupName_checks_witness :
  updateGroupName Sample.hex24 Sample.db Sample.asBob "Crew" Sample.idTeam
  = (fail UNAUTHORIZED "Only admins can change group name", Sample.db)
  /\ failsWith Forbidden
       (fst (updateGroupName Sample.hex24 Sample.db Sample.asBob "Crew" Sample.idTeam))
  /\ updateGroupName Sample.hex24 Sample.db Sample.asAlice "Crew" Sample.idDuo
     = (fail NOT_FOUND "Group chat not found", Sample.db)
  /\ updateGroupName Sample.hex24 Sample.db Sample.asAlice "Crew" Sample.idNew
     = (fail NOT_FOUND "Group chat not found", Sample.db)
  /\ (exists msg,
        updateGroupName Sample.hex24 Sample.db Sample.asBob EmptyString Sample.idTeam
        = (fail BAD_REQUEST msg, Sample.db))
  /\ failsWith ValidationError
       (fst (updateGroupName Sample.hex24 Sample.db Sample.asAlice "Crew" "team")).
Proof.
  destruct (updateGroupName_checks Sample.hex24 Sample.db Sample.asBob "Crew" Sample.idTeam)
    as [_ [_ Hadmin]].
  destruct (Hadmin eq_refl eq_refl Sample.team) as [Hrun [Hclass _]];
    [reflexivity | reflexivity | cbn; intuition discriminate |].
  destruct (updateGroupName_checks Sample.hex24 Sample.db Sample.asAlice "Crew" Sample.idDuo)
    as [_ [Hduo _]].
  destruct (Hduo eq_refl eq_refl) as [Hduo' _].
  { right. exists Sample.duo. split; [reflexivity | discriminate]. }
  destruct (updateGroupName_checks Sample.hex24 Sample.db Sample.asAlice "Crew" Sample.idNew)
    as [_ [Hnew _]].
  destruct (Hnew eq_refl eq_refl) as [Hnew' _].
  { left. split; reflexivity. }
  destruct (updateGroupName_checks Sample.hex24 Sample.db Sample.asBob
              EmptyString Sample.idTeam) as [Hblank _].
  destruct (Hblank (or_introl eq_refl)) as [Hmsg _].
  destruct (updateGroupName_checks Sample.hex24 Sample.db Sample.asAlice "Crew" "team")
    as [Hbad _].
  destruct (Hbad (or_intror eq_refl)) as [_ [Hinvalid _]].
  repeat split; assumption.
Defined.



Lemma searchGroupChat_plain_query_witness :
  exists p,
    servedPage Sample.decimal (JsString "2") p
    /\ pageNumber Sample.decimal (JsString "2") = Num p
    /\ fst (searchGroupChat Sample.decimal Sample.noEngine Sample.db Sample.asAlice
              "tEa" (JsString "2"))
       = respond OK "Search in groups success"
           (GroupSearchPayload
              (map project
                   (firstn 50 (skipn (Z.to_nat ((p - 1) * 50))
                                     (substringMatches Sample.db Sample.idA "tEa"))))
              (List.length (substringMatches Sample.db Sample.idA "tEa"))
              (p * 50 <? Z.of_nat
                           (List.length (substringMatches Sample.db Sample.idA "tEa")))%Z).
Proof.
  apply (searchGroupChat_plain_query Sample.decimal Sample.noEngine Sample.db
           Sample.asAlice "tEa" (JsString "2")); reflexivity.
Defined.

(** Bob and Carol, the two users Alice names, have no friendship with each
    other; the group is created all the same. *)
Lemma sample_bob_and_carol_not_friends :
  ~ friends Sample.dbFriends Sample.idB Sample.idC.
Proof.
  intros [f [Hin [_ H]]]. cbn in Hin.
  destruct Hin as [<-|[<-|[]]]; cbn in H; destruct H as [[H _]|[H _]]; discriminate.
Qed.

Lemma createGroupChat_success_witness :
  exists named created,
    Some [Sample.idB; Sample.idC] = Some named
    /\ (forall p, In p named ->
                  (exists u, In u (users Sample.dbFriends) /\ User._id u = p)
                  /\ friends Sample.dbFriends p Sample.idA)
    /\ CREATED = CREATED
    /\ mkApiResponse CREATED "Group chat created"
         (ChatPayload
            (NewChat (Chat.mk Sample.idNew group [Sample.idB; Sample.idC; Sample.idA]
                              [Sample.idA] "Trio" None None 0))
            [Sample.bob; Sample.carol; Sample.alice])
       = mkApiResponse CREATED "Group chat created"
           (ChatPayload (NewChat created) (User_find Sample.dbFriends named ++ [Sample.alice]))
    /\ Chat.chatType created = group
    /\ Chat.groupName created = "Trio"
    /\ Chat.participants created = named ++ [Sample.idA]
    /\ Chat.admins created = [Sample.idA]
    /\ chats (set_chats Sample.dbFriends
                [Chat.mk Sample.idNew group [Sample.idB; Sample.idC; Sample.idA]
                         [Sample.idA] "Trio" None None 0])
       = chats Sample.dbFriends ++ [created].
Proof.
  apply (createGroupChat_success Sample.hex24 Sample.dbFriends Sample.asAlice
           (Some [Sample.idB; Sample.idC]) "Trio").
  - distinct.
  - distinct.
  - reflexivity.
Defined.

(** ** The further statements at work on the sample stores *)

Lemma sample_all_tidy : allTidy Sample.db.
Proof.
  intros g c Hst. apply stored_inv in Hst. destruct Hst as [Hin _]. cbn in Hin.
  destruct Hin as [<-|[<-|[<-|[]]]];
    (split; [cbn; distinct | split; [cbn; distinct | intros a Ha; cbn in *; intuition]]).
Qed.

Lemma sample_operations_canonical :
  canonicalOps Sample.hex24
    [OpToggleAdmin Sample.asAlice Sample.idTeam Sample.idB;
     OpLeaveGroup Sample.asAlice Sample.idTeam;
     OpRemoveParticipant Sample.asBob Sample.idTeam Sample.idC].
Proof.
  apply Forall_cons; [split; intros _; reflexivity|].
  apply Forall_cons; [intros _; reflexivity|].
  apply Forall_cons; [split; intros _; reflexivity|].
  apply Forall_nil.
Qed.

Lemma membership_operations_keep_chats_tidy_witness :
  allTidy (applyOps Sample.hex24 Sample.db
             [OpToggleAdmin Sample.asAlice Sample.idTeam Sample.idB;
              OpLeaveGroup Sample.asAlice Sample.idTeam;
              OpRemoveParticipant Sample.asBob Sample.idTeam Sample.idC]).
Proof.
  apply (membership_operations_keep_chats_tidy Sample.hex24).
  - exact sample_operations_canonical.
  - exact sample_all_tidy.
Defined.

Lemma membership_operations_keep_an_admin_witness :
  everyGroupHasAdmin
    (applyOps Sample.hex24 Sample.db
       [OpLeaveGroup Sample.asAlice Sample.idTeam;
        OpRemoveParticipant Sample.asBob Sample.idTeam Sample.idC]).
Proof.
  apply (membership_operations_keep_an_admin Sample.hex24).
  - apply Forall_cons; [intros _; reflexivity|].
    apply Forall_cons; [split; intros _; reflexivity|].
    apply Forall_nil.
  - exact sample_every_group_has_admin.
  - cbn. auto.
Defined.

Lemma addParticipant_by_admin_witness :
  addParticipant Sample.hex24 Sample.db Sample.asAlice Sample.idTeam Sample.idB
  = (fail BAD_REQUEST "This user is already in the group", Sample.db)
  /\ addParticipant Sample.hex24 Sample.db Sample.asAlice Sample.idTeam Sample.idNew
     = (fail BAD_REQUEST "You can only add your friends to the group", Sample.db).
Proof.
  destruct (addParticipant_by_admin Sample.hex24 Sample.db Sample.asAlice
              Sample.idTeam Sample.idB Sample.team) as [Halready _].
  - reflexivity.
  - reflexivity.
  - reflexivity.
  - cbn. auto.
  - destruct (addParticipant_by_admin Sample.hex24 Sample.db Sample.asAlice
                Sample.idTeam Sample.idNew Sample.team) as [_ [Hstranger _]].
    + reflexivity.
    + reflexivity.
    + reflexivity.
    + cbn. auto.
    + split; [apply Halready; cbn; auto|].
      apply Hstranger; [reflexivity | reflexivity | cbn; intuition discriminate |].
      intros [f [Hin [_ H]]]. cbn in Hin.
      destruct Hin as [<-|[<-|[]]]; cbn in H;
        destruct H as [[_ H]|[H _]]; discriminate.
Defined.

Lemma toggleAdmin_by_admin_witness :
  exists saved,
    stored (snd (toggleAdmin Sample.hex24 Sample.db Sample.asAlice Sample.idTeam Sample.idB))
           Sample.idTeam = Some saved
    /\ Chat.admins saved = [Sample.idA; Sample.idB].
Proof.
  destruct (toggleAdmin_by_admin Sample.hex24 Sample.db Sample.asAlice
              Sample.idTeam Sample.idB Sample.team) as [_ Hin].
  - reflexivity.
  - reflexivity.
  - reflexivity.
  - cbn. auto.
  - destruct Hin as [saved [Hst [_ [_ [Hpromote _]]]]]; [cbn; auto|].
    exists saved. split; [exact Hst|]. apply Hpromote. cbn. intuition discriminate.
Defined.

Lemma toggleAdmin_twice_restores_witness :
  exists promoted restored,
    toggleAdmin Sample.hex24 Sample.db Sample.asAlice Sample.idTeam Sample.idB
    = (respond OK "User marked as admin" NoData, promoted)
    /\ (exists c', stored promoted Sample.idTeam = Some c'
                   /\ Chat.admins c' = Chat.admins Sample.team ++ [Sample.idB])
    /\ toggleAdmin Sample.hex24 promoted Sample.asAlice Sample.idTeam Sample.idB
       = (respond OK "Admin removed" NoData, restored)
    /\ sameStoreButStamps Sample.db restored.
Proof.
  apply (toggleAdmin_twice_restores Sample.hex24 Sample.db Sample.asAlice
           Sample.idTeam Sample.idB Sample.team).
  - reflexivity.
  - reflexivity.
  - reflexivity.
  - cbn. auto.
  - cbn. auto.
  - cbn. intuition discriminate.
Defined.

Lemma addParticipant_then_removeParticipant_restores_witness :
  exists added restored,
    addParticipant Sample.hex24 MoreSamples.dbSolo Sample.asCarol Sample.idSolo Sample.idA
    = (respond OK "User added to group" NoData, added)
    /\ (exists c', stored added Sample.idSolo = Some c'
                   /\ In Sample.idA (Chat.participants c'))
    /\ removeParticipant Sample.hex24 added Sample.asCarol Sample.idSolo Sample.idA
       = (respond OK "User removed from group" NoData, restored)
    /\ sameStoreButStamps MoreSamples.dbSolo restored.
Proof.
  apply (addParticipant_then_removeParticipant_restores Sample.hex24 MoreSamples.dbSolo
           Sample.asCarol Sample.idSolo Sample.idA Sample.solo
           (Friendship.mk Sample.idA Sample.idC "accepted")).
  - reflexivity.
  - reflexivity.
  - reflexivity.
  - cbn. auto.
  - intros a Ha. exact Ha.
  - reflexivity.
  - reflexivity.
  - cbn. intuition discriminate.
  - reflexivity.
Defined.

Lemma leaveGroup_without_promotion_witness :
  exists saved,
    leaveGroup Sample.hex24 Sample.db Sample.asBob Sample.idTeam
    = (respond OK "You left the group" NoData, save Sample.db saved)
    /\ stored (save Sample.db saved) Sample.idTeam = Some saved
    /\ Chat.participants saved = [Sample.idA; Sample.idC]
    /\ Chat.admins saved = removeFirst Sample.idB (Chat.admins Sample.team)
    /\ (~ In Sample.idB (Chat.admins Sample.team) ->
        Chat.admins saved = Chat.admins Sample.team)
    /\ sameButMembersAndStamp Sample.team saved.
Proof.
  apply (leaveGroup_without_promotion Sample.hex24 Sample.db Sample.asBob
           Sample.idTeam Sample.team Sample.idA [Sample.idC]).
  - reflexivity.
  - reflexivity.
  - reflexivity.
  - cbn. auto.
  - reflexivity.
  - cbn. discriminate.
Defined.

Lemma updateGroupName_renames_witness :
  stored (snd (updateGroupName Sample.hex24 Sample.db Sample.asAlice "Crew" Sample.idTeam))
         Sample.idTeam
  = Some (Chat.set_groupName Sample.team "Crew").
Proof.
  apply (updateGroupName_renames Sample.hex24 Sample.db Sample.asAlice "Crew"
           Sample.idTeam Sample.team).
  - reflexivity.
  - reflexivity.
  - reflexivity.
  - reflexivity.
  - cbn. auto.
Defined.

Lemma createOneToOneChat_twice_witness :
  exists created db',
    createOneToOneChat Sample.hex24 Sample.dbFriends Sample.asAlice Sample.idC
    = (respond CREATED "Chat created"
               (ChatPayload (NewChat created) [Sample.alice; Sample.carol]), db')
    /\ chats db' = chats Sample.dbFriends ++ [created]
    /\ createOneToOneChat Sample.hex24 db' Sample.asAlice Sample.idC
       = (respond OK "Chat already exists"
                  (ChatPayload (StoredChat created []) [Sample.alice; Sample.carol]), db')
    /\ createOneToOneChat Sample.hex24 db' Sample.asCarol Sample.idA
       = (respond OK "Chat already exists"
                  (ChatPayload (StoredChat created []) [Sample.carol; Sample.alice]), db').
Proof.
  apply (createOneToOneChat_twice Sample.hex24 Sample.dbFriends
           Sample.asAlice Sample.asAlice Sample.asCarol Sample.carol
           (Friendship.mk Sample.idA Sample.idC "accepted")).
  - reflexivity.
  - reflexivity.
  - reflexivity.
  - reflexivity.
  - reflexivity.
  - intros c [Hin _]. exact Hin.
  - reflexivity.
Defined.

Lemma createGroupChat_succeeds_witness :
  createGroupChat Sample.hex24 Sample.dbFriends Sample.asAlice
                  (Some [Sample.idB; Sample.idC]) "Trio"
  = (respond CREATED "Group chat created"
             (ChatPayload (NewChat (newGroup Sample.asAlice [Sample.idB; Sample.idC] "Trio"))
                          (User_find Sample.dbFriends [Sample.idB; Sample.idC]
                           ++ [Sample.alice])),
     set_chats Sample.dbFriends
       (chats Sample.dbFriends ++ [newGroup Sample.asAlice [Sample.idB; Sample.idC] "Trio"])).
Proof.
  apply (createGroupChat_succeeds Sample.hex24 Sample.dbFriends Sample.asAlice
           [Sample.idB; Sample.idC] "Trio").
  - distinct.
  - distinct.
  - reflexivity.
  - cbn. lia.
  - reflexivity.
  - distinct.
  - intros p [<-|[<-|[]]]; [exists Sample.bob | exists Sample.carol]; cbn; auto.
  - intros p [<-|[<-|[]]].
    + exists (Friendship.mk Sample.idA Sample.idB "accepted"). cbn. auto.
    + exists (Friendship.mk Sample.idA Sample.idC "accepted"). cbn. auto.
Defined.

Lemma updateGroupIcon_replaces_icon_witness :
  exists db' calls,
    updateGroupIcon Sample.hex24 MoreSamples.upload "chat-icons"
      MoreSamples.dbIcon Sample.asAlice Sample.idTeam (Some "/tmp/icon.png")
    = (IconJson OK "Profile picture uploaded" "chat-icons/new", db', calls)
    /\ stored db' Sample.idTeam
       = Some (setGroupIcon MoreSamples.teamWithIcon (Some "chat-icons/new"))
    /\ calls = [UploadCall "/tmp/icon.png" "chat-icons"; DeleteCall "chat-icons/old"].
Proof.
  destruct (updateGroupIcon_replaces_icon Sample.hex24 MoreSamples.upload "chat-icons"
              MoreSamples.dbIcon Sample.asAlice Sample.idTeam "/tmp/icon.png"
              "chat-icons/new" MoreSamples.teamWithIcon)
    as [db' [calls [Hrun [Hst _]]]].
  - reflexivity.
  - reflexivity.
  - reflexivity.
  - cbn. auto.
  - reflexivity.
  - exists db', calls. split; [exact Hrun|]. split; [exact Hst|].
    vm_compute in Hrun. now inversion Hrun.
Defined.

Lemma searchGroupChat_page_witness :
  exists p regex groupChats totalGroupChats hasMore,
    servedPage Sample.decimal (JsString "2") p
    /\ compileRegex Sample.noEngine "team" "i" = Some regex
    /\ mkApiResponse OK "Search in groups success" (GroupSearchPayload [] 1 false)
       = mkApiResponse OK "Search in groups success"
           (GroupSearchPayload groupChats totalGroupChats hasMore)
    /\ List.length groupChats
       = Nat.min 50 (totalGroupChats - Z.to_nat ((p - 1) * 50))
    /\ (hasMore = true -> List.length groupChats = 50)
    /\ (forall g, In g groupChats ->
                  exists c, In c (chats Sample.db)
                            /\ g = project c
                            /\ Chat.chatType c = group
                            /\ In Sample.idA (Chat.participants c)
                            /\ regex (Chat.groupName c) = true).
Proof.
  apply (searchGroupChat_page Sample.decimal Sample.noEngine Sample.db Sample.asAlice
           "team" (JsString "2") OK). reflexivity.
Defined.

Lemma utilityForGroupAction_success_iff_witness :
  utilityForGroupAction Sample.hex24 Sample.db Sample.idTeam Sample.idB Sample.idA
  = ActionSuccess Sample.team
  <-> (wfId Sample.hex24 Sample.idTeam = true
       /\ wfId Sample.hex24 Sample.idB = true
       /\ stored Sample.db Sample.idTeam = Some Sample.team
       /\ Chat.chatType Sample.team = group
       /\ In Sample.idA (Chat.admins Sample.team)).
Proof.
  apply (utilityForGroupAction_success_iff Sample.hex24 Sample.db
           Sample.idTeam Sample.idB Sample.idA Sample.team).
  intros _. reflexivity.
Defined.

Lemma membership_change_requires_admin_witness :
  adminOnly Sample.db Sample.idTeam Sample.idB
            (addParticipant Sample.hex24 Sample.db Sample.asBob Sample.idTeam Sample.idC)
  /\ adminOnly Sample.db Sample.idTeam Sample.idB
               (removeParticipant Sample.hex24 Sample.db Sample.asBob
                  Sample.idTeam Sample.idC)
  /\ adminOnly Sample.db Sample.idTeam Sample.idB
               (toggleAdmin Sample.hex24 Sample.db Sample.asBob Sample.idTeam Sample.idC).
Proof.
  apply (membership_change_requires_admin Sample.hex24 Sample.db Sample.asBob
           Sample.idTeam Sample.idC); intros _; reflexivity.
Defined.

Lemma membership_operation_frame_witness :
  users (applyOp Sample.hex24 Sample.db (OpLeaveGroup Sample.asAlice Sample.idTeam))
  = users Sample.db
  /\ friendships (applyOp Sample.hex24 Sample.db (OpLeaveGroup Sample.asAlice Sample.idTeam))
     = friendships Sample.db
  /\ messages (applyOp Sample.hex24 Sample.db (OpLeaveGroup Sample.asAlice Sample.idTeam))
     = messages Sample.db
  /\ map Chat._id
         (chats (applyOp Sample.hex24 Sample.db (OpLeaveGroup Sample.asAlice Sample.idTeam)))
     = map Chat._id (chats Sample.db)
  /\ (forall g, g <> Sample.idTeam ->
                stored (applyOp Sample.hex24 Sample.db
                          (OpLeaveGroup Sample.asAlice Sample.idTeam)) g
                = stored Sample.db g)
  /\ (forall c, stored Sample.db Sample.idTeam = Some c ->
                exists c',
                  stored (applyOp Sample.hex24 Sample.db
                            (OpLeaveGroup Sample.asAlice Sample.idTeam)) Sample.idTeam
                  = Some c'
                  /\ sameButMembersAndStamp c c').
Proof.
  apply (membership_operation_frame Sample.hex24 Sample.db
           (OpLeaveGroup Sample.asAlice Sample.idTeam)).
  intros _. reflexivity.
Defined.

Lemma createOneToOneChat_creates_at_most_one_witness :
  snd (createOneToOneChat Sample.hex24 Sample.dbFriends Sample.asAlice Sample.idC)
  = Sample.dbFriends
  \/ (exists target,
        storedUser Sample.dbFriends Sample.idC = Some target
        /\ friends Sample.dbFriends Sample.idA Sample.idC
        /\ (forall c, ~ oneToOneBetween Sample.dbFriends Sample.idA Sample.idC c)
        /\ createOneToOneChat Sample.hex24 Sample.dbFriends Sample.asAlice Sample.idC
           = (respond CREATED "Chat created"
                      (ChatPayload (NewChat (newOneToOne Sample.asAlice Sample.idC))
                                   [Sample.alice; target]),
              set_chats Sample.dbFriends
                (chats Sample.dbFriends ++ [newOneToOne Sample.asAlice Sample.idC]))).
Proof.
  apply (createOneToOneChat_creates_at_most_one Sample.hex24 Sample.dbFriends
           Sample.asAlice Sample.idC).
  intros _. reflexivity.
Defined.

Lemma updateGroupIcon_effects_witness :
  (exists o, updateGroupIcon Sample.hex24 MoreSamples.upload "chat-icons"
               MoreSamples.dbIcon Sample.asAlice Sample.idTeam (Some "/tmp/icon.png")
             = (o, MoreSamples.dbIcon, [])
             /\ forall s msg icon, o <> IconJson s msg icon)
  \/ (exists c path,
        stored MoreSamples.dbIcon Sample.idTeam = Some c
        /\ Chat.chatType c = group
        /\ In Sample.idA (Chat.admins c)
        /\ Some "/tmp/icon.png" = Some path
        /\ ((MoreSamples.upload path "chat-icons" = None
             /\ updateGroupIcon Sample.hex24 MoreSamples.upload "chat-icons"
                  MoreSamples.dbIcon Sample.asAlice Sample.idTeam (Some "/tmp/icon.png")
                = (IconNext (mkApiError BAD_REQUEST "Failed to upload profile picture"),
                   MoreSamples.dbIcon, [UploadCall path "chat-icons"]))
            \/ (exists icon,
                  MoreSamples.upload path "chat-icons" = Some icon
                  /\ updateGroupIcon Sample.hex24 MoreSamples.upload "chat-icons"
                       MoreSamples.dbIcon Sample.asAlice Sample.idTeam
                       (Some "/tmp/icon.png")
                     = (IconJson OK "Profile picture uploaded" icon,
                        save MoreSamples.dbIcon (setGroupIcon c (Some icon)),
                        UploadCall path "chat-icons"
                        :: deletePrevious (Chat.groupIcon c))))).
Proof.
  apply (updateGroupIcon_effects Sample.hex24 MoreSamples.upload "chat-icons"
           MoreSamples.dbIcon Sample.asAlice Sample.idTeam (Some "/tmp/icon.png")).
  intros _. reflexivity.
Defined.
